(** * ai-governance-mcp: detection, decision and audit ledger

    A shallow embedding of [patterns.py], [policies.py], [database.py] and
    the tool handlers of [server.py], followed by the properties of the
    specification that were checked against it.

    Conventions.
    - A Python [str] is a [string]; its characters are read as code points
      below 128 (ASCII text).  [int] is [Z].
    - A [dict] used as a record of settings or of entry fields is a
      [gmap string value]; a [dict] whose iteration order matters (the
      pattern and policy tables) is an association list.
    - The [re] module, the clock and SQLite are the environment: the regex
      engine is a type class, clock readings are explicit arguments, and the
      two tables of the database are a record that the operations pass on.
      Every [commit] is recorded in the order it happens.  SQLite admits
      one writer at a time; what the code computes where a second writer
      gets through is kept beside it (see [writers]).
    - An exception is the [Raise] case of [result]. *)

From Stdlib Require Import ZArith NArith List String Ascii Lia Bool DecimalString.
From Stdlib Require Import Sorted Permutation.
From stdpp Require Import gmap strings list fin_maps sorting.

Set Warnings "-register-all".

Local Open Scope string_scope.
Local Open Scope list_scope.
Local Open Scope Z_scope.

(* ================================================================== *)
(** * Python values and strings *)
(* ================================================================== *)

(** The JSON-like fragment of Python values that reaches the handlers. *)
Inductive value : Type :=
| VNone
| VBool (b : bool)
| VInt (z : Z)
| VStr (s : string)
| VList (l : list value)
| VDict (d : list (string * value)).

(** Exceptions are values of the error case. *)
Inductive result (A : Type) : Type :=
| Ok (a : A)
| Raise (exc : string).
Arguments Ok {A} a.
Arguments Raise {A} exc.

Definition bind {A B : Type} (r : result A) (k : A -> result B) : result B :=
  match r with
  | Ok a => k a
  | Raise e => Raise e
  end.

(** With these instances the code below is written [x ← r; k]. *)
#[export] Instance result_ret : MRet result := fun A a => Ok a.
#[export] Instance result_bind : MBind result := fun A B k r => bind r k.

(** The double quote, which a string literal cannot hold. *)
Definition dquote : string := String "034" EmptyString.

Definition ord (c : ascii) : N := N_of_ascii c.

(** [len(s)] *)
Definition len (s : string) : Z := Z.of_nat (String.length s).

(** ['0' <= c <= '9'] *)
Definition is_digit (c : ascii) : bool := ((48 <=? ord c) && (ord c <=? 57))%N.

(** The class [\s] of [re] on ASCII text: tab, line feed, vertical tab,
    form feed, carriage return, the four information separators and space. *)
Definition is_space (c : ascii) : bool :=
  (((9 <=? ord c) && (ord c <=? 13)) || ((28 <=? ord c) && (ord c <=? 32)))%N.

Definition lower_char (c : ascii) : ascii :=
  if ((65 <=? ord c) && (ord c <=? 90))%N then ascii_of_N (ord c + 32) else c.

Definition upper_char (c : ascii) : ascii :=
  if ((97 <=? ord c) && (ord c <=? 122))%N then ascii_of_N (ord c - 32) else c.

Fixpoint str_map (f : ascii -> ascii) (s : string) : string :=
  match s with
  | EmptyString => EmptyString
  | String c r => String (f c) (str_map f r)
  end.

(** [s.lower()] and [s.upper()] *)
Definition lower (s : string) : string := str_map lower_char s.
Definition upper (s : string) : string := str_map upper_char s.

Fixpoint str_filter (keep : ascii -> bool) (s : string) : string :=
  match s with
  | EmptyString => EmptyString
  | String c r => if keep c then String c (str_filter keep r) else str_filter keep r
  end.

Fixpoint str_forall (p : ascii -> bool) (s : string) : bool :=
  match s with
  | EmptyString => true
  | String c r => p c && str_forall p r
  end.

(** [s.isdigit()]: at least one character, all of them digits. *)
Definition isdigit (s : string) : bool :=
  match s with
  | EmptyString => false
  | _ => str_forall is_digit s
  end.

(** [sub in s] *)
Fixpoint str_contains (sub s : string) : bool :=
  String.prefix sub s ||
  match s with
  | EmptyString => false
  | String _ r => str_contains sub r
  end.

(** [s * n] *)
Fixpoint str_repeat (s : string) (n : nat) : string :=
  match n with
  | O => EmptyString
  | S k => s +:+ str_repeat s k
  end.

(** Slice bounds as Python clamps them: a negative index counts from the
    end, and both ends are cut to the string. *)
Definition slice_index (n i : Z) : nat :=
  Z.to_nat (if i <? 0 then Z.max 0 (n + i) else Z.min i n).

(** [s[:i]] *)
Definition slice_to (s : string) (i : Z) : string :=
  substring 0 (slice_index (len s) i) s.

(** [s[i:]] *)
Definition slice_from (s : string) (i : Z) : string :=
  let k := slice_index (len s) i in
  substring k (String.length s - k) s.

(** [dict.update] on an insertion-ordered dictionary: a key that is present
    keeps its place and takes the new value, a new key goes to the end. *)
Fixpoint dict_set {V : Type} (k : string) (v : V) (d : list (string * V)) : list (string * V) :=
  match d with
  | [] => [(k, v)]
  | (k', v') :: r => if String.eqb k k' then (k, v) :: r else (k', v') :: dict_set k v r
  end.

Definition dict_update {V : Type} (d upd : list (string * V)) : list (string * V) :=
  fold_left (fun acc kv => dict_set (fst kv) (snd kv) acc) upd d.

(** [list.sort(key=...)] and [sorted(..., key=..., reverse=True)]: stable,
    by insertion.  [before a b] says that [a] may stand before [b]. *)
Fixpoint sort_insert {A : Type} (before : A -> A -> bool) (x : A) (l : list A) : list A :=
  match l with
  | [] => [x]
  | y :: r => if before x y then x :: y :: r else y :: sort_insert before x r
  end.

Definition stable_sort {A : Type} (before : A -> A -> bool) (l : list A) : list A :=
  fold_right (sort_insert before) [] l.

(* ================================================================== *)
(** * patterns.py *)
(* ================================================================== *)

(** One occurrence of a pattern: [match.start()], [match.end()] and
    [match.groups()]. *)
Record re_match : Type := {
  match_start : nat;
  match_end : nat;
  match_groups : list (option string)
}.

(** The two entry points of [re] that the code calls, both with
    [re.IGNORECASE]. *)
Class ReEngine : Type := {
  re_finditer : string -> string -> list re_match;
  re_search : string -> string -> bool
}.

(** [match.group()] *)
Definition match_group0 (text : string) (m : re_match) : string :=
  substring (match_start m) (match_end m - match_start m) text.

(** [PIIMatch]; [confidence] is the constant 1.0 and is left out. *)
Record PIIMatch : Type := {
  m_type : string;
  m_name : string;
  m_value : option string;
  m_start : Z;
  m_end : Z;
  m_severity : string
}.

Record pattern_config : Type := {
  p_pattern : string;
  p_name : string;
  p_severity : string;
  p_description : string
}.

Definition PII_PATTERNS : list (string * pattern_config) :=
  [ ("ssn",
     {| p_pattern := "\b\d{3}-\d{2}-\d{4}\b";
        p_name := "Social Security Number";
        p_severity := "high";
        p_description := "US Social Security Number" |});
    ("email",
     {| p_pattern := "\b[a-zA-Z0-9._%+-]+@[a-zA-Z0-9.-]+\.[a-zA-Z]{2,}\b";
        p_name := "Email Address";
        p_severity := "medium";
        p_description := "Email addresses" |});
    ("phone_us",
     {| p_pattern := "\b(?:\+?1[-.\s]?)?\(?\d{3}\)?[-.\s]?\d{3}[-.\s]?\d{4}\b";
        p_name := "Phone Number (US)";
        p_severity := "medium";
        p_description := "US phone numbers" |});
    ("credit_card",
     {| p_pattern := "\b(?:\d{4}[-\s]?){3}\d{4}\b";
        p_name := "Credit Card Number";
        p_severity := "high";
        p_description := "Credit card numbers" |});
    ("ip_address",
     {| p_pattern := "\b(?:(?:25[0-5]|2[0-4][0-9]|[01]?[0-9][0-9]?)\.){3}(?:25[0-5]|2[0-4][0-9]|[01]?[0-9][0-9]?)\b";
        p_name := "IP Address";
        p_severity := "low";
        p_description := "IPv4 addresses" |});
    ("aws_key",
     {| p_pattern := "\b(?:AKIA|ABIA|ACCA|ASIA)[A-Z0-9]{16}\b";
        p_name := "AWS Access Key";
        p_severity := "critical";
        p_description := "AWS access key IDs" |});
    ("api_key_generic",
     {| p_pattern := "\b(?:api[_-]?key|apikey|api[_-]?token)[" +:+ dquote +:+ "\s:=]+["
                     +:+ dquote +:+ "\'`]?([a-zA-Z0-9_\-]{20,})[" +:+ dquote +:+ "\'`]?\b";
        p_name := "API Key";
        p_severity := "high";
        p_description := "Generic API keys" |});
    ("github_token",
     {| p_pattern := "\b(?:ghp|gho|ghu|ghs|ghr)_[a-zA-Z0-9]{36}\b";
        p_name := "GitHub Token";
        p_severity := "critical";
        p_description := "GitHub personal access tokens" |});
    ("slack_token",
     {| p_pattern := "\bxox[baprs]-[a-zA-Z0-9-]+\b";
        p_name := "Slack Token";
        p_severity := "high";
        p_description := "Slack API tokens" |});
    ("private_key",
     {| p_pattern := "-----BEGIN (?:RSA |EC )?PRIVATE KEY-----";
        p_name := "Private Key";
        p_severity := "critical";
        p_description := "Private cryptographic keys" |}) ].

Definition EXTENDED_PATTERNS : list (string * pattern_config) :=
  [ ("passport",
     {| p_pattern := "\b[A-Z]{1,2}\d{6,9}\b";
        p_name := "Passport Number";
        p_severity := "high";
        p_description := "Passport numbers" |});
    ("drivers_license",
     {| p_pattern := "\b[A-Z]{1,2}\d{5,8}\b";
        p_name := "Driver License";
        p_severity := "medium";
        p_description := "Driver license numbers" |});
    ("iban",
     {| p_pattern := "\b[A-Z]{2}\d{2}[A-Z0-9]{4}\d{7}([A-Z0-9]?){0,16}\b";
        p_name := "IBAN";
        p_severity := "high";
        p_description := "International Bank Account Number" |});
    ("bitcoin_address",
     {| p_pattern := "\b[13][a-km-zA-HJ-NP-Z1-9]{25,34}\b";
        p_name := "Bitcoin Address";
        p_severity := "medium";
        p_description := "Bitcoin wallet addresses" |});
    ("ethereum_address",
     {| p_pattern := "\b0x[a-fA-F0-9]{40}\b";
        p_name := "Ethereum Address";
        p_severity := "medium";
        p_description := "Ethereum wallet addresses" |}) ].

(** [re.sub(r'[-\s]', '', number)] *)
Definition is_separator (c : ascii) : bool := Ascii.eqb c "-" || is_space c.

Definition strip_separators (number : string) : string :=
  str_filter (fun c => negb (is_separator c)) number.

(** [int(digit)] for a digit character. *)
Definition int_of_digit (c : ascii) : Z := Z.of_N (ord c) - 48.

(** [enumerate] *)
Fixpoint enumerate_from {A : Type} (i : nat) (l : list A) : list (nat * A) :=
  match l with
  | [] => []
  | x :: r => (i, x) :: enumerate_from (S i) r
  end.

Definition enumerate {A : Type} (l : list A) : list (nat * A) := enumerate_from 0 l.

(** The body of the loop over the reversed digits. *)
Definition luhn_step (total : Z) (id : nat * ascii) : Z :=
  let n := int_of_digit (snd id) in
  let n :=
    if Nat.eqb (fst id mod 2) 1
    then (let n := n * 2 in if n >? 9 then n - 9 else n)
    else n in
  total + n.

Definition validate_credit_card (number : string) : bool :=
  let number := strip_separators number in
  if negb (isdigit number) then false
  else
    let reverse_digits := rev (list_ascii_of_string number) in
    let total := fold_left luhn_step (enumerate reverse_digits) 0 in
    total mod 10 =? 0.

(** The matches of one table entry, in the order [finditer] yields them. *)
Definition pattern_matches `{ReEngine} (text : string) (entry : string * pattern_config)
  : list PIIMatch :=
  let pii_type := fst entry in
  let config := snd entry in
  flat_map
    (fun m =>
       if String.eqb pii_type "credit_card" && negb (validate_credit_card (match_group0 text m))
       then []
       else
         let value :=
           match match_groups m with
           | g1 :: _ => g1
           | [] => Some (match_group0 text m)
           end in
         [ {| m_type := pii_type;
              m_name := p_name config;
              m_value := value;
              m_start := Z.of_nat (match_start m);
              m_end := Z.of_nat (match_end m);
              m_severity := p_severity config |} ])
    (re_finditer (p_pattern config) text).

Definition active_patterns (extended : bool) : list (string * pattern_config) :=
  let patterns := PII_PATTERNS in
  if extended then dict_update patterns EXTENDED_PATTERNS else patterns.

Definition detect_pii `{ReEngine} (text : string) (extended : bool) : list PIIMatch :=
  let patterns := active_patterns extended in
  let matches := flat_map (pattern_matches text) patterns in
  stable_sort (fun a b => m_start a <=? m_start b) matches.

(** The placeholder written over one match. *)
Definition replacement (redaction_style : string) (m : PIIMatch) : string :=
  if String.eqb redaction_style "[REDACTED-TYPE]" then
    "[REDACTED-" +:+ upper (m_name m) +:+ "]"
  else if String.eqb redaction_style "[REDACTED-XXX]" then
    "[" +:+ str_repeat "X" (Z.to_nat (m_end m - m_start m - 2)) +:+ "]"
  else redaction_style.

Definition redact_pii (text : string) (matches : list PIIMatch) (redaction_style : string)
  : string :=
  match matches with
  | [] => text
  | _ =>
    let sorted_matches := stable_sort (fun a b => m_start b <=? m_start a) matches in
    fold_left
      (fun redacted m =>
         slice_to redacted (m_start m) +:+ replacement redaction_style m
         +:+ slice_from redacted (m_end m))
      sorted_matches text
  end.

(* ================================================================== *)
(** * policies.py *)
(* ================================================================== *)

Inductive PolicyAction : Type := ALLOW | WARN | BLOCK | REDACT.

(** [PolicyAction.value] *)
Definition action_value (a : PolicyAction) : string :=
  match a with
  | ALLOW => "allow"
  | WARN => "warn"
  | BLOCK => "block"
  | REDACT => "redact"
  end.

Definition action_eqb (a b : PolicyAction) : bool :=
  match a, b with
  | ALLOW, ALLOW | WARN, WARN | BLOCK, BLOCK | REDACT, REDACT => true
  | _, _ => false
  end.

(** [PolicyViolation]; [confidence] is the constant 1.0 and is left out. *)
Record PolicyViolation : Type := {
  v_policy_name : string;
  v_category : string;
  v_matched_keyword : string;
  v_action : PolicyAction;
  v_message : string;
  v_severity : string
}.

(** One rule of a policy table.  Every key is optional: the built-in
    extended rules leave out [keywords] or [regex_patterns], and
    [check_policies] reads the others with a default. *)
Record policy_config : Type := {
  c_category : option string;
  c_keywords : option (list string);
  c_regex_patterns : option (list string);
  c_action : option PolicyAction;
  c_message : option string;
  c_severity : option string
}.

Definition POLICY_RULES : list (string * policy_config) :=
  [ ("medical_advice",
     {| c_category := Some "medical";
        c_keywords := Some
          [ "medical advice"; "diagnosis"; "diagnose"; "prescribe"; "prescription";
            "treatment plan"; "medication"; "dosage"; "symptoms indicate";
            "medical opinion"; "health advice" ];
        c_regex_patterns := Some
          [ "\b(?:what|which) (?:medication|medicine|drug)s?\b";
            "\b(?:should i|do i need to) (?:take|see a doctor)\b";
            "\bdiagnos(?:is|e) (?:my|these) symptoms?\b" ];
        c_action := Some BLOCK;
        c_message := Some "Medical advice detected. Please consult a licensed healthcare professional.";
        c_severity := Some "high" |});
    ("legal_advice",
     {| c_category := Some "legal";
        c_keywords := Some
          [ "legal advice"; "legal counsel"; "lawsuit"; "sue"; "legal action";
            "legal rights"; "attorney"; "lawyer"; "legal opinion"; "contract review" ];
        c_regex_patterns := Some
          [ "\b(?:can|should) i sue\b";
            "\bis this (?:legal|illegal)\b";
            "\bwhat are my legal (?:rights|options)\b" ];
        c_action := Some BLOCK;
        c_message := Some "Legal advice detected. Please consult a qualified attorney.";
        c_severity := Some "high" |});
    ("financial_advice",
     {| c_category := Some "financial";
        c_keywords := Some
          [ "investment advice"; "stock tips"; "financial planning";
            "buy this stock"; "invest in"; "trading strategy"; "portfolio advice";
            "retirement planning"; "tax advice" ];
        c_regex_patterns := Some
          [ "\b(?:should i|when to) (?:buy|sell) (?:stock|crypto)\b";
            "\b(?:best|good) investment (?:strategy|opportunity)\b" ];
        c_action := Some WARN;
        c_message := Some "Financial advice detected. Please consult a licensed financial advisor.";
        c_severity := Some "medium" |});
    ("harmful_content",
     {| c_category := Some "safety";
        c_keywords := Some
          [ "self harm"; "suicide"; "hurt myself"; "end my life";
            "harmful"; "dangerous activity" ];
        c_regex_patterns := Some
          [ "\bhow to (?:make|build|create) (?:bomb|weapon|explosive)\b";
            "\b(?:ways to|how to) (?:harm|hurt|injure)\b" ];
        c_action := Some BLOCK;
        c_message := Some "Content policy violation. This type of content is not allowed.";
        c_severity := Some "critical" |});
    ("internal_data",
     {| c_category := Some "confidential";
        c_keywords := Some
          [ "confidential"; "internal only"; "do not share"; "proprietary";
            "trade secret"; "company confidential"; "restricted" ];
        c_regex_patterns := Some
          [ "\b(?:internal|confidential) (?:document|information|data)\b";
            "\bdo not (?:share|distribute|disclose)\b" ];
        c_action := Some WARN;
        c_message := Some "Potentially confidential information detected.";
        c_severity := Some "medium" |}) ].

Definition EXTENDED_POLICIES : list (string * policy_config) :=
  [ ("competitive_intel",
     {| c_category := Some "business";
        c_keywords := Some
          [ "competitor analysis"; "competitor pricing"; "steal customers";
            "poach employees"; "competitor secrets" ];
        c_regex_patterns := None;
        c_action := Some WARN;
        c_message := Some "Competitive intelligence query detected.";
        c_severity := Some "low" |});
    ("personal_info_request",
     {| c_category := Some "privacy";
        c_keywords := Some
          [ "home address"; "personal phone"; "family members";
            "social security"; "date of birth"; "mothers maiden name" ];
        c_regex_patterns := None;
        c_action := Some WARN;
        c_message := Some "Request for personal information detected.";
        c_severity := Some "medium" |});
    ("code_injection",
     {| c_category := Some "security";
        c_keywords := None;
        c_regex_patterns := Some
          [ "<script[^>]*>.*?</script>";
            "(?:SELECT|INSERT|UPDATE|DELETE|DROP|CREATE|ALTER).*(?:FROM|INTO|TABLE)";
            "(?:\$\{|\{\{)[^}]+(?:\}|\}\})" ];
        c_action := Some BLOCK;
        c_message := Some "Potential code injection detected.";
        c_severity := Some "high" |}) ].

(** The keyword loop: the first keyword whose lower-case form occurs in the
    lower-cased text. *)
Definition first_keyword (text_lower : string) (keywords : list string) : option string :=
  List.find (fun keyword => str_contains (lower keyword) text_lower) keywords.

(** The pattern loop, which runs only when no keyword matched. *)
Definition first_pattern `{ReEngine} (text : string) (patterns : list string) : option string :=
  List.find (fun pattern => re_search pattern text) patterns.

(** One turn of the loop over the policies: the trigger that matched, if any. *)
Definition policy_trigger `{ReEngine} (text text_lower : string) (config : policy_config)
  : option string :=
  let by_keyword :=
    match c_keywords config with
    | Some keywords => first_keyword text_lower keywords
    | None => None
    end in
  match by_keyword with
  | Some keyword => Some keyword
  | None =>
    match c_regex_patterns config with
    | Some patterns =>
      match first_pattern text patterns with
      | Some pattern => Some ("pattern: " +:+ pattern)
      | None => None
      end
    | None => None
    end
  end.

Definition policy_violation `{ReEngine} (text text_lower : string)
  (entry : string * policy_config) : list PolicyViolation :=
  let policy_name := fst entry in
  let config := snd entry in
  match policy_trigger text text_lower config with
  | Some matched_keyword =>
    [ {| v_policy_name := policy_name;
         v_category := default "general" (c_category config);
         v_matched_keyword := matched_keyword;
         v_action := default WARN (c_action config);
         v_message := default "Policy violation detected" (c_message config);
         v_severity := default "medium" (c_severity config) |} ]
  | None => []
  end.

Definition check_policies `{ReEngine} (text : string) (extended : bool)
  (custom_policies : option (list (string * policy_config))) : list PolicyViolation :=
  let policies := POLICY_RULES in
  let policies := if extended then dict_update policies EXTENDED_POLICIES else policies in
  let policies :=
    match custom_policies with
    | Some (c :: cs) => dict_update policies (c :: cs)
    | _ => policies
    end in
  let text_lower := lower text in
  flat_map (policy_violation text text_lower) policies.

Definition should_block (violations : list PolicyViolation) : bool :=
  existsb (fun v => action_eqb (v_action v) BLOCK) violations.

(* ================================================================== *)
(** * json.dumps and hashlib.sha256 *)
(* ================================================================== *)

Module Json.

Definition hex_char (n : N) : ascii :=
  if (n <? 10)%N then ascii_of_N (48 + n) else ascii_of_N (87 + n).

(** [ensure_ascii]: the quote and the backslash are escaped, five control
    characters have a short form, and everything else outside the range
    from space to tilde is written as a four-digit escape. *)
Definition escape_char (c : ascii) : string :=
  let n := ord c in
  if (n =? 34)%N then "\" +:+ dquote
  else if (n =? 92)%N then "\\"
  else if (n =? 10)%N then "\n"
  else if (n =? 13)%N then "\r"
  else if (n =? 9)%N then "\t"
  else if (n =? 8)%N then "\b"
  else if (n =? 12)%N then "\f"
  else if ((32 <=? n) && (n <=? 126))%N then String c EmptyString
  else "\u00" +:+ String (hex_char (n / 16)) (String (hex_char (n mod 16)) EmptyString).

Fixpoint escape (s : string) : string :=
  match s with
  | EmptyString => EmptyString
  | String c r => escape_char c +:+ escape r
  end.

Definition dumps_str (s : string) : string := dquote +:+ escape s +:+ dquote.

Definition dumps_int (z : Z) : string := NilZero.string_of_int (Z.to_int z).

Fixpoint join (sep : string) (parts : list string) : string :=
  match parts with
  | [] => EmptyString
  | [p] => p
  | p :: r => p +:+ sep +:+ join sep r
  end.

(** [json.dumps(v)] with the default separators. *)
Fixpoint dumps (v : value) : string :=
  match v with
  | VNone => "null"
  | VBool true => "true"
  | VBool false => "false"
  | VInt z => dumps_int z
  | VStr s => dumps_str s
  | VList l => "[" +:+ join ", " (List.map dumps l) +:+ "]"
  | VDict d =>
    "{" +:+ join ", " (List.map (fun kv => dumps_str (fst kv) +:+ ": " +:+ dumps (snd kv)) d)
    +:+ "}"
  end.

(** [sort_keys=True]: the items of every dictionary in key order. *)
Fixpoint sort_keys (v : value) : value :=
  match v with
  | VList l => VList (List.map sort_keys l)
  | VDict d =>
    VDict (stable_sort (fun a b => String.leb (fst a) (fst b))
             (List.map (fun kv => (fst kv, sort_keys (snd kv))) d))
  | _ => v
  end.

End Json.

(** SHA-256 (FIPS 180-4) on 32-bit words held in [N]. *)
Module Sha256.

Local Open Scope N_scope.

Definition mask32 : N := 0xffffffff.
Definition add32 (a b : N) : N := N.land (a + b) mask32.
Definition rotr (n x : N) : N :=
  N.lor (N.shiftr x n) (N.land (N.shiftl x (32 - n)) mask32).
Definition not32 (x : N) : N := N.lxor x mask32.

Definition Ch (x y z : N) : N := N.lxor (N.land x y) (N.land (not32 x) z).
Definition Maj (x y z : N) : N :=
  N.lxor (N.lxor (N.land x y) (N.land x z)) (N.land y z).
Definition Sigma0 (x : N) : N := N.lxor (N.lxor (rotr 2 x) (rotr 13 x)) (rotr 22 x).
Definition Sigma1 (x : N) : N := N.lxor (N.lxor (rotr 6 x) (rotr 11 x)) (rotr 25 x).
Definition sigma0 (x : N) : N := N.lxor (N.lxor (rotr 7 x) (rotr 18 x)) (N.shiftr x 3).
Definition sigma1 (x : N) : N := N.lxor (N.lxor (rotr 17 x) (rotr 19 x)) (N.shiftr x 10).

(** The constants are fractional parts of roots of the first primes. *)
Definition is_prime (n : nat) : bool :=
  forallb (fun d => negb (Nat.eqb (n mod d) 0)) (seq 2 (n - 2)).

Definition primes : list N :=
  Eval vm_compute in List.map N.of_nat (firstn 64 (List.filter is_prime (seq 2 400))).

(** The integer cube root, bit by bit from the top. *)
Fixpoint cube_root_bits (bit : nat) (x r : N) : N :=
  match bit with
  | O => r
  | S b =>
    let c := r + 2 ^ N.of_nat b in
    cube_root_bits b x (if c * c * c <=? x then c else r)
  end.

(** The first 32 bits of the fractional part of the cube root of each of
    the first 64 primes. *)
Definition K : list N :=
  Eval vm_compute in
    List.map (fun p => N.land (cube_root_bits 36 (p * 2 ^ 96) 0) mask32) primes.

(** The first 32 bits of the fractional part of the square root of each
    of the first 8 primes. *)
Definition H0 : list N :=
  Eval vm_compute in
    List.map (fun p => N.land (N.sqrt (p * 2 ^ 64)) mask32) (firstn 8 primes).

(** The message followed by the bit 1, zeros, and its length in bits as a
    64-bit big-endian number, a multiple of 64 bytes in all. *)
Definition big_endian (width : nat) (x : N) : list N :=
  List.map (fun i => N.land (N.shiftr x (8 * N.of_nat i)) 0xff) (rev (seq 0 width)).

Definition pad (msg : list N) : list N :=
  let n := N.of_nat (length msg) in
  let zeros := (119 - n mod 64) mod 64 in
  msg ++ [0x80] ++ repeat 0 (N.to_nat zeros) ++ big_endian 8 (8 * n).

Fixpoint words (fuel : nat) (bytes : list N) : list N :=
  match fuel, bytes with
  | S f, b0 :: b1 :: b2 :: b3 :: r =>
    (N.shiftl b0 24 + N.shiftl b1 16 + N.shiftl b2 8 + b3) :: words f r
  | _, _ => []
  end.

Fixpoint blocks (fuel : nat) (ws : list N) : list (list N) :=
  match fuel, ws with
  | S f, _ :: _ => firstn 16 ws :: blocks f (skipn 16 ws)
  | _, _ => []
  end.

(** The message schedule, most recent word first. *)
Fixpoint schedule (n : nat) (w_rev : list N) : list N :=
  match n with
  | O => w_rev
  | S k =>
    let w := add32 (add32 (sigma1 (nth 1 w_rev 0)) (nth 6 w_rev 0))
                   (add32 (sigma0 (nth 14 w_rev 0)) (nth 15 w_rev 0)) in
    schedule k (w :: w_rev)
  end.

Definition round (st : list N) (kw : N * N) : list N :=
  match st with
  | [a; b; c; d; e; f; g; h] =>
    let t1 := add32 (add32 (add32 h (Sigma1 e)) (add32 (Ch e f g) (fst kw))) (snd kw) in
    let t2 := add32 (Sigma0 a) (Maj a b c) in
    [add32 t1 t2; a; b; c; add32 d t1; e; f; g]
  | _ => st
  end.

Definition compress (h : list N) (block : list N) : list N :=
  let w := rev (schedule 48 (rev block)) in
  let st := fold_left round (combine K w) h in
  List.map (fun p => add32 (fst p) (snd p)) (combine h st).

Definition digest (msg : list N) : list N :=
  let ws := words (length msg + 64) (pad msg) in
  fold_left compress (blocks (length ws) ws) H0.

Definition hex_word (w : N) : string :=
  string_of_list_ascii
    (List.map (fun i => Json.hex_char (N.land (N.shiftr w (4 * N.of_nat i)) 0xf)) (rev (seq 0 8))).

(** [hashlib.sha256(s.encode()).hexdigest()] *)
Definition hexdigest (s : string) : string :=
  let msg := List.map N_of_ascii (list_ascii_of_string s) in
  fold_right (fun w acc => hex_word w +:+ acc) EmptyString (digest msg).

End Sha256.

(* ================================================================== *)
(** * database.py *)
(* ================================================================== *)

(** A row of [audit_log], column by column ([row[0]] to [row[13]]).  Every
    column but [id] has TEXT affinity; [timestamp], [event_type] and [hash]
    are NOT NULL. *)
Record audit_row : Type := {
  row_id : Z;
  row_timestamp : string;
  row_event_type : string;
  row_original_text : option string;
  row_redacted_text : option string;
  row_pii_detected : option string;
  row_policy_violations : option string;
  row_action_taken : option string;
  row_user_id : option string;
  row_session_id : option string;
  row_metadata : option string;
  row_hash : string;
  row_prev_hash : option string;
  row_created_at : option string
}.

(** The counters of a row of [statistics]; the table is keyed by [date]
    (UNIQUE), so it is a map from the date. *)
Record stat_row : Type := {
  total_scans : Z;
  pii_detections : Z;
  policy_violations : Z;
  blocked_prompts : Z;
  unique_users : Z
}.

(** The committed content of the database file.  [audit_seq] is the
    AUTOINCREMENT counter of [audit_log]. *)
Record database : Type := {
  audit_log : list audit_row;
  audit_seq : Z;
  statistics : gmap string stat_row
}.

Definition empty_database : database :=
  {| audit_log := []; audit_seq := 0; statistics := ∅ |}.

(** What the operations read from the clock: [datetime.now().isoformat()],
    [datetime.now().date().isoformat()] and SQLite's CURRENT_TIMESTAMP. *)
Record clock : Type := {
  now_isoformat : string;
  today_isoformat : string;
  current_timestamp : string
}.

(** [d.get(key, default)] *)
Definition dict_get (d : gmap string value) (key : string) (dflt : value) : value :=
  default dflt (d !! key).

(** What [sqlite3] binds a Python value to, and what a TEXT column keeps
    of it. *)
Inductive sql_value : Type :=
| SqlNull
| SqlInteger (z : Z)
| SqlText (s : string).

Definition sql_bind (v : value) : result sql_value :=
  match v with
  | VNone => Ok SqlNull
  | VBool b => Ok (SqlInteger (if b then 1 else 0))
  | VInt z =>
    if (- 2 ^ 63 <=? z) && (z <? 2 ^ 63) then Ok (SqlInteger z)
    else Raise "OverflowError"
  | VStr s => Ok (SqlText s)
  | VList _ | VDict _ => Raise "sqlite3.ProgrammingError"
  end.

Definition text_affinity (v : sql_value) : option string :=
  match v with
  | SqlNull => None
  | SqlInteger z => Some (Json.dumps_int z)
  | SqlText s => Some s
  end.

(** A parameter bound to a TEXT column. *)
Definition text_column (v : value) : result (option string) :=
  s ← sql_bind v; Ok (text_affinity s).

Definition not_null (column : option string) : result string :=
  match column with
  | Some s => Ok s
  | None => Raise "sqlite3.IntegrityError"
  end.

(** A column read back from a row. *)
Definition column_value (column : option string) : value :=
  match column with
  | Some s => VStr s
  | None => VNone
  end.

Definition calculate_hash (data : gmap string value) (prev_hash : string) : string :=
  let hash_data :=
    VDict [ ("timestamp", dict_get data "timestamp" VNone);
            ("event_type", dict_get data "event_type" VNone);
            ("original_text", dict_get data "original_text" VNone);
            ("action_taken", dict_get data "action_taken" VNone);
            ("prev_hash", VStr prev_hash) ] in
  let hash_string := Json.dumps (Json.sort_keys hash_data) in
  Sha256.hexdigest hash_string.

(** [ORDER BY id] *)
Definition order_by_id (rows : list audit_row) : list audit_row :=
  stable_sort (fun a b => row_id a <=? row_id b) rows.

(** [SELECT hash FROM audit_log ORDER BY id DESC LIMIT 1] *)
Definition select_last_hash (db : database) : option string :=
  option_map row_hash (last (order_by_id (audit_log db))).

(** The id AUTOINCREMENT gives the next row: one more than the largest id
    the table holds or has ever held. *)
Definition next_id (db : database) : Z :=
  fold_left Z.max (List.map row_id (audit_log db)) (audit_seq db) + 1.

(** [len(v)] *)
Definition py_len (v : value) : result Z :=
  match v with
  | VStr s => Ok (len s)
  | VList l => Ok (Z.of_nat (length l))
  | VDict d => Ok (Z.of_nat (length d))
  | _ => Raise "TypeError"
  end.

(** [v == 'blocked'] *)
Definition is_blocked (v : value) : bool :=
  match v with
  | VStr s => String.eqb s "blocked"
  | _ => false
  end.

(** The answer of the storage to a write on one connection while another
    connection has a write of its own that is not committed yet.  SQLite
    admits one writer: the second write waits for the busy timeout of its
    connection and then fails, which [sqlite3] raises as [OperationalError]
    (database is locked).  [many_writers] stands for a storage that lets
    the second write through. *)
Inductive writers : Type :=
| one_writer
| many_writers.

Definition sqlite : writers := one_writer.

(** A write on a connection, [pending_elsewhere] telling whether another
    connection holds an uncommitted write. *)
Definition write_lock (w : writers) (pending_elsewhere : bool) : result unit :=
  match w with
  | one_writer =>
    if pending_elsewhere then Raise "sqlite3.OperationalError" else Ok tt
  | many_writers => Ok tt
  end.

(** [_update_statistics] opens a connection of its own, reads the row of
    the day, writes it and commits: it maps the committed database to the
    committed database.  The arguments of the statement are computed before
    it is executed. *)
Definition _update_statistics (w : writers) (pending_elsewhere : bool) (clk : clock)
  (entry : gmap string value) (db : database) : result database :=
  let today := today_isoformat clk in
  let stats := statistics db !! today in
  n_pii ← py_len (dict_get entry "pii_detected" (VList []));
  n_violations ← py_len (dict_get entry "policy_violations" (VList []));
  let n_blocked := if is_blocked (dict_get entry "action_taken" VNone) then 1 else 0 in
  let updated :=
    match stats with
    | Some s =>
      {| total_scans := total_scans s + 1;
         pii_detections := pii_detections s + n_pii;
         policy_violations := policy_violations s + n_violations;
         blocked_prompts := blocked_prompts s + n_blocked;
         unique_users := unique_users s |}
    | None =>
      {| total_scans := 1;
         pii_detections := n_pii;
         policy_violations := n_violations;
         blocked_prompts := n_blocked;
         unique_users := 0 |}
    end in
  _ ← write_lock w pending_elsewhere;
  Ok {| audit_log := audit_log db;
        audit_seq := audit_seq db;
        statistics := <[today := updated]> (statistics db) |}.

(** The row that the INSERT of [add_audit_entry] writes. *)
Definition insert_row (clk : clock) (entry : gmap string value) (db : database)
  (entry_hash prev_hash : string) : result audit_row :=
  let pii_json := Json.dumps (dict_get entry "pii_detected" (VList [])) in
  let violations_json := Json.dumps (dict_get entry "policy_violations" (VList [])) in
  let metadata_json := Json.dumps (dict_get entry "metadata" (VDict [])) in
  c_timestamp ← text_column (dict_get entry "timestamp" (VStr (now_isoformat clk)));
  c_event_type ← text_column (dict_get entry "event_type" (VStr "scan"));
  c_original_text ← text_column (dict_get entry "original_text" VNone);
  c_redacted_text ← text_column (dict_get entry "redacted_text" VNone);
  c_action_taken ← text_column (dict_get entry "action_taken" (VStr "allowed"));
  c_user_id ← text_column (dict_get entry "user_id" VNone);
  c_session_id ← text_column (dict_get entry "session_id" VNone);
  timestamp ← not_null c_timestamp;
  event_type ← not_null c_event_type;
  Ok {| row_id := next_id db;
        row_timestamp := timestamp;
        row_event_type := event_type;
        row_original_text := c_original_text;
        row_redacted_text := c_redacted_text;
        row_pii_detected := Some pii_json;
        row_policy_violations := Some violations_json;
        row_action_taken := c_action_taken;
        row_user_id := c_user_id;
        row_session_id := c_session_id;
        row_metadata := Some metadata_json;
        row_hash := entry_hash;
        row_prev_hash := Some prev_hash;
        row_created_at := Some (current_timestamp clk) |}.

(** The outer connection's [commit]: the inserted row reaches the file. *)
Definition commit_insert (row : audit_row) (db : database) : database :=
  {| audit_log := audit_log db ++ [row];
     audit_seq := row_id row;
     statistics := statistics db |}.

(** [add_audit_entry]: the committed states in the order of the commits,
    and what the call returns.  The INSERT is executed on the connection of
    [add_audit_entry] and is still uncommitted when [_update_statistics]
    writes and commits on its own connection; an exception leaves the
    INSERT uncommitted, and it is rolled back with its connection. *)
Definition add_audit_entry (w : writers) (clk : clock) (entry : gmap string value)
  (db : database) : list database * result string :=
  let prev_hash := default "genesis" (select_last_hash db) in
  let entry_hash := calculate_hash entry prev_hash in
  match insert_row clk entry db entry_hash prev_hash with
  | Raise e => ([], Raise e)
  | Ok row =>
    match _update_statistics w true clk entry db with
    | Raise e => ([], Raise e)
    | Ok db_stats => ([db_stats; commit_insert row db_stats], Ok entry_hash)
    end
  end.

(** The database after a call: the last committed state. *)
Definition committed (db : database) (commits : list database) : database :=
  List.last commits db.

(** The ledger's [append]: the state after the call and its result. *)
Definition append_entry (w : writers) (clk : clock) (entry : gmap string value)
  (db : database) : database * result string :=
  let r := add_audit_entry w clk entry db in
  (committed db (fst r), snd r).

(** A run of appends that all succeed, each with its own clock reading:
    the database they leave. *)
Fixpoint appended (w : writers) (db : database) (calls : list (clock * gmap string value))
  : option database :=
  match calls with
  | [] => Some db
  | call :: rest =>
    match append_entry w (fst call) (snd call) db with
    | (db', Ok _) => appended w db' rest
    | (_, Raise _) => None
    end
  end.

Record invalid_entry : Type := {
  inv_id : Z;
  inv_expected_hash : string;
  inv_actual_hash : string
}.

Record verification : Type := {
  valid : bool;
  entries_checked : Z;
  invalid_entries : list invalid_entry;
  message : string
}.

(** [SELECT * FROM audit_log ORDER BY id], with [LIMIT] when the argument is
    neither [None] nor zero; a negative LIMIT does not bound the result. *)
Definition select_ordered (limit : option Z) (db : database) : list audit_row :=
  let rows := order_by_id (audit_log db) in
  match limit with
  | Some n => if n =? 0 then rows else if n <? 0 then rows else firstn (Z.to_nat n) rows
  | None => rows
  end.

(** The fields the verifier reads back from a row. *)
Definition entry_data (row : audit_row) : gmap string value :=
  list_to_map
    [ ("timestamp", VStr (row_timestamp row));
      ("event_type", VStr (row_event_type row));
      ("original_text", column_value (row_original_text row));
      ("action_taken", column_value (row_action_taken row)) ].

(** The loop of [verify_hash_chain]: [valid], [invalid_entries] and
    [prev_hash] after one more row. *)
Definition verify_step (st : bool * list invalid_entry * string) (row : audit_row)
  : bool * list invalid_entry * string :=
  let '(valid, invalid_entries, prev_hash) := st in
  let expected_hash := calculate_hash (entry_data row) prev_hash in
  let actual_hash := row_hash row in
  if negb (String.eqb expected_hash actual_hash)
  then (false,
        invalid_entries ++ [ {| inv_id := row_id row;
                                inv_expected_hash := expected_hash;
                                inv_actual_hash := actual_hash |} ],
        actual_hash)
  else (valid, invalid_entries, actual_hash).

Definition verify_hash_chain (limit : option Z) (db : database) : verification :=
  let rows := select_ordered limit db in
  let '(valid, invalid_entries, _) := fold_left verify_step rows (true, [], "genesis") in
  {| valid := valid;
     entries_checked := Z.of_nat (length rows);
     invalid_entries := invalid_entries;
     message :=
       if valid then "Hash chain is intact"
       else "Found " +:+ Json.dumps_int (Z.of_nat (length invalid_entries)) +:+ " invalid entries" |}.

(* ================================================================== *)
(** * Summaries ([get_pii_summary], [get_policy_summary]) *)
(* ================================================================== *)

(** [d[key] = d.get(key, 0) + 1] on an insertion-ordered dictionary of
    counters. *)
Fixpoint count_incr (key : string) (d : list (string * Z)) : list (string * Z) :=
  match d with
  | [] => [(key, 1)]
  | (k, n) :: r => if String.eqb key k then (k, n + 1) :: r else (k, n) :: count_incr key r
  end.

(** [d[key] += 1], a [KeyError] when the key is missing. *)
Fixpoint count_incr_strict (key : string) (d : list (string * Z)) : result (list (string * Z)) :=
  match d with
  | [] => Raise "KeyError"
  | (k, n) :: r =>
    if String.eqb key k then Ok ((k, n + 1) :: r)
    else (r' ← count_incr_strict key r; Ok ((k, n) :: r'))
  end.

(** Adding to a collection of distinct strings (a [set], or a list guarded
    by [not in]); the order in which a [set] is listed is not fixed by
    Python, here it is the order of first occurrence. *)
Definition add_unique (s : string) (l : list string) : list string :=
  if existsb (String.eqb s) l then l else l ++ [s].

Definition counters_value (d : list (string * Z)) : value :=
  VDict (List.map (fun kn => (fst kn, VInt (snd kn))) d).

Definition severity_counters : list (string * Z) :=
  [("critical", 0); ("high", 0); ("medium", 0); ("low", 0)].

Definition get_pii_summary (matches : list PIIMatch) : result value :=
  by_severity ←
    fold_left
      (fun acc m => d ← acc; count_incr_strict (m_severity m) d)
      matches (Ok severity_counters);
  let by_type := fold_left (fun d m => count_incr (m_type m) d) matches [] in
  let unique_types := fold_left (fun l m => add_unique (m_name m) l) matches [] in
  Ok (VDict [ ("total_count", VInt (Z.of_nat (length matches)));
              ("by_type", counters_value by_type);
              ("by_severity", counters_value by_severity);
              ("unique_types", VList (List.map VStr unique_types)) ]).

Definition get_policy_summary (violations : list PolicyViolation) : result value :=
  by_severity ←
    fold_left
      (fun acc v => d ← acc; count_incr_strict (v_severity v) d)
      violations (Ok severity_counters);
  by_action ←
    fold_left
      (fun acc v => d ← acc; count_incr_strict (action_value (v_action v)) d)
      violations (Ok [("allow", 0); ("warn", 0); ("block", 0); ("redact", 0)]);
  let by_category := fold_left (fun d v => count_incr (v_category v) d) violations [] in
  let messages := fold_left (fun l v => add_unique (v_message v) l) violations [] in
  Ok (VDict [ ("total_violations", VInt (Z.of_nat (length violations)));
              ("should_block", VBool (should_block violations));
              ("by_category", counters_value by_category);
              ("by_severity", counters_value by_severity);
              ("by_action", counters_value by_action);
              ("messages", VList (List.map VStr messages)) ]).

(* ================================================================== *)
(** * server.py *)
(* ================================================================== *)

(** The server object: its database, its configuration dictionary and the
    session id drawn at start-up. *)
Record AIGovernanceMCP : Type := {
  db : database;
  config : gmap string value;
  session_id : string
}.

Definition _default_config : gmap string value :=
  list_to_map
    [ ("pii_detection_enabled", VBool true);
      ("policy_enforcement_enabled", VBool true);
      ("audit_logging_enabled", VBool true);
      ("auto_redact", VBool true);
      ("extended_patterns", VBool false);
      ("extended_policies", VBool false);
      ("redaction_style", VStr "[REDACTED]");
      ("max_prompt_length", VInt 10000);
      ("rate_limit", VDict [("enabled", VBool false); ("max_per_minute", VInt 60)]) ].

(** Truth of a value in a condition. *)
Definition truthy (v : value) : bool :=
  match v with
  | VNone => false
  | VBool b => b
  | VInt z => negb (z =? 0)
  | VStr s => negb (String.eqb s EmptyString)
  | VList l => negb (Nat.eqb (length l) 0)
  | VDict d => negb (Nat.eqb (length d) 0)
  end.

(** [n > v] for an integer [n]: against an integer or a boolean, a
    [TypeError] otherwise. *)
Definition int_gt (n : Z) (v : value) : result bool :=
  match v with
  | VInt m => Ok (m <? n)
  | VBool b => Ok ((if b then 1 else 0) <? n)
  | _ => Raise "TypeError"
  end.

(** The arguments of the [scan_prompt] tool, typed as its input schema
    declares them; an absent key is [None]. *)
Record scan_args : Type := {
  arg_prompt : option string;
  arg_auto_redact : option bool;
  arg_context : option (list (string * value))
}.

(** [context.get(key)] *)
Definition context_get (context : list (string * value)) (key : string) : value :=
  match List.find (fun kv => String.eqb (fst kv) key) context with
  | Some kv => snd kv
  | None => VNone
  end.

(** Lines 356 to 361: the action of a scan. *)
Definition scan_action (policy_violations : list PolicyViolation) : string :=
  if should_block policy_violations then "blocked"
  else match policy_violations with
       | _ :: _ => "warned"
       | [] => "allowed"
       end.

(** Lines 364 to 388: the response dictionary. *)
Definition scan_result (prompt redacted_prompt : string) (pii_matches : list PIIMatch)
  (policy_violations : list PolicyViolation) (action : string) : result value :=
  pii_summary ← get_pii_summary pii_matches;
  policy_summary ← get_policy_summary policy_violations;
  Ok (VDict
        [ ("original_prompt", VStr prompt);
          ("redacted_prompt",
           if negb (String.eqb action "blocked") then VStr redacted_prompt else VNone);
          ("pii_detected",
           VList (List.map
                    (fun m => VDict [ ("type", VStr (m_type m));
                                      ("name", VStr (m_name m));
                                      ("severity", VStr (m_severity m)) ])
                    pii_matches));
          ("policy_violations",
           VList (List.map
                    (fun v => VDict [ ("policy", VStr (v_policy_name v));
                                      ("category", VStr (v_category v));
                                      ("action", VStr (action_value (v_action v)));
                                      ("message", VStr (v_message v)) ])
                    policy_violations));
          ("action", VStr action);
          ("safe_to_send", VBool (negb (String.eqb action "blocked")));
          ("summaries", VDict [("pii", pii_summary); ("policy", policy_summary)]) ]).

(** [result[key]] *)
Definition value_get (v : value) (key : string) : value :=
  match v with
  | VDict d => context_get d key
  | _ => VNone
  end.

(** [result[key] = x] *)
Definition value_set (v : value) (key : string) (x : value) : value :=
  match v with
  | VDict d => VDict (dict_set key x d)
  | _ => v
  end.

(** The scan up to the response dictionary: no access to the database.
    Returns the response, the redacted prompt and the action. *)
Definition scan_response `{ReEngine} (cfg : gmap string value) (prompt : string)
  (auto_redact : value) : result (value * string * string) :=
  let pii_matches :=
    if truthy (dict_get cfg "pii_detection_enabled" (VBool true))
    then detect_pii prompt (truthy (dict_get cfg "extended_patterns" (VBool false)))
    else [] in
  let policy_violations :=
    if truthy (dict_get cfg "policy_enforcement_enabled" (VBool true))
    then check_policies prompt (truthy (dict_get cfg "extended_policies" (VBool false))) None
    else [] in
  redacted_prompt ←
    (if truthy auto_redact && negb (Nat.eqb (length pii_matches) 0)
     then match dict_get cfg "redaction_style" (VStr "[REDACTED]") with
          | VStr style => Ok (redact_pii prompt pii_matches style)
          | _ => Raise "TypeError"
          end
     else Ok prompt);
  let action := scan_action policy_violations in
  response ← scan_result prompt redacted_prompt pii_matches policy_violations action;
  Ok (response, redacted_prompt, action).

Definition _scan_prompt `{ReEngine} (w : writers) (self : AIGovernanceMCP) (clk : clock)
  (args : scan_args) : AIGovernanceMCP * result value :=
  let prompt := default EmptyString (arg_prompt args) in
  let auto_redact :=
    match arg_auto_redact args with
    | Some b => VBool b
    | None => dict_get (config self) "auto_redact" (VBool true)
    end in
  let context := default [] (arg_context args) in
  match int_gt (len prompt) (dict_get (config self) "max_prompt_length" (VInt 10000)) with
  | Raise e => (self, Raise e)
  | Ok true =>
    (self,
     Ok (VDict [ ("error", VStr "Prompt exceeds maximum length");
                 ("max_length", dict_get (config self) "max_prompt_length" VNone) ]))
  | Ok false =>
    match scan_response (config self) prompt auto_redact with
    | Raise e => (self, Raise e)
    | Ok (response, redacted_prompt, action) =>
      if truthy (dict_get (config self) "audit_logging_enabled" (VBool true)) then
        let audit_entry : gmap string value :=
          list_to_map
            [ ("timestamp", VStr (now_isoformat clk));
              ("event_type", VStr "scan");
              ("original_text", VStr prompt);
              ("redacted_text", VStr redacted_prompt);
              ("pii_detected", value_get response "pii_detected");
              ("policy_violations", value_get response "policy_violations");
              ("action_taken", VStr action);
              ("user_id", context_get context "user_id");
              ("session_id", VStr (session_id self));
              ("metadata", VDict context) ] in
        match append_entry w clk audit_entry (db self) with
        | (db', Ok entry_hash) =>
          ({| db := db'; config := config self; session_id := session_id self |},
           Ok (value_set response "audit_hash" (VStr entry_hash)))
        | (db', Raise e) =>
          ({| db := db'; config := config self; session_id := session_id self |}, Raise e)
        end
      else (self, Ok response)
    end
  end.

(** The answer of [_configure]; [configuration] is the server's own
    dictionary after the update. *)
Record configure_response : Type := {
  status : string;
  configuration : gmap string value
}.

(** The body of the loop over [args.items()]. *)
Definition configure_step (cfg : gmap string value) (kv : string * value)
  : gmap string value :=
  if decide (is_Some (cfg !! fst kv)) then <[fst kv := snd kv]> cfg else cfg.

Definition _configure (self : AIGovernanceMCP) (args : list (string * value))
  : AIGovernanceMCP * configure_response :=
  let cfg := fold_left configure_step args (config self) in
  ({| db := db self; config := cfg; session_id := session_id self |},
   {| status := "updated"; configuration := cfg |}).

(* ================================================================== *)
(** * The specification's notions *)
(* ================================================================== *)

(** ** The Luhn checksum, as the specification words it *)

(** A doubled digit, less nine when it exceeds nine. *)
Definition luhn_double (d : Z) : Z :=
  if 2 * d >? 9 then 2 * d - 9 else 2 * d.

(** The sum over the digits read from the rightmost end: every second
    digit is doubled. *)
Fixpoint luhn_sum (from_right : list Z) : Z :=
  match from_right with
  | [] => 0
  | [d] => d
  | d0 :: d1 :: r => d0 + luhn_double d1 + luhn_sum r
  end.

(** The same sum when the first digit of the list is one to double. *)
Definition luhn_sum_shifted (from_right : list Z) : Z :=
  match from_right with
  | [] => 0
  | d :: r => luhn_double d + luhn_sum r
  end.

(** The digits of a digit string, rightmost first. *)
Definition digits_from_right (digits : string) : list Z :=
  List.map int_of_digit (rev (list_ascii_of_string digits)).

(** A digit string is valid when its total is divisible by ten. *)
Definition luhn_valid (digits : string) : Prop :=
  digits <> EmptyString /\ str_forall is_digit digits = true
  /\ luhn_sum (digits_from_right digits) mod 10 = 0.

(** ** Findings *)

(** What [re.finditer] promises of its result: the matches in the order
    found, scanning left to right, each starting where an earlier one has
    ended or later. *)
Definition finditer_ordered (ms : list re_match) : Prop :=
  ForallOrdPairs (fun a b => (match_end a <= match_start b)%nat) ms.

(** Two findings that share no position of the text. *)
Definition disjoint (a b : PIIMatch) : Prop :=
  m_end a <= m_start b \/ m_end b <= m_start a.

Definition same_type_disjoint (a b : PIIMatch) : Prop :=
  m_type a = m_type b -> disjoint a b.

Definition by_start (a b : PIIMatch) : Prop := m_start a <= m_start b.

(** ** The ledger *)

(** A stored field that is text. *)
Definition is_text (v : option value) : bool :=
  match v with
  | Some (VStr _) => true
  | _ => false
  end.

(** A stored field that is text, [None], or left out. *)
Definition is_text_or_none (v : option value) : bool :=
  match v with
  | Some (VStr _) | Some VNone | None => true
  | _ => false
  end.

(** An entry that carries the hashed fields the way they are stored:
    [timestamp], [event_type] and [action_taken] present, the first two as
    text. *)
Definition hashed_fields_stored (entry : gmap string value) : bool :=
  is_text (entry !! "timestamp")
  && is_text (entry !! "event_type")
  && is_text_or_none (entry !! "original_text")
  && match entry !! "action_taken" with
     | Some (VStr _) | Some VNone => true
     | _ => false
     end.

(** The columns of a row that the verifier reads. *)
Definition verified_columns (r : audit_row)
  : Z * string * string * option string * option string * string :=
  (row_id r, row_timestamp r, row_event_type r, row_original_text r,
   row_action_taken r, row_hash r).

(** The hash that stands before position [k]: the genesis sentinel, or the
    stored hash of the row before. *)
Definition hash_before (rows : list audit_row) (k : nat) : string :=
  match k with
  | O => "genesis"
  | S j => default "genesis" (row_hash <$> rows !! j)
  end.

(** Each stored hash is the hash of the row's own fields and of the stored
    hash before it. *)
Fixpoint chain_from (prev : string) (rows : list audit_row) : Prop :=
  match rows with
  | [] => True
  | r :: rest =>
    row_hash r = calculate_hash (entry_data r) prev /\ chain_from (row_hash r) rest
  end.

(** Each stored previous hash is the stored hash of the row before. *)
Fixpoint linked_from (prev : string) (rows : list audit_row) : Prop :=
  match rows with
  | [] => True
  | r :: rest => row_prev_hash r = Some prev /\ linked_from (row_hash r) rest
  end.

(** Overwriting the stored row at position [k]. *)
Definition store_row (k : nat) (r : audit_row) (d : database) : database :=
  {| audit_log := <[k := r]> (audit_log d);
     audit_seq := audit_seq d;
     statistics := statistics d |}.

Definition with_redacted_text (x : option string) (r : audit_row) : audit_row :=
  {| row_id := row_id r;
     row_timestamp := row_timestamp r;
     row_event_type := row_event_type r;
     row_original_text := row_original_text r;
     row_redacted_text := x;
     row_pii_detected := row_pii_detected r;
     row_policy_violations := row_policy_violations r;
     row_action_taken := row_action_taken r;
     row_user_id := row_user_id r;
     row_session_id := row_session_id r;
     row_metadata := row_metadata r;
     row_hash := row_hash r;
     row_prev_hash := row_prev_hash r;
     row_created_at := row_created_at r |}.

Definition with_original_text (x : option string) (r : audit_row) : audit_row :=
  {| row_id := row_id r;
     row_timestamp := row_timestamp r;
     row_event_type := row_event_type r;
     row_original_text := x;
     row_redacted_text := row_redacted_text r;
     row_pii_detected := row_pii_detected r;
     row_policy_violations := row_policy_violations r;
     row_action_taken := row_action_taken r;
     row_user_id := row_user_id r;
     row_session_id := row_session_id r;
     row_metadata := row_metadata r;
     row_hash := row_hash r;
     row_prev_hash := row_prev_hash r;
     row_created_at := row_created_at r |}.


(* ================================================================== *)
(** * Worked inputs *)
(* ================================================================== *)

Definition medication_text : string := "What medication should I take?".
Definition email_ssn_text : string := "My email is john@example.com and SSN is 123-45-6789".

(** What [re] answers on the two texts above: no pattern of the tables
    occurs in the first as a finding, the second holds one SSN and one
    e-mail address; two of the medical patterns are found in the first. *)
Definition worked_finditer (pattern text : string) : list re_match :=
  if String.eqb text email_ssn_text then
    if String.eqb pattern "\b\d{3}-\d{2}-\d{4}\b" then
      [ {| match_start := 40; match_end := 51; match_groups := [] |} ]
    else if String.eqb pattern "\b[a-zA-Z0-9._%+-]+@[a-zA-Z0-9.-]+\.[a-zA-Z]{2,}\b" then
      [ {| match_start := 12; match_end := 28; match_groups := [] |} ]
    else []
  else [].

Definition worked_search (pattern text : string) : bool :=
  String.eqb text medication_text
  && (String.eqb pattern "\b(?:what|which) (?:medication|medicine|drug)s?\b"
      || String.eqb pattern "\b(?:should i|do i need to) (?:take|see a doctor)\b").

Definition worked_engine : ReEngine :=
  {| re_finditer := worked_finditer; re_search := worked_search |}.

Definition worked_clock : clock :=
  {| now_isoformat := "2024-01-02T10:00:00.000001";
     today_isoformat := "2024-01-02";
     current_timestamp := "2024-01-02 09:00:00" |}.

Definition fresh_server : AIGovernanceMCP :=
  {| db := empty_database;
     config := _default_config;
     session_id := "session_20240102_100000_0a1b2c3d" |}.

(** The same server with audit logging switched off. *)
Definition quiet_server : AIGovernanceMCP :=
  {| db := empty_database;
     config := <["audit_logging_enabled" := VBool false]> _default_config;
     session_id := "session_20240102_100000_0a1b2c3d" |}.

Definition medication_args : scan_args :=
  {| arg_prompt := Some medication_text; arg_auto_redact := Some true; arg_context := None |}.

(** The entry of the repository's own database test. *)
Definition test_entry : gmap string value :=
  list_to_map
    [ ("timestamp", VStr "2024-01-01T12:00:00");
      ("event_type", VStr "test");
      ("original_text", VStr "Test entry");
      ("redacted_text", VStr "Test entry");
      ("pii_detected", VList []);
      ("policy_violations", VList []);
      ("action_taken", VStr "allowed") ].

(** An entry that leaves [action_taken] to its default. *)
Definition entry_without_action : gmap string value :=
  list_to_map
    [ ("timestamp", VStr "2024-01-01T12:00:00");
      ("event_type", VStr "scan");
      ("original_text", VStr "hello") ].

(** The finding of the repository's own redaction test: the SSN in
    [SSN: 123-45-6789]. *)
Definition ssn_match : PIIMatch :=
  {| m_type := "ssn"; m_name := "Social Security Number"; m_value := Some "123-45-6789";
     m_start := 5; m_end := 16; m_severity := "high" |}.

(** A finding one character wide. *)
Definition one_char_match : PIIMatch :=
  {| m_type := "ssn"; m_name := "Social Security Number"; m_value := Some "1";
     m_start := 1; m_end := 2; m_severity := "high" |}.

(** ** Ledgers in order *)

(** The last stored hash of a run of rows, or the hash before them. *)
Definition last_hash (prev : string) (rows : list audit_row) : string :=
  default prev (row_hash <$> last rows).

(** The ledger as appends leave it: ids increase, and every row is
    chained and linked to the row before. *)
Definition ledger_ok (d : database) : Prop :=
  StronglySorted (fun a b => row_id a < row_id b) (audit_log d)
  /\ chain_from "genesis" (audit_log d)
  /\ linked_from "genesis" (audit_log d).




Definition with_hash (x : string) (r : audit_row) : audit_row :=
  {| row_id := row_id r;
     row_timestamp := row_timestamp r;
     row_event_type := row_event_type r;
     row_original_text := row_original_text r;
     row_redacted_text := row_redacted_text r;
     row_pii_detected := row_pii_detected r;
     row_policy_violations := row_policy_violations r;
     row_action_taken := row_action_taken r;
     row_user_id := row_user_id r;
     row_session_id := row_session_id r;
     row_metadata := row_metadata r;
     row_hash := x;
     row_prev_hash := row_prev_hash r;
     row_created_at := row_created_at r |}.

(** Two appends of the test entry where the statistics are admitted, the
    ledger they leave and its first row. *)
Definition two_test_entries : list (clock * gmap string value) :=
  [(worked_clock, test_entry); (worked_clock, test_entry)].

Definition worked_ledger : database :=
  default empty_database (appended many_writers empty_database two_test_entries).

Definition worked_row : audit_row :=
  {| row_id := 1;
     row_timestamp := "2024-01-01T12:00:00";
     row_event_type := "test";
     row_original_text := Some "Test entry";
     row_redacted_text := Some "Test entry";
     row_pii_detected := Some "[]";
     row_policy_violations := Some "[]";
     row_action_taken := Some "allowed";
     row_user_id := None;
     row_session_id := None;
     row_metadata := Some "{}";
     row_hash := "2deeb99f0deb14950e56ff05fc815ec9633977df0b2a73e266744caf92c2fd0e";
     row_prev_hash := Some "genesis";
     row_created_at := Some "2024-01-02 09:00:00" |}.


(** A prompt one character longer than the default maximum. *)
Definition long_prompt_args : scan_args :=
  {| arg_prompt := Some (str_repeat "a" (Z.to_nat 10001));
     arg_auto_redact := None;
     arg_context := None |}.


(** The response to the scan of the medication scenario. *)
Definition medication_response : value :=
  match snd (@_scan_prompt worked_engine sqlite quiet_server worked_clock medication_args) with
  | Ok r => r
  | Raise _ => VNone
  end.


(* ================================================================== *)
(** * policies.py: [apply_policy_actions] *)
(* ================================================================== *)

(** [s.replace(old, new)] for a non-empty [old]: the occurrences are taken
    from the left and do not overlap; [skip] counts the characters of an
    occurrence still to pass over. *)
Fixpoint replace_from (skip : nat) (old new s : string) : string :=
  match s with
  | EmptyString => EmptyString
  | String c r =>
    match skip with
    | S k => replace_from k old new r
    | O =>
      if String.prefix old s
      then new +:+ replace_from (String.length old - 1) old new r
      else String c (replace_from 0 old new r)
    end
  end.

(** With an empty [old], [new] goes before every character and at the
    end. *)
Fixpoint replace_between (new s : string) : string :=
  match s with
  | EmptyString => new
  | String c r => new +:+ String c (replace_between new r)
  end.

Definition str_replace (old new s : string) : string :=
  match old with
  | EmptyString => replace_between new s
  | _ => replace_from 0 old new s
  end.

(** [re.sub] with [re.IGNORECASE] and a replacement that holds no
    backslash: [re_error] tells the patterns that do not compile. *)
Class ReSubEngine : Type := {
  re_error : string -> bool;
  re_sub : string -> string -> string -> string
}.

(** [re.sub(pattern, repl, string, flags=re.IGNORECASE)] on the processed
    text, which is [None] once a violation has blocked: the pattern is
    compiled before the text is looked at. *)
Definition sub_processed `{ReSubEngine} (pattern repl : string) (processed : option string)
  : result string :=
  if re_error pattern then Raise "re.error"
  else match processed with
       | Some s => Ok (re_sub pattern repl s)
       | None => Raise "TypeError"
       end.

(** [processed.replace(old, new)] *)
Definition replace_processed (old new : string) (processed : option string) : result string :=
  match processed with
  | Some s => Ok (str_replace old new s)
  | None => Raise "AttributeError"
  end.

(** The dictionary that [apply_policy_actions] builds. *)
Record policy_actions : Type := {
  pa_original_text : string;
  pa_processed_text : option string;
  pa_blocked : bool;
  pa_warnings : list string;
  pa_applied_actions : list string
}.

(** One turn of the loop over the violations. *)
Definition apply_policy_action `{ReSubEngine} (res : policy_actions)
  (violation : PolicyViolation) : result policy_actions :=
  match v_action violation with
  | BLOCK =>
    Ok {| pa_original_text := pa_original_text res;
          pa_processed_text := None;
          pa_blocked := true;
          pa_warnings := pa_warnings res;
          pa_applied_actions :=
            pa_applied_actions res ++ ["BLOCKED: " +:+ v_message violation] |}
  | WARN =>
    Ok {| pa_original_text := pa_original_text res;
          pa_processed_text := pa_processed_text res;
          pa_blocked := pa_blocked res;
          pa_warnings := pa_warnings res ++ [v_message violation];
          pa_applied_actions :=
            pa_applied_actions res ++ ["WARNING: " +:+ v_message violation] |}
  | REDACT =>
    processed ←
      (if negb (String.eqb (v_matched_keyword violation) EmptyString)
          && String.prefix "pattern:" (v_matched_keyword violation)
       then
         let pattern := str_replace "pattern: " EmptyString (v_matched_keyword violation) in
         sub_processed pattern "[POLICY-REDACTED]" (pa_processed_text res)
       else
         replace_processed (v_matched_keyword violation) "[POLICY-REDACTED]"
           (pa_processed_text res));
    Ok {| pa_original_text := pa_original_text res;
          pa_processed_text := Some processed;
          pa_blocked := pa_blocked res;
          pa_warnings := pa_warnings res;
          pa_applied_actions :=
            pa_applied_actions res ++ ["REDACTED: " +:+ v_matched_keyword violation] |}
  | ALLOW => Ok res
  end.

Definition apply_policy_actions `{ReSubEngine} (text : string)
  (violations : list PolicyViolation) : result policy_actions :=
  fold_left (fun acc violation => r ← acc; apply_policy_action r violation) violations
    (Ok {| pa_original_text := text;
           pa_processed_text := Some text;
           pa_blocked := false;
           pa_warnings := [];
           pa_applied_actions := [] |}).

(* ================================================================== *)
(** * database.py: reading, exporting and cleaning up *)
(* ================================================================== *)

(** What the operations read from [datetime]: the isoformat of
    [datetime.now().date()], of that date less [timedelta(days=n)], and of
    [datetime.now()] less [timedelta(days=n)].  The subtractions raise
    [OverflowError] when they leave the range of dates. *)
Record calendar : Type := {
  cal_today : string;
  cal_days_before_today : Z -> result string;
  cal_days_before_now : Z -> result string
}.

(** [DELETE FROM audit_log WHERE timestamp < ?]: the comparison is that of
    TEXT values, character by character. *)
Definition cleanup_old_logs (cal : calendar) (days_to_keep : Z) (db : database)
  : database * result Z :=
  match cal_days_before_now cal days_to_keep with
  | Raise e => (db, Raise e)
  | Ok cutoff_date =>
    let old := fun row => String.ltb (row_timestamp row) cutoff_date in
    let deleted := List.filter old (audit_log db) in
    ({| audit_log := List.filter (fun row => negb (old row)) (audit_log db);
        audit_seq := audit_seq db;
        statistics := statistics db |},
     Ok (Z.of_nat (length deleted)))
  end.

Definition newline : string := String "010" EmptyString.

(** ['\n' + ' ' * (indent * level)] *)
Definition newline_indent (indent level : nat) : string :=
  newline +:+ str_repeat " " (indent * level).

(** [json.dumps(v, indent=indent)] at nesting depth [level]: an empty list
    or dictionary stays on one line, the items of any other stand on lines
    of their own, separated by a comma. *)
Fixpoint dumps_indent (indent level : nat) (v : value) : string :=
  match v with
  | VList [] => "[]"
  | VList l =>
    "[" +:+ newline_indent indent (S level)
    +:+ Json.join ("," +:+ newline_indent indent (S level))
          (List.map (dumps_indent indent (S level)) l)
    +:+ newline_indent indent level +:+ "]"
  | VDict [] => "{}"
  | VDict d =>
    "{" +:+ newline_indent indent (S level)
    +:+ Json.join ("," +:+ newline_indent indent (S level))
          (List.map
             (fun kv => Json.dumps_str (fst kv) +:+ ": " +:+ dumps_indent indent (S level) (snd kv))
             d)
    +:+ newline_indent indent level +:+ "}"
  | _ => Json.dumps v
  end.

(** [json.loads] is the environment's: a value, or [JSONDecodeError]. *)
Class JsonDecoder : Type := {
  json_loads : string -> result value
}.

(** [json.loads(column)]: a column that is NULL reads as [None], which
    [json.loads] refuses. *)
Definition loads_column `{JsonDecoder} (column : option string) : result value :=
  match column with
  | Some s => json_loads s
  | None => Raise "TypeError"
  end.

(** A comparison of a TEXT column with a bound parameter, which takes the
    affinity of the column; NULL on either side fails the condition. *)
Definition sql_compare (op : string -> string -> bool) (column param : option string) : bool :=
  match column, param with
  | Some c, Some p => op c p
  | _, _ => false
  end.

(** The parameter of a condition, when the filter names the key. *)
Definition filter_param (filters : gmap string value) (key : string)
  : result (option (option string)) :=
  match filters !! key with
  | Some v => p ← text_column v; Ok (Some p)
  | None => Ok None
  end.

(** A condition that is in the WHERE clause only when its key is given. *)
Definition condition (op : string -> string -> bool) (param : option (option string))
  (column : option string) : bool :=
  match param with
  | Some p => sql_compare op column p
  | None => true
  end.

(** An integer bound as a parameter. *)
Definition sql_int (z : Z) : result Z :=
  if (- 2 ^ 63 <=? z) && (z <? 2 ^ 63) then Ok z else Raise "OverflowError".

(** [LIMIT ? OFFSET ?]: a negative offset skips nothing, a negative limit
    does not bound the result. *)
Definition limit_offset {A : Type} (limit offset : Z) (rows : list A) : list A :=
  let rows := skipn (Z.to_nat offset) rows in
  if limit <? 0 then rows else firstn (Z.to_nat limit) rows.

(** [ORDER BY id DESC] *)
Definition order_by_id_desc (rows : list audit_row) : list audit_row :=
  stable_sort (fun a b => row_id b <=? row_id a) rows.

(** A log as [get_audit_logs] returns it: the row, with its three JSON
    columns parsed. *)
Record audit_log_entry : Type := {
  log_row : audit_row;
  log_pii_detected : value;
  log_policy_violations : value;
  log_metadata : value
}.

(** [dict(row)] with the three parsed values in place. *)
Definition log_value (log : audit_log_entry) : value :=
  let row := log_row log in
  VDict [ ("id", VInt (row_id row));
          ("timestamp", VStr (row_timestamp row));
          ("event_type", VStr (row_event_type row));
          ("original_text", column_value (row_original_text row));
          ("redacted_text", column_value (row_redacted_text row));
          ("pii_detected", log_pii_detected log);
          ("policy_violations", log_policy_violations log);
          ("action_taken", column_value (row_action_taken row));
          ("user_id", column_value (row_user_id row));
          ("session_id", column_value (row_session_id row));
          ("metadata", log_metadata log);
          ("hash", VStr (row_hash row));
          ("prev_hash", column_value (row_prev_hash row));
          ("created_at", column_value (row_created_at row)) ].

Definition parse_log `{JsonDecoder} (row : audit_row) : result audit_log_entry :=
  pii ← loads_column (row_pii_detected row);
  violations ← loads_column (row_policy_violations row);
  metadata ← loads_column (row_metadata row);
  Ok {| log_row := row;
        log_pii_detected := pii;
        log_policy_violations := violations;
        log_metadata := metadata |}.

(** The loop over the rows: the first column that does not parse ends
    it. *)
Fixpoint parse_logs `{JsonDecoder} (rows : list audit_row) : result (list audit_log_entry) :=
  match rows with
  | [] => Ok []
  | row :: rest =>
    log ← parse_log row;
    logs ← parse_logs rest;
    Ok (log :: logs)
  end.

(** The rows that the SELECT of [get_audit_logs] yields.  A filter that is
    [None] or empty is the empty map. *)
Definition select_logs (limit offset : Z) (filters : gmap string value) (db : database)
  : result (list audit_row) :=
  start_date ← filter_param filters "start_date";
  end_date ← filter_param filters "end_date";
  event_type ← filter_param filters "event_type";
  action_taken ← filter_param filters "action_taken";
  limit ← sql_int limit;
  offset ← sql_int offset;
  let selected :=
    List.filter
      (fun row =>
         condition (fun c p => String.leb p c) start_date (Some (row_timestamp row))
         && condition String.leb end_date (Some (row_timestamp row))
         && condition String.eqb event_type (Some (row_event_type row))
         && condition String.eqb action_taken (row_action_taken row))
      (audit_log db) in
  Ok (limit_offset limit offset (order_by_id_desc selected)).

Definition get_audit_logs `{JsonDecoder} (limit offset : Z) (filters : gmap string value)
  (db : database) : result (list audit_log_entry) :=
  rows ← select_logs limit offset filters db;
  parse_logs rows.

(** [date >= ? AND date <= ?], on text. *)
Definition in_window (start_date end_date date : string) : bool :=
  String.leb start_date date && String.leb date end_date.

(** [SUM(column)]: NULL when there is no row. *)
Definition sql_sum (xs : list Z) : option Z :=
  match xs with
  | [] => None
  | _ => Some (fold_right Z.add 0 xs)
  end.

(** [x or 0] *)
Definition or_zero (x : option Z) : Z := default 0 x.

Definition day_value (day : string * stat_row) : value :=
  VDict [ ("date", VStr (fst day));
          ("scans", VInt (total_scans (snd day)));
          ("pii", VInt (pii_detections (snd day)));
          ("violations", VInt (policy_violations (snd day)));
          ("blocked", VInt (blocked_prompts (snd day))) ].

Definition get_statistics (cal : calendar) (days : Z) (db : database) : result value :=
  let end_date := cal_today cal in
  start_date ← cal_days_before_today cal (days - 1);
  let rows :=
    List.filter (fun day => in_window start_date end_date (fst day))
      (map_to_list (statistics db)) in
  let daily := stable_sort (fun a b => String.leb (fst b) (fst a)) rows in
  Ok (VDict
        [ ("summary",
           VDict
             [ ("total_scans",
                VInt (or_zero (sql_sum (List.map (fun day => total_scans (snd day)) rows))));
               ("total_pii_detections",
                VInt (or_zero (sql_sum (List.map (fun day => pii_detections (snd day)) rows))));
               ("total_policy_violations",
                VInt (or_zero (sql_sum (List.map (fun day => policy_violations (snd day)) rows))));
               ("total_blocked",
                VInt (or_zero (sql_sum (List.map (fun day => blocked_prompts (snd day)) rows))));
               ("days_active", VInt (Z.of_nat (length rows))) ]);
          ("daily_breakdown", VList (List.map day_value daily));
          ("period", VStr ("Last " +:+ Json.dumps_int days +:+ " days")) ]).

Fixpoint str_exists (p : ascii -> bool) (s : string) : bool :=
  match s with
  | EmptyString => false
  | String c r => p c || str_exists p r
  end.

(** The characters that make [csv.writer] quote a field: the delimiter,
    the quote and the two characters of the line terminator. *)
Definition csv_special (c : ascii) : bool :=
  ((ord c =? 44) || (ord c =? 34) || (ord c =? 13) || (ord c =? 10))%N.

(** A quote inside a quoted field is doubled. *)
Fixpoint csv_double_quotes (s : string) : string :=
  match s with
  | EmptyString => EmptyString
  | String c r =>
    if (ord c =? 34)%N then String c (String c (csv_double_quotes r))
    else String c (csv_double_quotes r)
  end.

Definition csv_field (s : string) : string :=
  if str_exists csv_special s then dquote +:+ csv_double_quotes s +:+ dquote else s.

(** [writer.writerow] for a row of two fields or more. *)
Definition csv_writerow (fields : list string) : string :=
  Json.join "," (List.map csv_field fields) +:+ String "013" newline.

Definition csv_fieldnames : list string :=
  ["id"; "timestamp"; "event_type"; "action_taken"; "pii_count"; "violation_count"; "hash"].

(** The row written for one log; [None] is written as the empty field. *)
Definition csv_log_row (log : audit_log_entry) : result string :=
  pii_count ← py_len (log_pii_detected log);
  violation_count ← py_len (log_policy_violations log);
  Ok (csv_writerow
        [ Json.dumps_int (row_id (log_row log));
          row_timestamp (log_row log);
          row_event_type (log_row log);
          default EmptyString (row_action_taken (log_row log));
          Json.dumps_int pii_count;
          Json.dumps_int violation_count;
          row_hash (log_row log) ]).

Fixpoint csv_log_rows (logs : list audit_log_entry) : result string :=
  match logs with
  | [] => Ok EmptyString
  | log :: rest =>
    line ← csv_log_row log;
    lines ← csv_log_rows rest;
    Ok (line +:+ lines)
  end.

Definition export_logs `{JsonDecoder} (format : string) (filters : gmap string value)
  (db : database) : result string :=
  logs ← get_audit_logs 10000 0 filters db;
  if String.eqb format "json" then
    Ok (dumps_indent 2 0 (VList (List.map log_value logs)))
  else if String.eqb format "csv" then
    match logs with
    | [] => Ok EmptyString
    | _ => lines ← csv_log_rows logs; Ok (csv_writerow csv_fieldnames +:+ lines)
    end
  else Raise "ValueError".

(* ================================================================== *)
(** * server.py: the other handlers and the dispatcher *)
(* ================================================================== *)

Definition _check_compliance `{ReEngine} (self : AIGovernanceMCP) (arg_text : option string)
  : result value :=
  let text := default EmptyString arg_text in
  let pii_matches :=
    detect_pii text (truthy (dict_get (config self) "extended_patterns" (VBool false))) in
  let policy_violations :=
    check_policies text (truthy (dict_get (config self) "extended_policies" (VBool false)))
      None in
  let compliant :=
    Nat.eqb (length pii_matches) 0 && Nat.eqb (length policy_violations) 0 in
  pii_summary ← get_pii_summary pii_matches;
  policy_summary ← get_policy_summary policy_violations;
  Ok (VDict
        [ ("compliant", VBool compliant);
          ("issues", VDict [("pii", pii_summary); ("policy", policy_summary)]);
          ("recommendation",
           VStr (if compliant then "Safe to send" else "Review and remediate issues")) ]).

(** The arguments of the [redact_pii] tool. *)
Record redact_args : Type := {
  arg_text : option string;
  arg_style : option string
}.

(** [redact_pii] with a style of any type: a style that is not a string
    cannot be joined to the text, which shows when there is a finding. *)
Definition redact_with (text : string) (pii_matches : list PIIMatch) (style : value)
  : result string :=
  match pii_matches with
  | [] => Ok text
  | _ =>
    match style with
    | VStr s => Ok (redact_pii text pii_matches s)
    | _ => Raise "TypeError"
    end
  end.

(** [pii_types] is the listing of a [set]; as in the summaries it is given
    in the order of first occurrence. *)
Definition _redact_pii `{ReEngine} (self : AIGovernanceMCP) (args : redact_args)
  : result value :=
  let text := default EmptyString (arg_text args) in
  let style :=
    match arg_style args with
    | Some s => VStr s
    | None => dict_get (config self) "redaction_style" (VStr "[REDACTED]")
    end in
  let pii_matches :=
    detect_pii text (truthy (dict_get (config self) "extended_patterns" (VBool false))) in
  redacted ← redact_with text pii_matches style;
  Ok (VDict
        [ ("original", VStr text);
          ("redacted", VStr redacted);
          ("pii_found", VInt (Z.of_nat (length pii_matches)));
          ("pii_types",
           VList (List.map VStr
                    (fold_left (fun l m => add_unique (m_type m) l) pii_matches []))) ]).

Definition _get_statistics (self : AIGovernanceMCP) (cal : calendar) (arg_days : option Z)
  : result value :=
  let days := default 7 arg_days in
  get_statistics cal days (db self).

(** The arguments of the [export_audit_logs] tool. *)
Record export_args : Type := {
  arg_format : option string;
  arg_start_date : option value;
  arg_end_date : option value
}.

Definition _export_audit_logs `{JsonDecoder} (self : AIGovernanceMCP) (clk : clock)
  (args : export_args) : result value :=
  let format_type := default "json" (arg_format args) in
  let filters : gmap string value := ∅ in
  let filters :=
    match arg_start_date args with
    | Some v => <["start_date" := v]> filters
    | None => filters
    end in
  let filters :=
    match arg_end_date args with
    | Some v => <["end_date" := v]> filters
    | None => filters
    end in
  export_data ← export_logs format_type filters (db self);
  Ok (VDict [ ("format", VStr format_type);
              ("data", VStr export_data);
              ("exported_at", VStr (now_isoformat clk)) ]).

Definition invalid_entry_value (e : invalid_entry) : value :=
  VDict [ ("id", VInt (inv_id e));
          ("expected_hash", VStr (inv_expected_hash e));
          ("actual_hash", VStr (inv_actual_hash e)) ].

(** The dictionary that [verify_hash_chain] returns. *)
Definition verification_value (v : verification) : value :=
  VDict [ ("valid", VBool (valid v));
          ("entries_checked", VInt (entries_checked v));
          ("invalid_entries", VList (List.map invalid_entry_value (invalid_entries v)));
          ("message", VStr (message v)) ].

(** The argument of the [verify_integrity] tool is an integer, or is left
    out. *)
Definition _verify_integrity (self : AIGovernanceMCP) (arg_limit : option Z) : verification :=
  let limit := default 100 arg_limit in
  verify_hash_chain (Some limit) (db self).

(** [json.dumps(data, indent=2, sort_keys=True, default=str)] for data
    that is not a string. *)
Definition format_response (data : value) : string :=
  match data with
  | VStr s => s
  | _ => dumps_indent 2 0 (Json.sort_keys data)
  end.

(** A call of a tool: its name with its arguments, typed as the input
    schema of the tool declares them.  [call_unknown] carries a name that
    is none of the seven. *)
Inductive tool_call : Type :=
| call_scan_prompt (args : scan_args)
| call_check_compliance (text : option string)
| call_redact_pii (args : redact_args)
| call_get_statistics (days : option Z)
| call_export_audit_logs (args : export_args)
| call_verify_integrity (limit : option Z)
| call_configure (args : list (string * value))
| call_unknown (name : string).

Definition tool_name (call : tool_call) : string :=
  match call with
  | call_scan_prompt _ => "scan_prompt"
  | call_check_compliance _ => "check_compliance"
  | call_redact_pii _ => "redact_pii"
  | call_get_statistics _ => "get_statistics"
  | call_export_audit_logs _ => "export_audit_logs"
  | call_verify_integrity _ => "verify_integrity"
  | call_configure _ => "configure"
  | call_unknown name => name
  end.

(** What the dispatcher answers: the formatted result, or the error
    document, whose [error] is the message of the exception [error_of]. *)
Inductive tool_content : Type :=
| text_content (text : string)
| error_content (error_of tool timestamp : string).

(** The dictionary of [_configure], for [format_response]. *)
Definition configure_value (r : configure_response) : value :=
  VDict [ ("status", VStr (status r));
          ("configuration", VDict (map_to_list (configuration r))) ].

(** The body of the [try]: the server after the call and the result of
    the tool. *)
Definition call_tool `{ReEngine} `{JsonDecoder} (w : writers) (self : AIGovernanceMCP)
  (clk : clock) (cal : calendar) (call : tool_call) : AIGovernanceMCP * result value :=
  match call with
  | call_scan_prompt args => _scan_prompt w self clk args
  | call_check_compliance text => (self, _check_compliance self text)
  | call_redact_pii args => (self, _redact_pii self args)
  | call_get_statistics days => (self, _get_statistics self cal days)
  | call_export_audit_logs args => (self, _export_audit_logs self clk args)
  | call_verify_integrity limit => (self, Ok (verification_value (_verify_integrity self limit)))
  | call_configure args =>
    let (self', r) := _configure self args in (self', Ok (configure_value r))
  | call_unknown name => (self, Raise "ValueError")
  end.

Definition handle_call_tool `{ReEngine} `{JsonDecoder} (w : writers) (self : AIGovernanceMCP)
  (clk : clock) (cal : calendar) (call : tool_call) : AIGovernanceMCP * tool_content :=
  match call_tool w self clk cal call with
  | (self', Ok r) => (self', text_content (format_response r))
  | (self', Raise e) => (self', error_content e (tool_name call) (now_isoformat clk))
  end.

(** The table of patterns as [json.dumps] takes it. *)
Definition patterns_value (patterns : list (string * pattern_config)) : value :=
  VDict (List.map
           (fun entry =>
              (fst entry,
               VDict [ ("pattern", VStr (p_pattern (snd entry)));
                       ("name", VStr (p_name (snd entry)));
                       ("severity", VStr (p_severity (snd entry)));
                       ("description", VStr (p_description (snd entry))) ]))
           patterns).

(** The items of a rule up to its action, which is a [PolicyAction] and no
    JSON value: [json.dumps] raises [TypeError] when it comes to it. *)
Definition policy_value (config : policy_config) : result value :=
  match c_action config with
  | Some _ => Raise "TypeError"
  | None =>
    Ok (VDict
          (match c_category config with Some s => [("category", VStr s)] | None => [] end
           ++ match c_keywords config with
              | Some l => [("keywords", VList (List.map VStr l))]
              | None => []
              end
           ++ match c_regex_patterns config with
              | Some l => [("regex_patterns", VList (List.map VStr l))]
              | None => []
              end
           ++ match c_message config with Some s => [("message", VStr s)] | None => [] end
           ++ match c_severity config with Some s => [("severity", VStr s)] | None => [] end))
  end.

Fixpoint policies_value (policies : list (string * policy_config))
  : result (list (string * value)) :=
  match policies with
  | [] => Ok []
  | entry :: rest =>
    v ← policy_value (snd entry);
    vs ← policies_value rest;
    Ok ((fst entry, v) :: vs)
  end.

(** What a resource reads as: a JSON text, or, for the configuration, the
    JSON text of the server's dictionary, whose order of keys the map does
    not keep. *)
Inductive resource_content : Type :=
| json_text (text : string)
| json_of_config (cfg : gmap string value).

Definition handle_read_resource `{JsonDecoder} (self : AIGovernanceMCP) (clk : clock)
  (cal : calendar) (uri : string) : result resource_content :=
  if String.eqb uri "governance://audit-logs" then
    logs ← get_audit_logs 50 0 ∅ (db self);
    Ok (json_text
          (dumps_indent 2 0
             (VDict [ ("logs", VList (List.map log_value logs));
                      ("total_count", VInt (Z.of_nat (length logs)));
                      ("exported_at", VStr (now_isoformat clk)) ])))
  else if String.eqb uri "governance://statistics" then
    stats ← get_statistics cal 30 (db self);
    Ok (json_text (dumps_indent 2 0 stats))
  else if String.eqb uri "governance://configuration" then
    Ok (json_of_config (config self))
  else if String.eqb uri "governance://patterns" then
    let patterns :=
      if truthy (dict_get (config self) "extended_patterns" VNone)
      then dict_update PII_PATTERNS EXTENDED_PATTERNS else PII_PATTERNS in
    Ok (json_text
          (dumps_indent 2 0
             (VDict [ ("patterns", patterns_value patterns);
                      ("total_count", VInt (Z.of_nat (length patterns)));
                      ("extended_enabled",
                       dict_get (config self) "extended_patterns" (VBool false)) ])))
  else if String.eqb uri "governance://policies" then
    let policies :=
      if truthy (dict_get (config self) "extended_policies" VNone)
      then dict_update POLICY_RULES EXTENDED_POLICIES else POLICY_RULES in
    policies ← policies_value policies;
    Ok (json_text
          (dumps_indent 2 0
             (VDict [ ("policies", VDict policies);
                      ("total_count", VInt (Z.of_nat (length policies)));
                      ("extended_enabled",
                       dict_get (config self) "extended_policies" (VBool false)) ])))
  else Raise "ValueError".

(* ================================================================== *)
(** * utils.py *)
(* ================================================================== *)

Definition truncate_text (text : string) (max_length : Z) : string :=
  if len text <=? max_length then text
  else slice_to text (max_length - 3) +:+ "...".



(** [item.get(key, default)] on an element of the lists: the elements are
    dictionaries, anything else has no [get]. *)
Definition item_get (item : value) (key : string) (dflt : value) : result value :=
  match item with
  | VDict d =>
    Ok (match List.find (fun kv => String.eqb (fst kv) key) d with
        | Some kv => snd kv
        | None => dflt
        end)
  | _ => Raise "AttributeError"
  end.

(** [scores.get(key, default)] on a dictionary keyed by strings: a list or
    a dictionary cannot be hashed, any other key is looked up. *)
Definition score_get (scores : list (string * Z)) (key : value) (dflt : Z) : result Z :=
  match key with
  | VStr s =>
    Ok (match List.find (fun kn => String.eqb (fst kn) s) scores with
        | Some kn => snd kn
        | None => dflt
        end)
  | VList _ | VDict _ => Raise "TypeError"
  | _ => Ok dflt
  end.

Definition severity_scores : list (string * Z) :=
  [("critical", 10); ("high", 7); ("medium", 4); ("low", 2)].

Definition action_scores : list (string * Z) :=
  [("block", 10); ("warn", 5); ("allow", 0)].

Definition get_risk_recommendation (risk_level : string) : string :=
  match List.find (fun kv => String.eqb (fst kv) risk_level)
          [ ("critical", "Do not send. Multiple critical issues detected.");
            ("high", "Review and remediate before sending.");
            ("medium", "Consider reviewing sensitive information.");
            ("low", "Generally safe to send.") ] with
  | Some kv => snd kv
  | None => "Review before sending."
  end.

(** [scores.get(item.get(key, dflt_key), dflt)] *)
Definition item_score (scores : list (string * Z)) (key dflt_key : string) (dflt : Z)
  (item : value) : result Z :=
  k ← item_get item key (VStr dflt_key);
  score_get scores k dflt.

(** One of the two scoring loops. *)
Definition score_items (scores : list (string * Z)) (key dflt_key : string)
  (dflt : Z) (items : list value) : result Z :=
  fold_left
    (fun acc item =>
       score ← acc;
       n ← item_score scores key dflt_key dflt item;
       Ok (score + n))
    items (Ok 0).

Definition risk_level_of (total_score : Z) : string :=
  if total_score >=? 70 then "critical"
  else if total_score >=? 40 then "high"
  else if total_score >=? 20 then "medium"
  else "low".

Record risk_score : Type := {
  score : Z;
  level : string;
  pii_score : Z;
  policy_score : Z;
  recommendation : string
}.

Definition calculate_risk_score (pii_matches policy_violations : list value)
  : result risk_score :=
  pii_score ← score_items severity_scores "severity" "medium" 4 pii_matches;
  policy_score ← score_items action_scores "action" "warn" 5 policy_violations;
  let total_score := Z.min (pii_score + policy_score) 100 in
  let risk_level := risk_level_of total_score in
  Ok {| score := total_score;
        level := risk_level;
        pii_score := pii_score;
        policy_score := policy_score;
        recommendation := get_risk_recommendation risk_level |}.

(** [key in d] and [d[key]] on an insertion-ordered dictionary. *)
Definition dict_lookup (key : string) (d : list (string * value)) : option value :=
  option_map snd (List.find (fun kv => String.eqb (fst kv) key) d).

(** [merge_configs(merged, updates)] for [updates] a dictionary: the loop
    over its items, with the recursion on the values that are
    dictionaries on both sides. *)
Fixpoint merge_dict (updates : value) (merged : list (string * value)) {struct updates}
  : list (string * value) :=
  match updates with
  | VDict items =>
    (fix loop (items : list (string * value)) (merged : list (string * value))
       : list (string * value) :=
       match items with
       | [] => merged
       | (key, value) :: rest =>
         loop rest
           match value, dict_lookup key merged with
           | VDict _, Some (VDict sub) => dict_set key (VDict (merge_dict value sub)) merged
           | _, _ => dict_set key value merged
           end
       end) items merged
  | _ => merged
  end.

Definition merge_configs (base_config updates : list (string * value))
  : list (string * value) :=
  merge_dict (VDict updates) base_config.

(* ================================================================== *)
(** * Notions of the further properties *)
(* ================================================================== *)

(** Findings that lie inside the text, each at least one character wide,
    in ascending order and apart from one another. *)
Definition spans_apart (text : string) (matches : list PIIMatch) : Prop :=
  Forall (fun m => 0 <= m_start m < m_end m /\ m_end m <= len text) matches
  /\ StronglySorted (fun a b => m_end a <= m_start b) matches.

(** The text from [pos] on with the span of every finding replaced by its
    placeholder and everything between the spans kept. *)
Fixpoint spliced (text redaction_style : string) (pos : Z) (matches : list PIIMatch)
  : string :=
  match matches with
  | [] => slice_from text pos
  | m :: rest =>
    substring (Z.to_nat pos) (Z.to_nat (m_start m - pos)) text
    +:+ replacement redaction_style m
    +:+ spliced text redaction_style (m_end m) rest
  end.

(** The findings that are one character wide. *)
Definition one_wide (matches : list PIIMatch) : list PIIMatch :=
  List.filter (fun m => m_end m - m_start m =? 1) matches.

(** [match.group()] of a finding: the text between its offsets. *)
Definition finding_text (text : string) (f : PIIMatch) : string :=
  substring (Z.to_nat (m_start f)) (Z.to_nat (m_end f - m_start f)) text.

(** The four severities that the summaries count. *)
Definition known_severity (s : string) : bool :=
  existsb (String.eqb s) ["critical"; "high"; "medium"; "low"].

(** The sum of a dictionary of counters before it is made a value. *)
Definition counter_sum (d : list (string * Z)) : Z :=
  fold_right (fun kn acc => snd kn + acc) 0 d.

(** The sum of the counters of a dictionary of counters. *)
Definition counters_total (v : value) : Z :=
  match v with
  | VDict d =>
    fold_right (fun kv acc => match snd kv with VInt n => n + acc | _ => acc end) 0 d
  | _ => 0
  end.

(** The policy table that [check_policies] walks when no custom policy
    is given. *)
Definition active_policies (extended : bool) : list (string * policy_config) :=
  if extended then dict_update POLICY_RULES EXTENDED_POLICIES else POLICY_RULES.

(** A setting that is a string, or is left to its default. *)
Definition text_or_absent (v : option value) : bool :=
  match v with
  | Some (VStr _) | None => true
  | _ => false
  end.

(** A setting that is an integer, or is left to its default. *)
Definition int_or_absent (v : option value) : bool :=
  match v with
  | Some (VInt _) | None => true
  | _ => false
  end.

(** The messages of the violations that warn. *)
Definition warning_messages (violations : list PolicyViolation) : list string :=
  List.map v_message (List.filter (fun v => action_eqb (v_action v) WARN) violations).

(** What the verifier reports of a row read right after the genesis
    sentinel. *)
Definition genesis_mismatch (row : audit_row) : list invalid_entry :=
  if String.eqb (calculate_hash (entry_data row) "genesis") (row_hash row) then []
  else [ {| inv_id := row_id row;
            inv_expected_hash := calculate_hash (entry_data row) "genesis";
            inv_actual_hash := row_hash row |} ].


(** What a filter asks of a row, for the keys it gives as text. *)
Definition filter_holds (filters : gmap string value) (row : audit_row) : Prop :=
  (forall s, filters !! "start_date" = Some (VStr s) -> String.leb s (row_timestamp row) = true)
  /\ (forall s, filters !! "end_date" = Some (VStr s) -> String.leb (row_timestamp row) s = true)
  /\ (forall s, filters !! "event_type" = Some (VStr s) -> row_event_type row = s)
  /\ (forall s, filters !! "action_taken" = Some (VStr s) -> row_action_taken row = Some s).

(** The server with a database in place of its own. *)
Definition with_db (d : database) (self : AIGovernanceMCP) : AIGovernanceMCP :=
  {| db := d; config := config self; session_id := session_id self |}.

(** An element that the scoring loops can read: a dictionary whose value
    under [key], when there is one, is a string. *)
Definition scorable (key : string) (item : value) : bool :=
  match item with
  | VDict d =>
    match List.find (fun kv => String.eqb (fst kv) key) d with
    | Some (_, VStr _) | None => true
    | Some _ => false
    end
  | _ => false
  end.

(** What [merge_configs] does with one item of the updates. *)
Definition merge_item (key : string) (val : value) (merged : list (string * value))
  : list (string * value) :=
  match val, dict_lookup key merged with
  | VDict _, Some (VDict sub) => dict_set key (VDict (merge_dict val sub)) merged
  | _, _ => dict_set key val merged
  end.

(* ================================================================== *)
(** * Further worked inputs *)
(* ================================================================== *)

(** The two findings in [email_ssn_text]. *)
Definition email_ssn_findings : list PIIMatch :=
  [ {| m_type := "email"; m_name := "Email Address";
       m_value := Some "john@example.com";
       m_start := 12; m_end := 28; m_severity := "medium" |};
    {| m_type := "ssn"; m_name := "Social Security Number";
       m_value := Some "123-45-6789";
       m_start := 40; m_end := 51; m_severity := "high" |} ].

(** A text with two sixteen-digit numbers, the first with a valid check
    digit and the second without, and what [re] finds in it: the card
    pattern matches both. *)
Definition cards_text : string := "4111 1111 1111 1111 or 1234-5678-9012-3456".

Definition cards_engine : ReEngine :=
  {| re_finditer := fun pattern text =>
       if String.eqb text cards_text
          && String.eqb pattern "\b(?:\d{4}[-\s]?){3}\d{4}\b"
       then [ {| match_start := 0; match_end := 19; match_groups := [] |};
              {| match_start := 23; match_end := 42; match_groups := [] |} ]
       else [];
     re_search := fun _ _ => false |}.

(** A text in which the three letters of a legal keyword occur inside
    another word. *)
Definition issue_text : string := "I have an ISSUE with my order".

(** An engine of [re.sub] for which every pattern compiles and none
    occurs. *)
Definition quiet_sub : ReSubEngine :=
  {| re_error := fun _ => false; re_sub := fun _ _ s => s |}.

(** A violation that blocks followed by one that redacts, as a custom
    policy table can produce them. *)
Definition blocking_violation : PolicyViolation :=
  {| v_policy_name := "medical_advice"; v_category := "medical";
     v_matched_keyword := "medication"; v_action := BLOCK;
     v_message := "Medical advice detected. Please consult a licensed healthcare professional.";
     v_severity := "high" |}.

Definition redacting_violation : PolicyViolation :=
  {| v_policy_name := "names"; v_category := "privacy";
     v_matched_keyword := "take"; v_action := REDACT;
     v_message := "Name removed."; v_severity := "low" |}.

Definition block_then_redact : list PolicyViolation :=
  [blocking_violation; redacting_violation].

(** A calendar on the second of January 2025. *)
Definition worked_calendar : calendar :=
  {| cal_today := "2025-01-02";
     cal_days_before_today := fun n =>
       if n =? 6 then Ok "2024-12-27" else if n =? 29 then Ok "2024-12-04"
       else Raise "OverflowError";
     cal_days_before_now := fun n =>
       if n =? 90 then Ok "2024-10-04T10:00:00.000001" else Raise "OverflowError" |}.

(** An entry of March 2024 and one of December 2024, and the ledger that
    holds the two. *)
Definition march_entry : gmap string value :=
  list_to_map
    [ ("timestamp", VStr "2024-03-01T12:00:00");
      ("event_type", VStr "scan");
      ("original_text", VStr "first");
      ("action_taken", VStr "allowed") ].

Definition december_entry : gmap string value :=
  list_to_map
    [ ("timestamp", VStr "2024-12-01T12:00:00");
      ("event_type", VStr "scan");
      ("original_text", VStr "second");
      ("action_taken", VStr "warned") ].

Definition aged_ledger : database :=
  default empty_database
    (appended many_writers empty_database
       [(worked_clock, march_entry); (worked_clock, december_entry)]).

(** Two days of statistics. *)
Definition worked_statistics : database :=
  {| audit_log := [];
     audit_seq := 0;
     statistics :=
       list_to_map
         [ ("2025-01-01",
            {| total_scans := 4; pii_detections := 3; policy_violations := 2;
               blocked_prompts := 1; unique_users := 0 |});
           ("2024-11-30",
            {| total_scans := 9; pii_detections := 0; policy_violations := 0;
               blocked_prompts := 0; unique_users := 0 |}) ] |}.

(** What [json.loads] answers on the two texts that the worked ledgers
    hold in their JSON columns; it is asked no other. *)
Definition worked_decoder : JsonDecoder :=
  {| json_loads := fun s =>
       if String.eqb s "[]" then Ok (VList [])
       else if String.eqb s "{}" then Ok (VDict [])
       else Raise "json.decoder.JSONDecodeError" |}.

(** A filter on the event type of the test entries. *)
Definition test_filter : gmap string value := {[ "event_type" := VStr "test" ]}.

(** The latest record of the worked ledger that the filter lets
    through. *)
Definition worked_logs : list audit_log_entry :=
  match @get_audit_logs worked_decoder 1 0 test_filter worked_ledger with
  | Ok logs => logs
  | Raise _ => []
  end.

(** A prompt with no finding and no violation, what the compliance check
    says of it and the response to its scan. *)
Definition hello_args : scan_args :=
  {| arg_prompt := Some "Hello there"; arg_auto_redact := None; arg_context := None |}.

Definition hello_compliance : value :=
  match @_check_compliance worked_engine quiet_server (arg_prompt hello_args) with
  | Ok doc => doc
  | Raise _ => VNone
  end.

Definition hello_response : value :=
  match snd (@_scan_prompt worked_engine sqlite quiet_server worked_clock hello_args) with
  | Ok r => r
  | Raise _ => VNone
  end.

(** The scan of the text with an e-mail address and an SSN, and the same
    text given to the redaction tool. *)
Definition email_ssn_args : scan_args :=
  {| arg_prompt := Some email_ssn_text; arg_auto_redact := Some true; arg_context := None |}.

Definition email_ssn_redaction : value :=
  match @_redact_pii worked_engine quiet_server
          {| arg_text := Some email_ssn_text; arg_style := None |} with
  | Ok doc => doc
  | Raise _ => VNone
  end.

Definition email_ssn_response : value :=
  match snd (@_scan_prompt worked_engine sqlite quiet_server worked_clock email_ssn_args) with
  | Ok r => r
  | Raise _ => VNone
  end.


(** The server's default settings as an ordered dictionary, and an update
    of them. *)
Definition default_settings : list (string * value) :=
  [ ("auto_redact", VBool true);
    ("redaction_style", VStr "[REDACTED]");
    ("rate_limit", VDict [("enabled", VBool false); ("max_per_minute", VInt 60)]) ].

Definition settings_update : list (string * value) :=
  [ ("rate_limit", VDict [("enabled", VBool true)]);
    ("extended_patterns", VBool true) ].
(* ================================================================== *)
(** * Test vectors of the environment *)
(* ================================================================== *)

Example sha256_abc :
  Sha256.hexdigest "abc"
  = "ba7816bf8f01cfea414140de5dae2223b00361a396177a9cb410ff61f20015ad".
Proof. vm_compute. reflexivity. Qed.

Example sha256_empty :
  Sha256.hexdigest EmptyString
  = "e3b0c44298fc1c149afbf4c8996fb92427ae41e4649b934ca495991b7852b855".
Proof. vm_compute. reflexivity. Qed.

Example sha256_two_blocks :
  Sha256.hexdigest "abcdbcdecdefdefgefghfghighijhijkijkljklmklmnlmnomnopnopq"
  = "248d6a61d20638b8e5c026930c3e6039a33ce45964ff2167f6ecedd419db06c1".
Proof. vm_compute. reflexivity. Qed.

Example json_dumps_sorted :
  Json.dumps (Json.sort_keys (VDict [("timestamp", VStr "t"); ("event_type", VNone);
                                      ("n", VList [VInt (-5); VBool true; VDict []])]))
  = "{" +:+ dquote +:+ "event_type" +:+ dquote +:+ ": null, " +:+ dquote +:+ "n" +:+ dquote
    +:+ ": [-5, true, {}], " +:+ dquote +:+ "timestamp" +:+ dquote +:+ ": " +:+ dquote
    +:+ "t" +:+ dquote +:+ "}".
Proof. vm_compute. reflexivity. Qed.

(* ================================================================== *)
(** * Sorting *)
(* ================================================================== *)

Section StableSort.
Context {A : Type}.

Lemma sort_insert_perm (before : A -> A -> bool) (x : A) (l : list A) :
  Permutation (sort_insert before x l) (x :: l).
Proof.
  induction l as [|y l IH]; simpl; [reflexivity|].
  destruct (before x y); [reflexivity|].
  rewrite IH. apply perm_swap.
Qed.

Lemma stable_sort_perm (before : A -> A -> bool) (l : list A) :
  Permutation (stable_sort before l) l.
Proof.
  induction l as [|x l IH]; simpl; [reflexivity|].
  rewrite sort_insert_perm. apply perm_skip, IH.
Qed.

Context (key : A -> Z).

Lemma sort_insert_sorted (x : A) (l : list A) :
  StronglySorted (fun a b => key a <= key b) l ->
  StronglySorted (fun a b => key a <= key b)
    (sort_insert (fun a b => key a <=? key b) x l).
Proof.
  induction 1 as [|y l Hl IH Hy]; simpl.
  - constructor; constructor.
  - destruct (Z.leb_spec (key x) (key y)) as [Hxy|Hxy].
    + constructor; [constructor; assumption|].
      constructor; [assumption|].
      eapply List.Forall_impl; [|exact Hy]. intros z Hz. simpl in Hz. lia.
    + constructor; [exact IH|].
      eapply Permutation_Forall; [symmetry; apply sort_insert_perm|].
      constructor; [lia | exact Hy].
Qed.

Lemma stable_sort_sorted (l : list A) :
  StronglySorted (fun a b => key a <= key b) (stable_sort (fun a b => key a <=? key b) l).
Proof.
  induction l as [|x l IH]; simpl; [constructor|].
  apply sort_insert_sorted, IH.
Qed.

(** A list that is in order already is left as it is. *)
Lemma stable_sort_of_sorted (l : list A) :
  StronglySorted (fun a b => key a <= key b) l ->
  stable_sort (fun a b => key a <=? key b) l = l.
Proof.
  induction 1 as [|x l Hl IH Hx]; simpl; [reflexivity|].
  rewrite IH. destruct l as [|y l]; simpl; [reflexivity|].
  inversion Hx as [|? ? Hxy _]; subst.
  destruct (Z.leb_spec (key x) (key y)); [reflexivity | lia].
Qed.

End StableSort.

Lemma ForallOrdPairs_perm {A : Type} (S : A -> A -> Prop) (l l' : list A) :
  (forall a b, S a b -> S b a) ->
  Permutation l l' -> ForallOrdPairs S l -> ForallOrdPairs S l'.
Proof.
  intros Hsym Hperm. induction Hperm as [|x l l' Hp IH|x y l|l l' l'' _ IH1 _ IH2]; intros H.
  - constructor.
  - inversion H as [|? ? Hx Hl]; subst. constructor; [|apply IH, Hl].
    eapply Permutation_Forall; eassumption.
  - inversion H as [|? ? Hy Hl]; subst. inversion Hl as [|? ? Hx Hl']; subst.
    inversion Hy as [|? ? Hyx Hy']; subst.
    constructor; [constructor; [apply Hsym, Hyx | exact Hx]|].
    constructor; assumption.
  - apply IH2, IH1, H.
Qed.

Lemma ForallOrdPairs_impl {A : Type} (P Q : A -> A -> Prop) (l : list A) :
  (forall a b, P a b -> Q a b) -> ForallOrdPairs P l -> ForallOrdPairs Q l.
Proof.
  intros HPQ. induction 1 as [|x l Hx _ IH]; constructor; [|exact IH].
  eapply List.Forall_impl; [|exact Hx]. intros b. apply HPQ.
Qed.

Lemma ForallOrdPairs_app {A : Type} (P : A -> A -> Prop) (l1 l2 : list A) :
  ForallOrdPairs P l1 -> ForallOrdPairs P l2 ->
  (forall a b, In a l1 -> In b l2 -> P a b) ->
  ForallOrdPairs P (l1 ++ l2).
Proof.
  intros H1 H2 H12. induction H1 as [|x l Hx _ IH]; simpl; [exact H2|].
  constructor.
  - apply List.Forall_app. split; [exact Hx|].
    apply List.Forall_forall. intros b Hb. apply H12; [left; reflexivity | exact Hb].
  - apply IH. intros a b Ha Hb. apply H12; [right; exact Ha | exact Hb].
Qed.

(** Pairs of a concatenation: within one part, or across two parts taken in
    order. *)
Lemma ForallOrdPairs_flat_map {A B : Type} (P : A -> A -> Prop) (Q : B -> B -> Prop)
  (f : A -> list B) (l : list A) :
  ForallOrdPairs P l ->
  (forall x, In x l -> ForallOrdPairs Q (f x)) ->
  (forall x y a b, P x y -> In a (f x) -> In b (f y) -> Q a b) ->
  ForallOrdPairs Q (flat_map f l).
Proof.
  intros HP Hin Hacross. induction HP as [|x l Hx _ IH]; simpl; [constructor|].
  apply ForallOrdPairs_app.
  - apply Hin. left. reflexivity.
  - apply IH. intros y Hy. apply Hin. right. exact Hy.
  - intros a b Ha Hb. apply in_flat_map in Hb. destruct Hb as (y & Hy & Hb).
    rewrite List.Forall_forall in Hx. eapply Hacross; [apply Hx, Hy | exact Ha | exact Hb].
Qed.

Lemma NoDup_ForallOrdPairs {A : Type} (l : list A) :
  NoDup l -> ForallOrdPairs (fun a b => a <> b) l.
Proof.
  induction 1 as [|x l Hx _ IH]; constructor; [|exact IH].
  apply List.Forall_forall. intros y Hy ->. apply Hx. apply list_elem_of_In. exact Hy.
Qed.

(* ================================================================== *)
(** * Properties of the validator *)
(* ================================================================== *)

Lemma luhn_sum_cons (d : Z) (r : list Z) :
  luhn_sum (d :: r) = d + luhn_sum_shifted r.
Proof. destruct r as [|d1 r]; simpl; lia. Qed.

Lemma luhn_step_even (total : Z) (i : nat) (c : ascii) :
  Nat.even i = true -> luhn_step total (i, c) = total + int_of_digit c.
Proof.
  intros Hi. unfold luhn_step. cbn [fst snd].
  destruct (Nat.eqb (i mod 2) 1) eqn:E; [|reflexivity].
  apply Nat.eqb_eq in E. apply Nat.even_spec in Hi. destruct Hi as [k ->].
  rewrite Nat.mul_comm, Nat.Div0.mod_mul in E. discriminate.
Qed.

Lemma luhn_step_odd (total : Z) (i : nat) (c : ascii) :
  Nat.even i = false -> luhn_step total (i, c) = total + luhn_double (int_of_digit c).
Proof.
  intros Hi. unfold luhn_step, luhn_double. cbn [fst snd].
  assert (E : Nat.eqb (i mod 2) 1 = true).
  { apply Nat.eqb_eq. rewrite <- Nat.negb_odd in Hi. apply negb_false_iff in Hi.
    apply Nat.odd_spec in Hi. destruct Hi as [k ->].
    rewrite Nat.add_comm, Nat.mul_comm, Nat.Div0.mod_add. reflexivity. }
  rewrite E. replace (int_of_digit c * 2) with (2 * int_of_digit c) by lia. reflexivity.
Qed.

(** The loop computes the sum of the specification, whichever parity the
    first index has. *)
Lemma luhn_loop (l : list ascii) :
  forall (i : nat) (total : Z),
    fold_left luhn_step (enumerate_from i l) total
    = total + (if Nat.even i then luhn_sum (List.map int_of_digit l)
               else luhn_sum_shifted (List.map int_of_digit l)).
Proof.
  induction l as [|c l IH]; intros i total.
  - simpl. destruct (Nat.even i); simpl; lia.
  - cbn [enumerate_from fold_left List.map]. rewrite IH.
    rewrite Nat.even_succ, <- Nat.negb_even.
    destruct (Nat.even i) eqn:Hi; cbn [negb].
    + rewrite luhn_step_even by assumption. rewrite luhn_sum_cons. lia.
    + rewrite luhn_step_odd by assumption. cbn [luhn_sum_shifted]. lia.
Qed.

Lemma isdigit_spec (s : string) :
  isdigit s = true <-> s <> EmptyString /\ str_forall is_digit s = true.
Proof.
  destruct s as [|c r]; simpl.
  - split; [discriminate | intros [H _]; congruence].
  - split; [intros H; split; [discriminate | exact H] | intros [_ H]; exact H].
Qed.

Lemma validate_credit_card_luhn (number : string) :
  validate_credit_card number = true <-> luhn_valid (strip_separators number).
Proof.
  unfold validate_credit_card, luhn_valid, digits_from_right, enumerate.
  rewrite luhn_loop. cbn [Nat.even]. rewrite Z.add_0_l, map_rev.
  destruct (isdigit (strip_separators number)) eqn:D; cbn [negb].
  - apply isdigit_spec in D. destruct D as [D1 D2].
    rewrite Z.eqb_eq. tauto.
  - split; [discriminate|]. intros (H1 & H2 & _).
    assert (isdigit (strip_separators number) = true) by (apply isdigit_spec; tauto).
    congruence.
Qed.

Lemma str_filter_app (keep : ascii -> bool) (a b : string) :
  str_filter keep (a +:+ b) = str_filter keep a +:+ str_filter keep b.
Proof.
  induction a as [|c a IH]; simpl; [reflexivity|].
  rewrite IH. destruct (keep c); reflexivity.
Qed.

Lemma strip_separators_insert (a b : string) (sep : ascii) :
  is_separator sep = true ->
  strip_separators (a +:+ String sep b) = strip_separators (a +:+ b).
Proof.
  intros Hsep. unfold strip_separators. rewrite !str_filter_app. simpl.
  rewrite Hsep. reflexivity.
Qed.

Lemma str_forall_false_not_digit (s : string) (c : ascii) :
  is_digit c = false -> forall a b, s = a +:+ String c b -> str_forall is_digit s = false.
Proof.
  intros Hc a. revert s. induction a as [|x a IH]; intros s b ->; simpl.
  - rewrite Hc. reflexivity.
  - rewrite (IH _ b eq_refl). apply andb_false_r.
Qed.

(** C6, counterexample: the number that the specification calls valid has
    the Luhn total 73, and the validator rejects it. *)
Lemma validate_credit_card_rejects_4532148803436467 :
  validate_credit_card "4532148803436467" = false
  /\ luhn_sum (digits_from_right "4532148803436467") = 73.
Proof. split; reflexivity. Qed.

(** C6, as amended: the validator strips dashes and white space, accepts
    exactly the non-empty digit strings whose Luhn total (every second digit
    from the right doubled, nine subtracted from a doubled value above nine)
    is divisible by ten, and rejects whatever keeps another character; it
    rejects both 4532148803436467 and 1234567890123456 and accepts
    4532015112830366; a dash or a space inserted anywhere never changes the
    result. *)
Theorem validate_credit_card_is_luhn :
  (forall number,
      validate_credit_card number = true <-> luhn_valid (strip_separators number))
  /\ (forall number a c b,
         strip_separators number = a +:+ String c b -> is_digit c = false ->
         validate_credit_card number = false)
  /\ validate_credit_card "4532148803436467" = false
  /\ validate_credit_card "1234567890123456" = false
  /\ validate_credit_card "4532015112830366" = true
  /\ is_separator "-" = true
  /\ is_separator " " = true
  /\ (forall a b sep,
         is_separator sep = true ->
         validate_credit_card (a +:+ String sep b) = validate_credit_card (a +:+ b)).
Proof.
  split; [exact validate_credit_card_luhn|].
  split.
  { intros number a c b Hs Hc.
    destruct (validate_credit_card number) eqn:V; [|reflexivity].
    apply validate_credit_card_luhn in V. destruct V as (_ & V & _).
    rewrite (str_forall_false_not_digit _ c Hc a b Hs) in V. discriminate. }
  do 5 (split; [reflexivity|]).
  intros a b sep Hsep. unfold validate_credit_card.
  rewrite strip_separators_insert by exact Hsep. reflexivity.
Qed.

(* ================================================================== *)
(** * Properties of the matcher *)
(* ================================================================== *)

Lemma active_patterns_keys (extended : bool) :
  NoDup (List.map fst (active_patterns extended)).
Proof. destruct extended; apply (bool_decide_unpack _); vm_compute; reflexivity. Qed.

Section Matcher.
Context `{ReEngine}.

Lemma pattern_matches_type (text : string) (entry : string * pattern_config) (a : PIIMatch) :
  In a (pattern_matches text entry) -> m_type a = fst entry.
Proof.
  unfold pattern_matches. intros Ha. apply in_flat_map in Ha.
  destruct Ha as (m & _ & Ha).
  destruct (_ && _) in Ha; simpl in Ha; [contradiction|].
  destruct Ha as [<- | []]. reflexivity.
Qed.

(** The findings of one pattern come in the order of its matches. *)
Lemma pattern_matches_ordered (text : string) (entry : string * pattern_config) :
  finditer_ordered (re_finditer (p_pattern (snd entry)) text) ->
  ForallOrdPairs (fun a b => m_end a <= m_start b) (pattern_matches text entry).
Proof.
  intros Hord. unfold pattern_matches.
  eapply ForallOrdPairs_flat_map; [exact Hord| |].
  - intros m _. destruct (_ && _); repeat constructor.
  - intros m1 m2 a b H12 Ha Hb.
    destruct (_ && _) in Ha; simpl in Ha; [contradiction|].
    destruct (_ && _) in Hb; simpl in Hb; [contradiction|].
    destruct Ha as [<- | []]. destruct Hb as [<- | []]. simpl in *. lia.
Qed.

Lemma collected_ordered (text : string) (patterns : list (string * pattern_config)) :
  NoDup (List.map fst patterns) ->
  (forall entry, In entry patterns ->
     finditer_ordered (re_finditer (p_pattern (snd entry)) text)) ->
  ForallOrdPairs same_type_disjoint (flat_map (pattern_matches text) patterns).
Proof.
  intros Hkeys Hre.
  eapply ForallOrdPairs_flat_map with (P := fun e1 e2 => fst e1 <> fst e2).
  - clear Hre. induction patterns as [|e l IH]; [constructor|].
    simpl in Hkeys. apply NoDup_cons in Hkeys. destruct Hkeys as [He Hl].
    constructor; [|apply IH, Hl].
    apply List.Forall_forall. intros e' He' Heq. apply He. rewrite Heq.
    apply list_elem_of_In, in_map, He'.
  - intros e He. eapply ForallOrdPairs_impl; [|apply pattern_matches_ordered, Hre, He].
    intros a b Hab _. left. exact Hab.
  - intros e1 e2 a b Hne Ha Hb Hty. exfalso. apply Hne.
    rewrite <- (pattern_matches_type _ _ _ Ha), <- (pattern_matches_type _ _ _ Hb).
    exact Hty.
Qed.

Lemma same_type_disjoint_sym (a b : PIIMatch) :
  same_type_disjoint a b -> same_type_disjoint b a.
Proof. unfold same_type_disjoint, disjoint. intros Hab Hty. symmetry in Hty. tauto. Qed.

End Matcher.

Lemma flat_map_ext_in {A B : Type} (f g : A -> list B) (l : list A) :
  (forall x, In x l -> f x = g x) -> flat_map f l = flat_map g l.
Proof.
  induction l as [|x l IH]; intros Hfg; simpl; [reflexivity|].
  rewrite (Hfg x) by (left; reflexivity). rewrite IH; [reflexivity|].
  intros y Hy. apply Hfg. right. exact Hy.
Qed.

(** C7: when [re.finditer] yields, for every active pattern, the matches
    in scanning order without overlap, the findings of [detect_pii] are in
    ascending order of their start offsets, no two findings of one category
    overlap, and the list is a function of the input alone: any two engines
    that agree on the matches produce the same list in the same order. *)
Theorem detect_pii_sorted_disjoint_deterministic
  (engine : ReEngine) (text : string) (extended : bool) :
  (forall entry, In entry (active_patterns extended) ->
     finditer_ordered (@re_finditer engine (p_pattern (snd entry)) text)) ->
  StronglySorted by_start (@detect_pii engine text extended)
  /\ ForallOrdPairs same_type_disjoint (@detect_pii engine text extended)
  /\ (forall engine' : ReEngine,
        (forall entry, In entry (active_patterns extended) ->
           @re_finditer engine' (p_pattern (snd entry)) text
           = @re_finditer engine (p_pattern (snd entry)) text) ->
        @detect_pii engine' text extended = @detect_pii engine text extended).
Proof.
  intros Hre. unfold detect_pii. split; [|split].
  - apply (stable_sort_sorted m_start).
  - eapply ForallOrdPairs_perm.
    + apply same_type_disjoint_sym.
    + symmetry. apply stable_sort_perm.
    + apply collected_ordered; [apply active_patterns_keys | exact Hre].
  - intros engine' Hagree. f_equal. apply flat_map_ext_in.
    intros entry Hentry. unfold pattern_matches. rewrite (Hagree entry Hentry). reflexivity.
Qed.

Lemma worked_finditer_ordered :
  forall entry, In entry (active_patterns true) ->
    finditer_ordered (@re_finditer worked_engine (p_pattern (snd entry)) email_ssn_text).
Proof.
  apply List.Forall_forall. vm_compute.
  repeat (constructor; [repeat constructor|]). constructor.
Qed.

Lemma detect_pii_worked :
  @detect_pii worked_engine email_ssn_text true
  = [ {| m_type := "email"; m_name := "Email Address";
         m_value := Some "john@example.com";
         m_start := 12; m_end := 28; m_severity := "medium" |};
      {| m_type := "ssn"; m_name := "Social Security Number";
         m_value := Some "123-45-6789";
         m_start := 40; m_end := 51; m_severity := "high" |} ].
Proof. vm_compute. reflexivity. Qed.

(** The theorem at the text with an e-mail address and an SSN. *)
Lemma detect_pii_sorted_disjoint_witness :
  StronglySorted by_start (@detect_pii worked_engine email_ssn_text true)
  /\ ForallOrdPairs same_type_disjoint (@detect_pii worked_engine email_ssn_text true)
  /\ (forall engine' : ReEngine,
        (forall entry, In entry (active_patterns true) ->
           @re_finditer engine' (p_pattern (snd entry)) email_ssn_text
           = @re_finditer worked_engine (p_pattern (snd entry)) email_ssn_text) ->
        @detect_pii engine' email_ssn_text true
        = @detect_pii worked_engine email_ssn_text true).
Proof.
  exact (detect_pii_sorted_disjoint_deterministic
           worked_engine email_ssn_text true worked_finditer_ordered).
Defined.

(* ================================================================== *)
(** * Properties of the redactor *)
(* ================================================================== *)

Lemma str_repeat_length (c : ascii) (n : nat) :
  String.length (str_repeat (String c EmptyString) n) = n.
Proof.
  induction n as [|n IH]; [reflexivity|].
  change (str_repeat (String c EmptyString) (S n))
    with (String c (str_repeat (String c EmptyString) n)).
  cbn [String.length]. f_equal. exact IH.
Qed.

Lemma str_length_app (a b : string) :
  String.length (a +:+ b) = (String.length a + String.length b)%nat.
Proof. induction a as [|c a IH]; simpl; [reflexivity | rewrite IH; reflexivity]. Qed.

(** A match at least two characters wide gets a filler of its own width. *)
Lemma replacement_preserves_length (m : PIIMatch) :
  2 <= m_end m - m_start m ->
  len (replacement "[REDACTED-XXX]" m) = m_end m - m_start m.
Proof.
  intros Hw.
  assert (E : replacement "[REDACTED-XXX]" m
              = "[" +:+ str_repeat "X" (Z.to_nat (m_end m - m_start m - 2)) +:+ "]")
    by reflexivity.
  rewrite E. unfold len. rewrite !str_length_app, str_repeat_length.
  cbn [String.length]. lia.
Qed.

Lemma replacement_preserves_length_witness :
  len (replacement "[REDACTED-XXX]" ssn_match) = m_end ssn_match - m_start ssn_match.
Proof. apply (replacement_preserves_length ssn_match). vm_compute. discriminate. Defined.

Example redact_pii_ssn :
  redact_pii "SSN: 123-45-6789" [ssn_match] "[REDACTED-XXX]" = "SSN: [XXXXXXXXX]"
  /\ redact_pii "SSN: 123-45-6789" [ssn_match] "[REDACTED-TYPE]"
     = "SSN: [REDACTED-SOCIAL SECURITY NUMBER]"
  /\ redact_pii "SSN: 123-45-6789" [ssn_match] "[REDACTED]" = "SSN: [REDACTED]".
Proof. repeat split; reflexivity. Qed.

(** A narrower match gets the two brackets and nothing else. *)
Lemma replacement_of_narrow_match (m : PIIMatch) :
  m_end m - m_start m <= 2 -> replacement "[REDACTED-XXX]" m = "[]".
Proof.
  intros Hw.
  assert (E : replacement "[REDACTED-XXX]" m
              = "[" +:+ str_repeat "X" (Z.to_nat (m_end m - m_start m - 2)) +:+ "]")
    by reflexivity.
  rewrite E. replace (Z.to_nat (m_end m - m_start m - 2)) with 0%nat by lia. reflexivity.
Qed.

Lemma redact_pii_no_findings (text redaction_style : string) :
  redact_pii text [] redaction_style = text.
Proof. reflexivity. Qed.

(** C8, the failing input: a finding that starts at 1 and ends at 2 is one
    character wide, and the length-preserving style writes the two-character
    filler over it. *)
Theorem redact_pii_one_char_match :
  m_start one_char_match < m_end one_char_match
  /\ m_end one_char_match - m_start one_char_match = 1
  /\ replacement "[REDACTED-XXX]" one_char_match = "[]"
  /\ len (replacement "[REDACTED-XXX]" one_char_match) = 2
  /\ redact_pii "a1b" [one_char_match] "[REDACTED-XXX]" = "a[]b".
Proof. repeat split; reflexivity. Qed.

(* ================================================================== *)
(** * Properties of the decision *)
(* ================================================================== *)

Lemma should_block_spec (violations : list PolicyViolation) :
  should_block violations = true <-> exists v, In v violations /\ v_action v = BLOCK.
Proof.
  unfold should_block. rewrite existsb_exists. split; intros (v & Hin & Hv); exists v; split; auto.
  - destruct (v_action v); simpl in Hv; congruence.
  - rewrite Hv. reflexivity.
Qed.

Lemma scan_result_fields (prompt redacted_prompt : string) (pii_matches : list PIIMatch)
  (policy_violations : list PolicyViolation) (action : string) (response : value) :
  scan_result prompt redacted_prompt pii_matches policy_violations action = Ok response ->
  value_get response "original_prompt" = VStr prompt
  /\ value_get response "redacted_prompt"
     = (if negb (String.eqb action "blocked") then VStr redacted_prompt else VNone)
  /\ value_get response "action" = VStr action
  /\ value_get response "safe_to_send" = VBool (negb (String.eqb action "blocked")).
Proof.
  unfold scan_result. intros Hr.
  destruct (get_pii_summary pii_matches) as [pii_summary|]; [|discriminate].
  destruct (get_policy_summary policy_violations) as [policy_summary|]; [|discriminate].
  injection Hr as <-. repeat split; reflexivity.
Qed.

(** C4: the action is [blocked] exactly when some violation carries the
    action block, [warned] exactly when there are violations and none of
    them blocks, [allowed] exactly when there is no violation; the findings
    have no part in it, whatever they are the response carries this
    action. *)
Theorem scan_action_policy (findings : list PIIMatch) (violations : list PolicyViolation) :
  (scan_action violations = "blocked"
   <-> exists v, In v violations /\ v_action v = BLOCK)
  /\ (scan_action violations = "warned"
      <-> violations <> [] /\ forall v, In v violations -> v_action v <> BLOCK)
  /\ (scan_action violations = "allowed" <-> violations = [])
  /\ (forall prompt redacted_prompt response,
        scan_result prompt redacted_prompt findings violations (scan_action violations)
        = Ok response ->
        value_get response "action" = VStr (scan_action violations)).
Proof.
  unfold scan_action. pose proof (should_block_spec violations) as Hb.
  destruct (should_block violations) eqn:B.
  - assert (Hex : exists v, In v violations /\ v_action v = BLOCK) by (apply Hb; reflexivity).
    split; [tauto|]. split; [|split].
    + split; [discriminate|]. intros [_ Hnone]. destruct Hex as (v & Hin & Hv).
      exfalso. exact (Hnone v Hin Hv).
    + split; [discriminate|]. intros ->. destruct Hex as (v & [] & _).
    + intros p rp response Hr. apply scan_result_fields in Hr. tauto.
  - assert (Hno : forall v, In v violations -> v_action v <> BLOCK).
    { intros v Hin Hv. assert (false = true) by (apply Hb; eauto). discriminate. }
    split; [|split; [|split]].
    + split; [destruct violations; discriminate|]. intros H. apply Hb in H. discriminate.
    + destruct violations as [|v l].
      * split; [discriminate | intros [Hne _]; congruence].
      * split; [intros _; split; [discriminate | exact Hno] | reflexivity].
    + destruct violations as [|v l]; split; try discriminate; reflexivity.
    + intros p rp response Hr. apply scan_result_fields in Hr. tauto.
Qed.

(* ================================================================== *)
(** * Properties of the handlers *)
(* ================================================================== *)

Lemma configure_step_dom (cfg : gmap string value) (kv : string * value) :
  dom (configure_step cfg kv) = dom cfg.
Proof.
  unfold configure_step. destruct (decide (is_Some (cfg !! kv.1))) as [Hk|Hk]; [|reflexivity].
  rewrite dom_insert_L. apply subseteq_union_1_L, singleton_subseteq_l, elem_of_dom, Hk.
Qed.

Lemma configure_fold_dom (args : list (string * value)) (cfg : gmap string value) :
  dom (fold_left configure_step args cfg) = dom cfg.
Proof.
  revert cfg. induction args as [|kv args IH]; intros cfg; simpl; [reflexivity|].
  rewrite IH. apply configure_step_dom.
Qed.

(** A key that no argument names keeps its value. *)
Lemma configure_fold_frame (args : list (string * value)) (cfg : gmap string value)
  (key : string) :
  ~ In key (List.map fst args) ->
  fold_left configure_step args cfg !! key = cfg !! key.
Proof.
  revert cfg. induction args as [|kv args IH]; intros cfg Hkey; simpl; [reflexivity|].
  simpl in Hkey. rewrite IH by tauto. unfold configure_step.
  destruct (decide (is_Some (cfg !! kv.1))); [|reflexivity].
  apply lookup_insert_ne. tauto.
Qed.

(** A key of the configuration that an argument names takes the
    argument's value. *)
Lemma configure_fold_update (args : list (string * value)) (cfg : gmap string value)
  (key : string) (v : value) :
  NoDup (List.map fst args) -> In (key, v) args -> is_Some (cfg !! key) ->
  fold_left configure_step args cfg !! key = Some v.
Proof.
  revert cfg. induction args as [|kv args IH]; intros cfg Hnd Hin Hsome; [destruct Hin|].
  simpl in Hnd. apply NoDup_cons in Hnd. destruct Hnd as [Hkv Hnd].
  simpl. destruct Hin as [-> | Hin].
  - rewrite configure_fold_frame.
    + unfold configure_step. simpl. destruct (decide (is_Some (cfg !! key))); [|contradiction].
      apply lookup_insert_eq.
    + intros Hin. apply Hkv. apply list_elem_of_In. exact Hin.
  - apply IH; [exact Hnd | exact Hin |].
    apply elem_of_dom. rewrite configure_step_dom. apply elem_of_dom. exact Hsome.
Qed.

(** C10: [_configure] leaves the set of configuration keys as it was: a
    key of the arguments that the configuration does not have is ignored
    and stays absent, a key that no argument names keeps its value, a key
    of the configuration that the arguments name takes their value; the
    answer has status [updated] and carries the whole resulting
    configuration; the database is not touched. *)
Theorem configure_keeps_keys (self : AIGovernanceMCP) (args : list (string * value)) :
  dom (config (fst (_configure self args))) = dom (config self)
  /\ (forall key, config self !! key = None ->
        config (fst (_configure self args)) !! key = None)
  /\ (forall key, ~ In key (List.map fst args) ->
        config (fst (_configure self args)) !! key = config self !! key)
  /\ (forall key v, NoDup (List.map fst args) -> In (key, v) args ->
        is_Some (config self !! key) ->
        config (fst (_configure self args)) !! key = Some v)
  /\ status (snd (_configure self args)) = "updated"
  /\ configuration (snd (_configure self args)) = config (fst (_configure self args))
  /\ db (fst (_configure self args)) = db self.
Proof.
  unfold _configure. cbn [fst snd config status configuration db].
  split; [apply configure_fold_dom|].
  split.
  { intros key Hnone. apply not_elem_of_dom. rewrite configure_fold_dom.
    apply not_elem_of_dom. exact Hnone. }
  split; [intros key Hkey; apply configure_fold_frame; exact Hkey|].
  split; [intros key v; apply configure_fold_update|].
  repeat split; reflexivity.
Qed.

(** C9: a prompt longer than the configured maximum is answered with the
    error response, and the server, its database included, is left exactly
    as it was: no record is appended and no counter changes. *)
Theorem scan_prompt_oversize (engine : ReEngine) (w : writers) (self : AIGovernanceMCP)
  (clk : clock) (args : scan_args) (max_length : Z) :
  dict_get (config self) "max_prompt_length" (VInt 10000) = VInt max_length ->
  max_length < len (default EmptyString (arg_prompt args)) ->
  @_scan_prompt engine w self clk args
  = (self,
     Ok (VDict [ ("error", VStr "Prompt exceeds maximum length");
                 ("max_length", dict_get (config self) "max_prompt_length" VNone) ]))
  /\ audit_log (db (fst (@_scan_prompt engine w self clk args))) = audit_log (db self)
  /\ statistics (db (fst (@_scan_prompt engine w self clk args))) = statistics (db self).
Proof.
  intros Hmax Hlen.
  assert (E : @_scan_prompt engine w self clk args
              = (self,
                 Ok (VDict [ ("error", VStr "Prompt exceeds maximum length");
                             ("max_length", dict_get (config self) "max_prompt_length" VNone) ]))).
  { unfold _scan_prompt. rewrite Hmax. cbn [int_gt].
    apply Z.ltb_lt in Hlen. rewrite Hlen. reflexivity. }
  rewrite E. repeat split; reflexivity.
Qed.

(** The theorem at a prompt of 10001 characters under the default
    configuration. *)
Lemma scan_prompt_oversize_witness :
  @_scan_prompt worked_engine sqlite fresh_server worked_clock long_prompt_args
  = (fresh_server,
     Ok (VDict [ ("error", VStr "Prompt exceeds maximum length");
                 ("max_length", dict_get (config fresh_server) "max_prompt_length" VNone) ]))
  /\ audit_log (db (fst (@_scan_prompt worked_engine sqlite fresh_server worked_clock long_prompt_args)))
     = audit_log (db fresh_server)
  /\ statistics (db (fst (@_scan_prompt worked_engine sqlite fresh_server worked_clock long_prompt_args)))
     = statistics (db fresh_server).
Proof.
  apply (scan_prompt_oversize worked_engine sqlite fresh_server worked_clock long_prompt_args
           10000).
  - reflexivity.
  - vm_compute. reflexivity.
Defined.

Lemma context_get_dict_set (d : list (string * value)) (key key' : string) (x : value) :
  key <> key' -> context_get (dict_set key x d) key' = context_get d key'.
Proof.
  intros Hne. unfold context_get. induction d as [|[k v] d IH]; simpl.
  - destruct (String.eqb_spec key key'); [contradiction | reflexivity].
  - destruct (String.eqb_spec key k) as [->|Hk]; simpl.
    + destruct (String.eqb_spec k key'); [contradiction | reflexivity].
    + destruct (String.eqb_spec k key'); [reflexivity | exact IH].
Qed.

Lemma value_get_value_set (r : value) (key key' : string) (x : value) :
  key <> key' -> value_get (value_set r key x) key' = value_get r key'.
Proof.
  intros Hne. destruct r; try reflexivity. simpl. apply context_get_dict_set, Hne.
Qed.

Section Scan.
Context `{ReEngine}.

Lemma scan_response_fields (cfg : gmap string value) (prompt : string) (auto_redact : value)
  (response : value) (redacted_prompt action : string) :
  scan_response cfg prompt auto_redact = Ok (response, redacted_prompt, action) ->
  value_get response "original_prompt" = VStr prompt
  /\ value_get response "redacted_prompt"
     = (if negb (String.eqb action "blocked") then VStr redacted_prompt else VNone)
  /\ value_get response "action" = VStr action
  /\ value_get response "safe_to_send" = VBool (negb (String.eqb action "blocked")).
Proof.
  unfold scan_response. intros Hr.
  match type of Hr with
  | context [mbind _ ?r] => destruct r as [rp|]; [|discriminate]
  end.
  cbn [mbind result_bind bind] in Hr.
  match type of Hr with
  | context [scan_result ?a ?b ?c ?d ?e] =>
    destruct (scan_result a b c d e) as [resp|] eqn:Hres; [|discriminate]
  end.
  cbn [mbind result_bind bind] in Hr. injection Hr as <- <- <-.
  exact (scan_result_fields _ _ _ _ _ _ Hres).
Qed.

(** What every response of a scan carries, error response apart. *)
Lemma scan_prompt_fields (w : writers) (self : AIGovernanceMCP) (clk : clock)
  (args : scan_args) (r : value) (action : string) :
  snd (_scan_prompt w self clk args) = Ok r ->
  value_get r "action" = VStr action ->
  value_get r "original_prompt" = VStr (default EmptyString (arg_prompt args))
  /\ (action = "blocked" -> value_get r "redacted_prompt" = VNone)
  /\ value_get r "safe_to_send" = VBool (negb (String.eqb action "blocked")).
Proof.
  unfold _scan_prompt. intros Hr Hact.
  destruct (int_gt _ _) as [[|]|]; cbn [snd] in Hr; [| |discriminate].
  - injection Hr as <-. discriminate Hact.
  - destruct (scan_response _ _ _) as [[[response rp] act]|] eqn:Hs;
      cbn [snd] in Hr; [|discriminate].
    apply scan_response_fields in Hs. destruct Hs as (H1 & H2 & H3 & H4).
    assert (Hall : value_get r "original_prompt" = value_get response "original_prompt"
                   /\ value_get r "redacted_prompt" = value_get response "redacted_prompt"
                   /\ value_get r "action" = value_get response "action"
                   /\ value_get r "safe_to_send" = value_get response "safe_to_send").
    { destruct (truthy _).
      - destruct (append_entry _ _ _ _) as [db' [h|e]]; cbn [snd] in Hr; [|discriminate].
        injection Hr as <-. rewrite !value_get_value_set by discriminate. tauto.
      - cbn [snd] in Hr. injection Hr as <-. tauto. }
    destruct Hall as (G1 & G2 & G3 & G4).
    rewrite G3, H3 in Hact. injection Hact as ->.
    rewrite G1, G2, G4, H1, H2, H4. repeat split. intros ->. reflexivity.
Qed.

End Scan.

(** C1, counterexample: the blocked scan of the scenario returns the
    scanned text in [original_prompt]. *)
Lemma scan_prompt_blocked_returns_original :
  exists r,
    snd (@_scan_prompt worked_engine sqlite quiet_server worked_clock medication_args) = Ok r
    /\ value_get r "action" = VStr "blocked"
    /\ value_get r "original_prompt" = VStr "What medication should I take?".
Proof. eexists. split; [vm_compute; reflexivity|]. split; reflexivity. Qed.

(** C1, as amended: when the action of a scan is [blocked], the response
    carries no redacted text ([redacted_prompt] is [None]) and is marked
    unsafe to send; the original text is still in the response, in
    [original_prompt]. *)
Theorem scan_prompt_blocked_suppresses_redacted (engine : ReEngine) (w : writers)
  (self : AIGovernanceMCP) (clk : clock) (args : scan_args) (r : value) :
  snd (@_scan_prompt engine w self clk args) = Ok r ->
  value_get r "action" = VStr "blocked" ->
  value_get r "redacted_prompt" = VNone
  /\ value_get r "safe_to_send" = VBool false
  /\ value_get r "original_prompt" = VStr (default EmptyString (arg_prompt args)).
Proof.
  intros Hr Hact.
  destruct (@scan_prompt_fields engine w self clk args r "blocked" Hr Hact) as (H1 & H2 & H3).
  split; [apply H2; reflexivity|]. split; [exact H3 | exact H1].
Qed.

(** The theorem at the medication scenario. *)
Lemma scan_prompt_blocked_witness :
  value_get medication_response "redacted_prompt" = VNone
  /\ value_get medication_response "safe_to_send" = VBool false
  /\ value_get medication_response "original_prompt" = VStr medication_text.
Proof.
  apply (scan_prompt_blocked_suppresses_redacted
           worked_engine sqlite quiet_server worked_clock medication_args medication_response).
  - vm_compute. reflexivity.
  - vm_compute. reflexivity.
Defined.

(* ================================================================== *)
(** * Properties of the ledger *)
(* ================================================================== *)

Lemma calculate_hash_ext (d1 d2 : gmap string value) (prev : string) :
  dict_get d1 "timestamp" VNone = dict_get d2 "timestamp" VNone ->
  dict_get d1 "event_type" VNone = dict_get d2 "event_type" VNone ->
  dict_get d1 "original_text" VNone = dict_get d2 "original_text" VNone ->
  dict_get d1 "action_taken" VNone = dict_get d2 "action_taken" VNone ->
  calculate_hash d1 prev = calculate_hash d2 prev.
Proof. unfold calculate_hash. intros -> -> -> ->. reflexivity. Qed.

Lemma entry_data_get (r : audit_row) :
  dict_get (entry_data r) "timestamp" VNone = VStr (row_timestamp r)
  /\ dict_get (entry_data r) "event_type" VNone = VStr (row_event_type r)
  /\ dict_get (entry_data r) "original_text" VNone = column_value (row_original_text r)
  /\ dict_get (entry_data r) "action_taken" VNone = column_value (row_action_taken r).
Proof. unfold entry_data, dict_get. repeat split; reflexivity. Qed.

(** The verifier reads a row through six of its columns only. *)
Lemma entry_data_columns (r r' : audit_row) :
  verified_columns r' = verified_columns r -> entry_data r' = entry_data r.
Proof. unfold verified_columns, entry_data. intros [= _ -> -> -> -> _]. reflexivity. Qed.

(** What the INSERT stores of an entry whose hashed fields are stored as
    they are hashed. *)
Lemma insert_row_stored (clk : clock) (entry : gmap string value) (d : database)
  (entry_hash prev_hash : string) (row : audit_row) :
  hashed_fields_stored entry = true ->
  insert_row clk entry d entry_hash prev_hash = Ok row ->
  (forall prev, calculate_hash (entry_data row) prev = calculate_hash entry prev)
  /\ row_hash row = entry_hash
  /\ row_prev_hash row = Some prev_hash
  /\ row_id row = next_id d.
Proof.
  unfold hashed_fields_stored, insert_row, dict_get. intros Hs Hrow.
  destruct (entry !! "timestamp") as [[| | |ts| |]|] eqn:Ets; try discriminate Hs.
  destruct (entry !! "event_type") as [[| | |ev| |]|] eqn:Eev; try discriminate Hs.
  destruct (entry !! "action_taken") as [[| | |act| |]|] eqn:Eact;
    try (rewrite andb_false_r in Hs; discriminate Hs).
  all: destruct (entry !! "original_text") as [[| | |ot| |]|] eqn:Eot; try discriminate Hs.
  all: cbn [default text_column sql_bind text_affinity mbind mret result_bind bind] in Hrow.
  all: destruct (text_column (default VNone (entry !! "redacted_text"))) as [c1|];
    cbn [mbind result_bind bind] in Hrow; [|discriminate Hrow].
  all: destruct (text_column (default VNone (entry !! "user_id"))) as [c2|];
    cbn [mbind result_bind bind] in Hrow; [|discriminate Hrow].
  all: destruct (text_column (default VNone (entry !! "session_id"))) as [c3|];
    cbn [mbind result_bind bind not_null] in Hrow; [|discriminate Hrow].
  all: injection Hrow as <-; cbn [row_hash row_prev_hash row_id].
  all: split; [|repeat split; reflexivity].
  all: intros prev; apply calculate_hash_ext; unfold dict_get; rewrite ?Ets, ?Eev, ?Eact, ?Eot;
    reflexivity.
Qed.

Lemma update_statistics_log (w : writers) (pending : bool) (clk : clock)
  (entry : gmap string value) (d d' : database) :
  _update_statistics w pending clk entry d = Ok d' ->
  audit_log d' = audit_log d /\ audit_seq d' = audit_seq d.
Proof.
  unfold _update_statistics. intros Hu.
  destruct (py_len (dict_get entry "pii_detected" (VList []))) as [n1|];
    cbn [mbind result_bind bind] in Hu; [|discriminate].
  destruct (py_len (dict_get entry "policy_violations" (VList []))) as [n2|];
    cbn [mbind result_bind bind] in Hu; [|discriminate].
  destruct (write_lock w pending) as [[]|]; cbn [mbind result_bind bind] in Hu; [|discriminate].
  injection Hu as <-. split; reflexivity.
Qed.

(** A call that returns has committed twice, the statistics first. *)
Lemma add_audit_entry_returns (w : writers) (clk : clock) (entry : gmap string value)
  (d : database) (commits : list database) (h : string) :
  add_audit_entry w clk entry d = (commits, Ok h) ->
  exists row d_stats,
    h = calculate_hash entry (default "genesis" (select_last_hash d))
    /\ insert_row clk entry d h (default "genesis" (select_last_hash d)) = Ok row
    /\ _update_statistics w true clk entry d = Ok d_stats
    /\ commits = [d_stats; commit_insert row d_stats].
Proof.
  unfold add_audit_entry. intros Ha.
  destruct (insert_row _ _ _ _ _) as [row|] eqn:Hrow; [|discriminate].
  destruct (_update_statistics _ _ _ _ _) as [d_stats|] eqn:Hst; [|discriminate].
  injection Ha as <- <-. exists row, d_stats. repeat split; assumption.
Qed.


Lemma append_entry_returns (w : writers) (clk : clock) (entry : gmap string value)
  (d d' : database) (h : string) :
  append_entry w clk entry d = (d', Ok h) ->
  exists row,
    h = calculate_hash entry (default "genesis" (select_last_hash d))
    /\ insert_row clk entry d h (default "genesis" (select_last_hash d)) = Ok row
    /\ audit_log d' = audit_log d ++ [row].
Proof.
  unfold append_entry. intros Ha.
  destruct (add_audit_entry w clk entry d) as [commits res] eqn:Hadd.
  cbn [fst snd] in Ha. injection Ha as <- ->.
  apply add_audit_entry_returns in Hadd. destruct Hadd as (row & d_stats & Hh & Hrow & Hst & ->).
  exists row. split; [exact Hh|]. split; [exact Hrow|].
  apply update_statistics_log in Hst. destruct Hst as [Hlog _].
  cbn [committed List.last commit_insert audit_log]. rewrite Hlog. reflexivity.
Qed.

Lemma fold_max_ge (l : list Z) (a : Z) :
  a <= fold_left Z.max l a /\ Forall (fun x => x <= fold_left Z.max l a) l.
Proof.
  revert a. induction l as [|x l IH]; intros a; simpl; [split; [lia | constructor]|].
  destruct (IH (Z.max a x)) as [H1 H2]. split; [lia|].
  constructor; [lia | exact H2].
Qed.

Lemma next_id_fresh (d : database) :
  Forall (fun r => row_id r < next_id d) (audit_log d).
Proof.
  unfold next_id. destruct (fold_max_ge (List.map row_id (audit_log d)) (audit_seq d)) as [_ H].
  rewrite List.Forall_map in H. eapply List.Forall_impl; [|exact H]. intros r Hr. simpl in Hr. lia.
Qed.

Lemma StronglySorted_snoc {A : Type} (R : A -> A -> Prop) (l : list A) (x : A) :
  StronglySorted R l -> Forall (fun a => R a x) l -> StronglySorted R (l ++ [x]).
Proof.
  induction 1 as [|y l Hl IH Hy]; intros Hx; simpl.
  - constructor; constructor.
  - inversion Hx as [|? ? Hyx Hlx]; subst. constructor; [apply IH, Hlx|].
    apply List.Forall_app. split; [exact Hy | constructor; [exact Hyx | constructor]].
Qed.

Lemma last_hash_snoc (prev : string) (rows : list audit_row) (r : audit_row) :
  last_hash prev (rows ++ [r]) = row_hash r.
Proof. unfold last_hash. rewrite last_snoc. reflexivity. Qed.

Lemma last_hash_cons (prev : string) (r : audit_row) (rows : list audit_row) :
  last_hash prev (r :: rows) = last_hash (row_hash r) rows.
Proof.
  unfold last_hash. destruct rows as [|r' rows]; [reflexivity|].
  rewrite last_cons. destruct (last (r' :: rows)); reflexivity.
Qed.

Lemma chain_from_snoc (prev : string) (rows : list audit_row) (r : audit_row) :
  chain_from prev (rows ++ [r])
  <-> chain_from prev rows /\ row_hash r = calculate_hash (entry_data r) (last_hash prev rows).
Proof.
  revert prev. induction rows as [|x rows IH]; intros prev; simpl.
  - unfold last_hash. simpl. tauto.
  - rewrite IH, last_hash_cons. tauto.
Qed.

Lemma linked_from_snoc (prev : string) (rows : list audit_row) (r : audit_row) :
  linked_from prev (rows ++ [r])
  <-> linked_from prev rows /\ row_prev_hash r = Some (last_hash prev rows).
Proof.
  revert prev. induction rows as [|x rows IH]; intros prev; simpl.
  - unfold last_hash. simpl. tauto.
  - rewrite IH, last_hash_cons. tauto.
Qed.

Lemma StronglySorted_impl {A : Type} (R S : A -> A -> Prop) (l : list A) :
  (forall a b, R a b -> S a b) -> StronglySorted R l -> StronglySorted S l.
Proof.
  intros HRS. induction 1 as [|x l _ IH Hx]; constructor; [exact IH|].
  eapply List.Forall_impl; [|exact Hx]. intros b. apply HRS.
Qed.

(** Rows with increasing ids are read in the order they are stored. *)
Lemma order_by_id_sorted (rows : list audit_row) :
  StronglySorted (fun a b => row_id a < row_id b) rows -> order_by_id rows = rows.
Proof.
  intros Hs. apply (stable_sort_of_sorted row_id).
  eapply StronglySorted_impl; [|exact Hs]. intros a b Hab. simpl in Hab. lia.
Qed.

Lemma select_last_hash_sorted (d : database) :
  StronglySorted (fun a b => row_id a < row_id b) (audit_log d) ->
  default "genesis" (select_last_hash d) = last_hash "genesis" (audit_log d).
Proof.
  intros Hs. unfold select_last_hash, last_hash. rewrite order_by_id_sorted by exact Hs.
  destruct (last (audit_log d)); reflexivity.
Qed.

(** One append keeps the ledger in order and linked. *)
Lemma append_entry_ok (w : writers) (clk : clock) (entry : gmap string value)
  (d d' : database) (h : string) :
  ledger_ok d -> hashed_fields_stored entry = true ->
  append_entry w clk entry d = (d', Ok h) ->
  ledger_ok d' /\ length (audit_log d') = S (length (audit_log d)).
Proof.
  intros (Hsort & Hchain & Hlink) Hstored Ha.
  apply append_entry_returns in Ha. destruct Ha as (row & Hh & Hrow & Hlog).
  destruct (insert_row_stored _ _ _ _ _ _ Hstored Hrow) as (Hdata & Hhash & Hprev & Hid).
  rewrite select_last_hash_sorted in Hh, Hprev by exact Hsort.
  unfold ledger_ok. rewrite Hlog. split; [|rewrite length_app; simpl; lia].
  split; [|split].
  - apply StronglySorted_snoc; [exact Hsort|]. rewrite Hid.
    eapply List.Forall_impl; [|apply next_id_fresh]. intros r Hr. simpl in Hr. lia.
  - apply chain_from_snoc. split; [exact Hchain|]. rewrite Hdata, Hhash. exact Hh.
  - apply linked_from_snoc. split; [exact Hlink | exact Hprev].
Qed.

Lemma appended_ok (w : writers) (calls : list (clock * gmap string value)) :
  forall d d',
    ledger_ok d ->
    Forall (fun call => hashed_fields_stored (snd call) = true) calls ->
    appended w d calls = Some d' ->
    ledger_ok d' /\ length (audit_log d') = (length (audit_log d) + length calls)%nat.
Proof.
  induction calls as [|call calls IH]; intros d d' Hok Hall Happ; cbn [appended] in Happ.
  - injection Happ as <-. split; [exact Hok | simpl; lia].
  - inversion Hall as [|? ? Hcall Hrest]; subst.
    destruct (append_entry w call.1 call.2 d) as [d1 [h|e]] eqn:Ha; [|discriminate].
    destruct (append_entry_ok _ _ _ _ _ _ Hok Hcall Ha) as [Hok1 Hlen1].
    destruct (IH d1 d' Hok1 Hrest Happ) as [Hok' Hlen']. split; [exact Hok'|].
    rewrite Hlen', Hlen1. simpl. lia.
Qed.

Lemma empty_database_ok : ledger_ok empty_database.
Proof. repeat split; constructor. Qed.

(** The loop of the verifier over rows that are chained: nothing is
    reported, and the hash carried on is the last stored one. *)
Lemma verify_fold_chain (rows : list audit_row) :
  forall (v : bool) (inv : list invalid_entry) (prev : string),
    chain_from prev rows ->
    fold_left verify_step rows (v, inv, prev) = (v, inv, last_hash prev rows).
Proof.
  induction rows as [|r rows IH]; intros v inv prev Hc; [reflexivity|].
  destruct Hc as [Hr Hc]. cbn [fold_left]. unfold verify_step at 2.
  rewrite <- Hr, String.eqb_refl. cbn [negb]. rewrite IH by exact Hc.
  rewrite last_hash_cons. reflexivity.
Qed.

Lemma verify_ledger_ok (d : database) :
  ledger_ok d ->
  verify_hash_chain None d
  = {| valid := true;
       entries_checked := Z.of_nat (length (audit_log d));
       invalid_entries := [];
       message := "Hash chain is intact" |}.
Proof.
  intros (Hsort & Hchain & _). unfold verify_hash_chain, select_ordered.
  rewrite order_by_id_sorted by exact Hsort.
  rewrite verify_fold_chain by exact Hchain. reflexivity.
Qed.



(** The statistics are written while the INSERT is uncommitted: on SQLite
    every call of [add_audit_entry] raises and commits nothing. *)
Lemma add_audit_entry_locked (clk : clock) (entry : gmap string value) (d : database) :
  exists e, add_audit_entry sqlite clk entry d = ([], Raise e).
Proof.
  unfold add_audit_entry.
  destruct (insert_row _ _ _ _ _) as [row|e]; [|exists e; reflexivity].
  unfold _update_statistics.
  destruct (py_len (dict_get entry "pii_detected" (VList []))) as [n1|e1];
    cbn [mbind result_bind bind]; [|exists e1; reflexivity].
  destruct (py_len (dict_get entry "policy_violations" (VList []))) as [n2|e2];
    cbn [mbind result_bind bind]; [|exists e2; reflexivity].
  eexists. reflexivity.
Qed.

(** On SQLite no run of appends gets a record into the ledger. *)
Lemma appended_sqlite_nil (calls : list (clock * gmap string value)) (d d' : database) :
  appended sqlite d calls = Some d' -> calls = [] /\ d' = d.
Proof.
  destruct calls as [|call calls]; cbn [appended].
  - intros [= ->]. split; reflexivity.
  - unfold append_entry.
    destruct (add_audit_entry_locked call.1 call.2 d) as [e ->]. discriminate.
Qed.

(** C3, the failing inputs.  On SQLite no record can be appended: the
    append of the repository's own test entry raises, the ledger stays
    empty and the verifier counts no record.  Where the write of the
    statistics is admitted, an entry without [action_taken] is hashed with
    [null] in that place and stored with the default [allowed]; the verifier
    recomputes the hash from the stored row and reports the record. *)
Theorem append_then_verify_fails :
  (forall calls d, appended sqlite empty_database calls = Some d -> calls = [])
  /\ add_audit_entry sqlite worked_clock test_entry empty_database
     = ([], Raise "sqlite3.OperationalError")
  /\ verify_hash_chain None (fst (append_entry sqlite worked_clock test_entry empty_database))
     = {| valid := true;
          entries_checked := 0;
          invalid_entries := [];
          message := "Hash chain is intact" |}
  /\ exists d,
       appended many_writers empty_database [(worked_clock, entry_without_action)] = Some d
       /\ List.map row_action_taken (audit_log d) = [Some "allowed"]
       /\ verify_hash_chain None d
          = {| valid := false;
               entries_checked := 1;
               invalid_entries :=
                 [ {| inv_id := 1;
                      inv_expected_hash :=
                        "235faabfd5bcffad1fddc90542425ad7e6ebde2259caa85ea53c91be7395631d";
                      inv_actual_hash :=
                        "410dce60e9bec10fe9101680e3e6aa27dbffcf18a7ef90d8d9be126571986708" |} ];
               message := "Found 1 invalid entries" |}.
Proof.
  split; [intros calls d Hd; exact (proj1 (appended_sqlite_nil _ _ _ Hd))|].
  split; [vm_compute; reflexivity|]. split; [vm_compute; reflexivity|].
  eexists. split; [vm_compute; reflexivity|]. split; vm_compute; reflexivity.
Qed.

(* ------------------------------------------------------------------ *)
(** ** Mutating a stored row *)

Lemma chain_from_app (prev : string) (l1 l2 : list audit_row) :
  chain_from prev (l1 ++ l2) <-> chain_from prev l1 /\ chain_from (last_hash prev l1) l2.
Proof.
  revert prev. induction l1 as [|x l1 IH]; intros prev; simpl.
  - unfold last_hash. simpl. tauto.
  - rewrite IH, last_hash_cons. tauto.
Qed.

Lemma last_hash_take (rows : list audit_row) (k : nat) (r : audit_row) :
  rows !! k = Some r -> last_hash "genesis" (take k rows) = hash_before rows k.
Proof.
  intros Hk. destruct k as [|j]; [reflexivity|].
  assert (Hj : is_Some (rows !! j)).
  { apply lookup_lt_is_Some. apply lookup_lt_Some in Hk. lia. }
  destruct Hj as [x Hx]. rewrite (take_S_r _ _ _ Hx), last_hash_snoc.
  unfold hash_before. rewrite Hx. reflexivity.
Qed.

(** In a chained ledger the stored hash at position [k] is the hash of the
    row there and of the hash that stands before it. *)
Lemma chain_from_lookup (rows : list audit_row) (k : nat) (r : audit_row) :
  chain_from "genesis" rows -> rows !! k = Some r ->
  chain_from "genesis" (take k rows)
  /\ row_hash r = calculate_hash (entry_data r) (hash_before rows k).
Proof.
  intros Hc Hk. rewrite <- (take_drop_middle _ _ _ Hk) in Hc.
  apply chain_from_app in Hc. destruct Hc as [H1 [H2 _]].
  rewrite (last_hash_take _ _ _ Hk) in H2. split; assumption.
Qed.

Lemma insert_same_key_sorted (rows : list audit_row) :
  forall (k : nat) (r r' : audit_row),
    StronglySorted (fun a b => row_id a < row_id b) rows ->
    rows !! k = Some r -> row_id r' = row_id r ->
    StronglySorted (fun a b => row_id a < row_id b) (<[k := r']> rows).
Proof.
  induction rows as [|x rows IH]; intros k r r' Hs Hk Hid; [discriminate|].
  inversion Hs as [|? ? Hrows Hx]; subst. destruct k as [|j]; simpl in *.
  - injection Hk as ->. constructor; [exact Hrows|].
    eapply List.Forall_impl; [|exact Hx]. intros b Hb. simpl in Hb. lia.
  - constructor; [eapply IH; eassumption|].
    apply Forall_insert; [exact Hx|]. rewrite Hid.
    exact (Forall_lookup_1 _ _ _ _ Hx Hk).
Qed.

Lemma verify_step_columns (st : bool * list invalid_entry * string) (r r' : audit_row) :
  verified_columns r' = verified_columns r -> verify_step st r' = verify_step st r.
Proof.
  intros Hc. unfold verify_step. rewrite (entry_data_columns _ _ Hc).
  unfold verified_columns in Hc. injection Hc as -> _ _ _ _ ->. reflexivity.
Qed.

(** What the verifier has reported stays reported. *)
Lemma verify_fold_keeps (rows : list audit_row) :
  forall (st : bool * list invalid_entry * string) (x : invalid_entry),
    In x (snd (fst st)) -> In x (snd (fst (fold_left verify_step rows st))).
Proof.
  induction rows as [|r rows IH]; intros st x Hx; [exact Hx|].
  cbn [fold_left]. apply IH. destruct st as [[v inv] prev]. unfold verify_step.
  destruct (negb _); cbn [fst snd] in *; [apply in_or_app; left|]; exact Hx.
Qed.

Lemma verify_invalid_entries (limit : option Z) (d : database) :
  invalid_entries (verify_hash_chain limit d)
  = snd (fst (fold_left verify_step (select_ordered limit d) (true, [], "genesis"))).
Proof.
  unfold verify_hash_chain.
  destruct (fold_left verify_step (select_ordered limit d) (true, [], "genesis")) as [[v inv] p].
  reflexivity.
Qed.

(** A row whose recomputed hash differs from its stored hash is reported. *)
Lemma verify_reports_mismatch (d : database) (k : nat) (r r' : audit_row) :
  ledger_ok d -> audit_log d !! k = Some r -> row_id r' = row_id r ->
  calculate_hash (entry_data r') (hash_before (audit_log d) k) <> row_hash r' ->
  In (row_id r)
     (List.map inv_id (invalid_entries (verify_hash_chain None (store_row k r' d)))).
Proof.
  intros (Hsort & Hchain & _) Hk Hid Hne.
  rewrite verify_invalid_entries. unfold select_ordered, store_row. cbn [audit_log].
  rewrite order_by_id_sorted by (eapply insert_same_key_sorted; eassumption).
  rewrite insert_take_drop by (eapply lookup_lt_Some; exact Hk).
  rewrite fold_left_app. destruct (chain_from_lookup _ _ _ Hchain Hk) as [Hpre _].
  rewrite (verify_fold_chain _ _ _ _ Hpre), (last_hash_take _ _ _ Hk).
  cbn [fold_left]. apply in_map_iff.
  exists {| inv_id := row_id r';
            inv_expected_hash := calculate_hash (entry_data r') (hash_before (audit_log d) k);
            inv_actual_hash := row_hash r' |}.
  split; [exact Hid|]. apply verify_fold_keeps. unfold verify_step.
  destruct (String.eqb_spec (calculate_hash (entry_data r') (hash_before (audit_log d) k))
                            (row_hash r')) as [Heq|_]; [contradiction|].
  cbn [negb fst snd app]. left. reflexivity.
Qed.

(** A row that differs only in columns the verifier does not read is
    verified like the row it replaces. *)
Lemma verify_ignores_other_columns (d : database) (k : nat) (r r' : audit_row) :
  ledger_ok d -> audit_log d !! k = Some r ->
  verified_columns r' = verified_columns r ->
  verify_hash_chain None (store_row k r' d) = verify_hash_chain None d.
Proof.
  intros (Hsort & Hchain & _) Hk Hc.
  assert (Hid : row_id r' = row_id r) by (unfold verified_columns in Hc; congruence).
  unfold verify_hash_chain, select_ordered, store_row. cbn [audit_log].
  rewrite order_by_id_sorted by (eapply insert_same_key_sorted; eassumption).
  rewrite (order_by_id_sorted _ Hsort), length_insert.
  rewrite insert_take_drop by (eapply lookup_lt_Some; exact Hk).
  rewrite <- (take_drop_middle _ _ _ Hk) at 3.
  rewrite !fold_left_app. cbn [fold_left]. rewrite (verify_step_columns _ _ _ Hc). reflexivity.
Qed.

(** Whatever the verifier reports is the id of a row it has read. *)
Lemma verify_fold_ids (rows : list audit_row) :
  forall (st : bool * list invalid_entry * string) (x : invalid_entry),
    In x (snd (fst (fold_left verify_step rows st))) ->
    In x (snd (fst st)) \/ In (inv_id x) (List.map row_id rows).
Proof.
  induction rows as [|r rows IH]; intros st x Hx; [left; exact Hx|].
  cbn [fold_left] in Hx. apply IH in Hx. destruct Hx as [Hx|Hx]; [|right; right; exact Hx].
  destruct st as [[v inv] prev]. unfold verify_step in Hx.
  destruct (negb _); cbn [fst snd] in *; [|left; exact Hx].
  apply in_app_or in Hx. destruct Hx as [Hx|[<-|[]]]; [left; exact Hx|].
  right. left. reflexivity.
Qed.

(** A row whose recomputed hash is its stored hash is not reported. *)
Lemma verify_silent_on_match (d : database) (k : nat) (r r' : audit_row) :
  ledger_ok d -> audit_log d !! k = Some r -> row_id r' = row_id r ->
  calculate_hash (entry_data r') (hash_before (audit_log d) k) = row_hash r' ->
  ~ In (row_id r)
       (List.map inv_id (invalid_entries (verify_hash_chain None (store_row k r' d)))).
Proof.
  intros (Hsort & Hchain & _) Hk Hid Heq Hin.
  rewrite verify_invalid_entries in Hin. unfold select_ordered, store_row in Hin.
  cbn [audit_log] in Hin.
  rewrite order_by_id_sorted in Hin by (eapply insert_same_key_sorted; eassumption).
  rewrite insert_take_drop in Hin by (eapply lookup_lt_Some; exact Hk).
  rewrite fold_left_app in Hin. destruct (chain_from_lookup _ _ _ Hchain Hk) as [Hpre _].
  rewrite (verify_fold_chain _ _ _ _ Hpre), (last_hash_take _ _ _ Hk) in Hin.
  cbn [fold_left] in Hin. unfold verify_step at 2 in Hin.
  rewrite Heq, String.eqb_refl in Hin. cbn [negb] in Hin.
  apply in_map_iff in Hin. destruct Hin as (x & Hx & Hin).
  apply verify_fold_ids in Hin. destruct Hin as [[]|Hin]. rewrite Hx in Hin.
  rewrite <- (take_drop_middle _ _ _ Hk) in Hsort.
  apply StronglySorted_app_1_r in Hsort. inversion Hsort as [|? ? _ Hlt]; subst.
  apply in_map_iff in Hin. destruct Hin as (y & Hy & Hin).
  rewrite List.Forall_forall in Hlt. specialize (Hlt y Hin). simpl in Hlt. lia.
Qed.

Lemma worked_ledger_appended :
  appended many_writers empty_database two_test_entries = Some worked_ledger
  /\ audit_log worked_ledger !! 0%nat = Some worked_row.
Proof. split; vm_compute; reflexivity. Qed.

Lemma worked_ledger_ok : ledger_ok worked_ledger.
Proof.
  apply (appended_ok many_writers two_test_entries empty_database worked_ledger).
  - exact empty_database_ok.
  - repeat constructor.
  - vm_compute. reflexivity.
Qed.

(** C2, counterexample: the redacted text of the first of two appended
    records is overwritten, and the verifier still finds the chain intact. *)
Lemma verify_misses_redacted_text :
  appended many_writers empty_database two_test_entries = Some worked_ledger
  /\ audit_log worked_ledger !! 0%nat = Some worked_row
  /\ row_redacted_text (with_redacted_text (Some "Tampered") worked_row)
     <> row_redacted_text worked_row
  /\ verify_hash_chain None
       (store_row 0 (with_redacted_text (Some "Tampered") worked_row) worked_ledger)
     = {| valid := true;
          entries_checked := 2;
          invalid_entries := [];
          message := "Hash chain is intact" |}.
Proof.
  split; [vm_compute; reflexivity|]. split; [vm_compute; reflexivity|].
  split; [discriminate | vm_compute; reflexivity].
Qed.

(** C2, as amended: in a ledger as appends leave it (ids increasing, every
    record chained to the one before), the record at position [k] is
    reported after a mutation exactly when the hash recomputed from its
    stored timestamp, event type, original text and action and from the
    stored hash before it differs from its stored hash.  So a record whose
    stored hash is replaced by another value is reported, and a change to
    any other column (redacted text, findings, violations, user and session
    id, metadata, previous hash, creation time) leaves the result of the
    verification as it was, intact. *)
Theorem verify_reports_hashed_columns (d : database) (k : nat) (r r' : audit_row) :
  ledger_ok d ->
  audit_log d !! k = Some r ->
  row_id r' = row_id r ->
  (In (row_id r)
      (List.map inv_id (invalid_entries (verify_hash_chain None (store_row k r' d))))
   <-> calculate_hash (entry_data r') (hash_before (audit_log d) k) <> row_hash r')
  /\ (entry_data r' = entry_data r -> row_hash r' <> row_hash r ->
      In (row_id r)
         (List.map inv_id (invalid_entries (verify_hash_chain None (store_row k r' d)))))
  /\ (verified_columns r' = verified_columns r ->
      verify_hash_chain None (store_row k r' d) = verify_hash_chain None d
      /\ valid (verify_hash_chain None (store_row k r' d)) = true).
Proof.
  intros Hok Hk Hid. split; [|split].
  - split.
    + intros Hin Heq. exact (verify_silent_on_match d k r r' Hok Hk Hid Heq Hin).
    + intros Hne. apply verify_reports_mismatch; assumption.
  - intros Hdata Hhash. apply verify_reports_mismatch; [exact Hok | exact Hk | exact Hid|].
    destruct Hok as (_ & Hchain & _).
    destruct (chain_from_lookup _ _ _ Hchain Hk) as [_ Hr].
    rewrite Hdata, <- Hr. intros Heq. apply Hhash. symmetry. exact Heq.
  - intros Hc. rewrite (verify_ignores_other_columns d k r r' Hok Hk Hc).
    split; [reflexivity|]. rewrite (verify_ledger_ok d Hok). reflexivity.
Qed.

(** The theorem at the first of two appended records, its original text
    overwritten. *)
Lemma verify_reports_hashed_columns_witness :
  (In (row_id worked_row)
      (List.map inv_id
         (invalid_entries
            (verify_hash_chain None
               (store_row 0 (with_original_text (Some "Tampered") worked_row) worked_ledger))))
   <-> calculate_hash (entry_data (with_original_text (Some "Tampered") worked_row))
         (hash_before (audit_log worked_ledger) 0)
       <> row_hash (with_original_text (Some "Tampered") worked_row))
  /\ (entry_data (with_original_text (Some "Tampered") worked_row) = entry_data worked_row ->
      row_hash (with_original_text (Some "Tampered") worked_row) <> row_hash worked_row ->
      In (row_id worked_row)
         (List.map inv_id
            (invalid_entries
               (verify_hash_chain None
                  (store_row 0 (with_original_text (Some "Tampered") worked_row)
                     worked_ledger)))))
  /\ (verified_columns (with_original_text (Some "Tampered") worked_row)
      = verified_columns worked_row ->
      verify_hash_chain None
        (store_row 0 (with_original_text (Some "Tampered") worked_row) worked_ledger)
      = verify_hash_chain None worked_ledger
      /\ valid (verify_hash_chain None
                  (store_row 0 (with_original_text (Some "Tampered") worked_row)
                     worked_ledger)) = true).
Proof.
  apply (verify_reports_hashed_columns worked_ledger 0 worked_row
           (with_original_text (Some "Tampered") worked_row)).
  - exact worked_ledger_ok.
  - vm_compute. reflexivity.
  - reflexivity.
Defined.

(** The original text of the first record is overwritten: that record, and
    no other, is reported. *)
Lemma verify_reports_original_text :
  List.map inv_id
    (invalid_entries
       (verify_hash_chain None
          (store_row 0 (with_original_text (Some "Tampered") worked_row) worked_ledger)))
  = [1].
Proof. vm_compute. reflexivity. Qed.

(** The stored hash of the first record is overwritten: that record is
    reported, and the next one with it, whose expected hash is computed from
    the overwritten value. *)
Lemma verify_reports_stored_hash :
  List.map inv_id
    (invalid_entries
       (verify_hash_chain None (store_row 0 (with_hash "00" worked_row) worked_ledger)))
  = [1; 2].
Proof. vm_compute. reflexivity. Qed.

(* ------------------------------------------------------------------ *)
(** ** Statistics *)




(** C5, the failing input.  The increment of the day is written and
    committed on a second connection while the INSERT of the record is
    uncommitted.  On SQLite that write is refused: every append raises, and
    neither the record nor the increment is stored.  Where the write is
    admitted, the first commit holds the increment and no record, and the
    record arrives with a second commit. *)
Theorem add_audit_entry_statistics_apart :
  (forall clk entry d, exists e, add_audit_entry sqlite clk entry d = ([], Raise e))
  /\ add_audit_entry sqlite worked_clock test_entry empty_database
     = ([], Raise "sqlite3.OperationalError")
  /\ exists d_stats d_final,
       fst (add_audit_entry many_writers worked_clock test_entry empty_database)
       = [d_stats; d_final]
       /\ total_scans <$> statistics d_stats !! "2024-01-02" = Some 1
       /\ audit_log d_stats = []
       /\ length (audit_log d_final) = 1%nat.
Proof.
  split; [exact add_audit_entry_locked|]. split; [vm_compute; reflexivity|].
  eexists. eexists. split; [vm_compute; reflexivity|]. repeat split; reflexivity.
Qed.

(* ================================================================== *)
(** * Strings as lists of characters *)
(* ================================================================== *)

Lemma los_app (a b : string) :
  list_ascii_of_string (a +:+ b) = list_ascii_of_string a ++ list_ascii_of_string b.
Proof. induction a as [|c a IH]; simpl; [reflexivity | now rewrite IH]. Qed.

Lemma los_length (s : string) : length (list_ascii_of_string s) = String.length s.
Proof. induction s as [|c s IH]; simpl; [reflexivity | now rewrite IH]. Qed.

Lemma los_substring (n m : nat) (s : string) :
  list_ascii_of_string (substring n m s) = take m (drop n (list_ascii_of_string s)).
Proof.
  revert n m. induction s as [|c s IH]; intros n m.
  - destruct n, m; reflexivity.
  - destruct n as [|n].
    + destruct m as [|m]; simpl; [reflexivity|].
      rewrite (IH 0%nat m). reflexivity.
    + simpl. apply IH.
Qed.

Lemma los_inj (a b : string) :
  list_ascii_of_string a = list_ascii_of_string b -> a = b.
Proof.
  intros E. rewrite <- (string_of_list_ascii_of_string a),
    <- (string_of_list_ascii_of_string b), E. reflexivity.
Qed.

Lemma los_slice_to (s : string) (i : Z) :
  0 <= i <= len s ->
  list_ascii_of_string (slice_to s i) = take (Z.to_nat i) (list_ascii_of_string s).
Proof.
  intros Hi. unfold slice_to, slice_index. rewrite los_substring.
  destruct (Z.ltb_spec i 0); [lia|]. rewrite Z.min_l by lia. reflexivity.
Qed.

Lemma los_slice_from (s : string) (i : Z) :
  0 <= i <= len s ->
  list_ascii_of_string (slice_from s i) = drop (Z.to_nat i) (list_ascii_of_string s).
Proof.
  intros Hi. unfold slice_from, slice_index. rewrite los_substring.
  destruct (Z.ltb_spec i 0); [lia|]. rewrite Z.min_l by lia.
  apply take_ge. rewrite length_drop, los_length. lia.
Qed.

(* ================================================================== *)
(** * Redaction replaces the spans and nothing else *)
(* ================================================================== *)

(** One turn of the loop of [redact_pii]. *)
Lemma redact_turn (text tail redaction_style : string) (m : PIIMatch) :
  0 <= m_start m <= m_end m -> m_end m <= len text ->
  slice_to (slice_to text (m_end m) +:+ tail) (m_start m)
  +:+ replacement redaction_style m
  +:+ slice_from (slice_to text (m_end m) +:+ tail) (m_end m)
  = slice_to text (m_start m) +:+ replacement redaction_style m +:+ tail.
Proof.
  intros Hs He. apply los_inj.
  assert (Hlen : len (slice_to text (m_end m) +:+ tail) = m_end m + len tail).
  { unfold len. rewrite <- !los_length, los_app, length_app, los_slice_to by (unfold len in *; lia).
    rewrite length_take, los_length. unfold len in He. lia. }
  assert (Hlt : length (take (Z.to_nat (m_end m)) (list_ascii_of_string text))
                = Z.to_nat (m_end m)).
  { rewrite length_take, los_length. unfold len in He. lia. }
  assert (Hn : 0 <= len tail) by (unfold len; lia).
  rewrite !los_app, los_slice_to, los_slice_from by lia.
  rewrite !los_app, (los_slice_to text (m_end m)), (los_slice_to text (m_start m)) by lia.
  f_equal; [|f_equal].
  - rewrite take_app_le by lia. rewrite take_take. f_equal. lia.
  - rewrite drop_app_ge by lia. rewrite Hlt, Nat.sub_diag. reflexivity.
Qed.

(** The loop of [redact_pii] over findings that are apart, the last
    finding first. *)
Lemma redact_fold_spliced (text redaction_style : string) (matches : list PIIMatch) (pos : Z) :
  spans_apart text matches ->
  0 <= pos <= len text ->
  Forall (fun m => pos <= m_start m) matches ->
  fold_right
    (fun m redacted =>
       slice_to redacted (m_start m) +:+ replacement redaction_style m
       +:+ slice_from redacted (m_end m))
    text matches
  = slice_to text pos +:+ spliced text redaction_style pos matches.
Proof.
  intros [Hin Hsorted]. revert pos.
  induction matches as [|m rest IH]; intros pos Hpos Hfrom.
  - simpl. apply los_inj. rewrite los_app, los_slice_to, los_slice_from by lia.
    symmetry. apply take_drop.
  - apply Forall_cons in Hin as [[Hm1 Hm2] Hin].
    apply StronglySorted_inv in Hsorted as [Hsorted Hm].
    apply Forall_cons in Hfrom as [Hpm _].
    simpl. rewrite (IH Hin Hsorted (m_end m)) by (try lia; exact Hm).
    rewrite redact_turn by lia.
    apply los_inj. rewrite !los_app, los_substring, !los_slice_to by lia.
    rewrite (app_assoc (take (Z.to_nat pos) _)). f_equal.
    rewrite <- (take_drop (Z.to_nat pos) (take (Z.to_nat (m_start m)) _)).
    rewrite take_take, Nat.min_l by lia. f_equal.
    rewrite skipn_firstn_comm. f_equal. lia.
Qed.

(** Sorting findings that are apart by descending start reverses them. *)
Lemma sort_insert_last (m : PIIMatch) (l : list PIIMatch) :
  Forall (fun y => m_start m < m_start y) l ->
  sort_insert (fun a b => m_start b <=? m_start a) m l = l ++ [m].
Proof.
  induction 1 as [|y l Hy _ IH]; simpl; [reflexivity|].
  destruct (Z.leb_spec (m_start y) (m_start m)); [lia|]. rewrite IH. reflexivity.
Qed.

Lemma sort_descending_rev (text : string) (matches : list PIIMatch) :
  spans_apart text matches ->
  stable_sort (fun a b => m_start b <=? m_start a) matches = rev matches.
Proof.
  intros [Hin Hsorted]. induction matches as [|m rest IH]; [reflexivity|].
  apply Forall_cons in Hin as [[Hm1 Hm2] Hin].
  apply StronglySorted_inv in Hsorted as [Hsorted Hm].
  unfold stable_sort in *. simpl. rewrite (IH Hin Hsorted).
  apply sort_insert_last. apply Forall_rev.
  rewrite List.Forall_forall in Hm |- *. intros y Hy. specialize (Hm y Hy). lia.
Qed.

Lemma redact_pii_fold (text redaction_style : string) (matches : list PIIMatch) :
  spans_apart text matches ->
  redact_pii text matches redaction_style
  = slice_to text 0 +:+ spliced text redaction_style 0 matches.
Proof.
  intros Hap. destruct matches as [|m rest] eqn:E.
  - simpl. apply los_inj. rewrite los_app, los_slice_to, los_slice_from by (unfold len; lia).
    reflexivity.
  - rewrite <- E in *. unfold redact_pii.
    replace (match matches with [] => text | _ :: _ => _ end)
      with (fold_left
              (fun redacted m0 =>
                 slice_to redacted (m_start m0) +:+ replacement redaction_style m0
                 +:+ slice_from redacted (m_end m0))
              (stable_sort (fun a b => m_start b <=? m_start a) matches) text)
      by (rewrite E; reflexivity).
    rewrite (sort_descending_rev text) by exact Hap.
    rewrite <- fold_left_rev_right, rev_involutive.
    apply redact_fold_spliced; [exact Hap | unfold len; lia |].
    destruct Hap as [Hin _]. eapply List.Forall_impl; [|exact Hin]. simpl. intros a Ha. lia.
Qed.

Lemma slice_to_zero (text : string) : slice_to text 0 = EmptyString.
Proof. unfold slice_to, slice_index. simpl. destruct text; reflexivity. Qed.

(** X4: on findings that lie inside the text, each at least one character
    wide, in ascending order and apart, [redact_pii] returns the text with
    the span of every finding replaced by its placeholder and every
    character outside the spans kept in place. *)
Theorem redact_pii_splices (text redaction_style : string) (matches : list PIIMatch) :
  spans_apart text matches ->
  redact_pii text matches redaction_style = spliced text redaction_style 0 matches.
Proof.
  intros Hap. rewrite redact_pii_fold by exact Hap. rewrite slice_to_zero. reflexivity.
Qed.

Lemma email_ssn_findings_apart : spans_apart email_ssn_text email_ssn_findings.
Proof.
  split.
  - repeat constructor; vm_compute; congruence.
  - repeat constructor; vm_compute; congruence.
Qed.

Lemma redact_pii_splices_witness :
  spans_apart email_ssn_text email_ssn_findings
  /\ redact_pii email_ssn_text email_ssn_findings "[REDACTED-TYPE]"
     = spliced email_ssn_text "[REDACTED-TYPE]" 0 email_ssn_findings.
Proof.
  split; [exact email_ssn_findings_apart|].
  apply (redact_pii_splices email_ssn_text "[REDACTED-TYPE]" email_ssn_findings).
  exact email_ssn_findings_apart.
Defined.

Example spliced_email_ssn :
  spliced email_ssn_text "[REDACTED-TYPE]" 0 email_ssn_findings
  = "My email is [REDACTED-EMAIL ADDRESS] and SSN is [REDACTED-SOCIAL SECURITY NUMBER]".
Proof. vm_compute. reflexivity. Qed.

(** The width of the filler of the length-preserving style: the two
    brackets and one letter for every character beyond two. *)
Lemma xxx_filler_length (m : PIIMatch) :
  len (replacement "[REDACTED-XXX]" m) = 2 + Z.max 0 (m_end m - m_start m - 2).
Proof.
  assert (E : replacement "[REDACTED-XXX]" m
              = "[" +:+ str_repeat "X" (Z.to_nat (m_end m - m_start m - 2)) +:+ "]")
    by reflexivity.
  rewrite E. unfold len. rewrite !str_length_app, str_repeat_length.
  cbn [String.length]. lia.
Qed.

Lemma len_app (a b : string) : len (a +:+ b) = len a + len b.
Proof. unfold len. rewrite str_length_app. lia. Qed.

Lemma len_substring (n m : nat) (s : string) :
  (n + m <= String.length s)%nat -> len (substring n m s) = Z.of_nat m.
Proof.
  intros H. unfold len. rewrite <- los_length, los_substring, length_take, length_drop, los_length.
  lia.
Qed.

Lemma len_slice_from (s : string) (i : Z) :
  0 <= i <= len s -> len (slice_from s i) = len s - i.
Proof.
  intros H. unfold len in *. rewrite <- los_length, los_slice_from by (unfold len; lia).
  rewrite length_drop, los_length. lia.
Qed.

Lemma spliced_xxx_length (text : string) (matches : list PIIMatch) (pos : Z) :
  spans_apart text matches ->
  0 <= pos <= len text ->
  Forall (fun m => pos <= m_start m) matches ->
  len (spliced text "[REDACTED-XXX]" pos matches)
  = len text - pos + Z.of_nat (length (one_wide matches)).
Proof.
  intros [Hin Hsorted]. revert pos.
  induction matches as [|m rest IH]; intros pos Hpos Hfrom.
  - simpl. rewrite len_slice_from by lia. lia.
  - apply Forall_cons in Hin as [[Hm1 Hm2] Hin].
    apply StronglySorted_inv in Hsorted as [Hsorted Hm].
    apply Forall_cons in Hfrom as [Hpm _].
    cbn [spliced]. rewrite !len_app, (IH Hin Hsorted (m_end m)) by (try lia; exact Hm).
    rewrite xxx_filler_length, len_substring by (unfold len in *; lia).
    unfold one_wide. cbn [List.filter].
    destruct (Z.eqb_spec (m_end m - m_start m) 1) as [E|E]; cbn [length]; lia.
Qed.

(** X5: under the length-preserving style, on findings that lie inside the
    text, at least one character wide, in ascending order and apart, the
    redacted text is longer than the text by one character for every
    finding that is one character wide; when every finding is two
    characters wide or more, the length is kept. *)
Theorem redact_pii_xxx_length (text : string) (matches : list PIIMatch) :
  spans_apart text matches ->
  len (redact_pii text matches "[REDACTED-XXX]")
  = len text + Z.of_nat (length (one_wide matches))
  /\ (Forall (fun m => 2 <= m_end m - m_start m) matches ->
      len (redact_pii text matches "[REDACTED-XXX]") = len text).
Proof.
  intros Hap.
  assert (E : len (redact_pii text matches "[REDACTED-XXX]")
              = len text + Z.of_nat (length (one_wide matches))).
  { rewrite redact_pii_fold, slice_to_zero by exact Hap.
    change (EmptyString +:+ ?s) with s.
    rewrite spliced_xxx_length; [lia | exact Hap | unfold len; lia |].
    destruct Hap as [Hin _]. eapply List.Forall_impl; [|exact Hin]. simpl. intros a Ha. lia. }
  split; [exact E|].
  intros Hwide. rewrite E.
  replace (one_wide matches) with (@nil PIIMatch); [simpl; lia|].
  symmetry. unfold one_wide. clear E Hap.
  induction Hwide as [|m rest Hm _ IH]; [reflexivity|].
  simpl. destruct (Z.eqb_spec (m_end m - m_start m) 1); [lia | exact IH].
Qed.

Lemma redact_pii_xxx_length_witness :
  spans_apart email_ssn_text email_ssn_findings
  /\ len (redact_pii email_ssn_text email_ssn_findings "[REDACTED-XXX]")
     = len email_ssn_text + Z.of_nat (length (one_wide email_ssn_findings)).
Proof.
  split; [exact email_ssn_findings_apart|].
  exact (proj1 (redact_pii_xxx_length email_ssn_text email_ssn_findings
                  email_ssn_findings_apart)).
Defined.

(* ================================================================== *)
(** * What [detect_pii] reports *)
(* ================================================================== *)

Lemma active_patterns_severities (extended : bool) :
  forallb (fun entry => known_severity (p_severity (snd entry))) (active_patterns extended)
  = true.
Proof. destruct extended; vm_compute; reflexivity. Qed.

(** X6: every finding of [detect_pii] carries the key, the name and the
    severity of one entry of the active pattern table, its severity is one
    of critical, high, medium and low, and a finding of type credit_card is
    reported only when the matched text passes [validate_credit_card]. *)
Theorem detect_pii_findings_from_table (engine : ReEngine) (text : string) (extended : bool) :
  Forall
    (fun f =>
       (exists config,
           In (m_type f, config) (active_patterns extended)
           /\ m_name f = p_name config /\ m_severity f = p_severity config)
       /\ known_severity (m_severity f) = true
       /\ (m_type f = "credit_card" -> validate_credit_card (finding_text text f) = true))
    (@detect_pii engine text extended).
Proof.
  unfold detect_pii.
  eapply Permutation_Forall; [symmetry; apply stable_sort_perm|].
  apply Forall_flat_map, List.Forall_forall. intros [pii_type config] Hentry.
  unfold pattern_matches. apply Forall_flat_map, List.Forall_forall. intros m _.
  cbn [fst snd].
  destruct (String.eqb pii_type "credit_card" && negb (validate_credit_card (match_group0 text m)))
    eqn:Hskip; constructor; [|constructor].
  cbn [m_type m_name m_severity]. split; [|split].
  - exists config. auto.
  - pose proof (active_patterns_severities extended) as Hsev.
    rewrite forallb_forall in Hsev. exact (Hsev _ Hentry).
  - intros ->. cbn [String.eqb Ascii.eqb Bool.eqb andb] in Hskip.
    apply negb_false_iff in Hskip. unfold finding_text. cbn [m_start m_end].
    unfold match_group0 in Hskip.
    replace (Z.to_nat (Z.of_nat (match_start m))) with (match_start m) by lia.
    replace (Z.to_nat (Z.of_nat (match_end m) - Z.of_nat (match_start m)))
      with (match_end m - match_start m)%nat by lia.
    exact Hskip.
Qed.

(** Of the two numbers in [cards_text] only the one with a valid check
    digit is reported. *)
Example detect_pii_cards :
  @detect_pii cards_engine cards_text false
  = [ {| m_type := "credit_card"; m_name := "Credit Card Number";
         m_value := Some "4111 1111 1111 1111";
         m_start := 0; m_end := 19; m_severity := "high" |} ].
Proof. vm_compute. reflexivity. Qed.

Section StableSortSublist.
Context {A : Type} (key : A -> Z).

Lemma sort_insert_head (x : A) (l : list A) :
  Forall (fun y => key x <= key y) l ->
  sort_insert (fun a b => key a <=? key b) x l = x :: l.
Proof.
  destruct 1 as [|y l Hy _]; simpl; [reflexivity|].
  destruct (Z.leb_spec (key x) (key y)); [reflexivity | lia].
Qed.

Lemma sort_insert_sublist (x : A) (l l' : list A) :
  StronglySorted (fun a b => key a <= key b) l' ->
  sublist l l' ->
  sublist (sort_insert (fun a b => key a <=? key b) x l)
          (sort_insert (fun a b => key a <=? key b) x l').
Proof.
  intros Hsorted Hsub. induction Hsub as [|y l1 l2 Hsub IH|y l1 l2 Hsub IH].
  - constructor. constructor.
  - apply StronglySorted_inv in Hsorted as [Hsorted _]. simpl.
    destruct (key x <=? key y).
    + do 2 constructor. exact Hsub.
    + constructor. apply IH, Hsorted.
  - apply StronglySorted_inv in Hsorted as [Hsorted Hy]. simpl.
    destruct (Z.leb_spec (key x) (key y)) as [Hxy|Hxy].
    + rewrite sort_insert_head.
      * constructor. apply sublist_cons. exact Hsub.
      * rewrite List.Forall_forall in Hy |- *. intros z Hz.
        assert (In z l2).
        { apply list_elem_of_In. eapply elem_of_sublist; [|exact Hsub].
          apply list_elem_of_In, Hz. }
        specialize (Hy z H). simpl in Hy. lia.
    + apply sublist_cons. apply IH, Hsorted.
Qed.

(** Sorting more elements keeps the sorted list of the first ones as a
    subsequence. *)
Lemma stable_sort_app_sublist (l1 l2 : list A) :
  sublist (stable_sort (fun a b => key a <=? key b) l1)
          (stable_sort (fun a b => key a <=? key b) (l1 ++ l2)).
Proof.
  induction l1 as [|x l1 IH]; simpl.
  - apply sublist_nil_l.
  - apply sort_insert_sublist; [|exact IH].
    apply stable_sort_sorted.
Qed.

End StableSortSublist.

(** X7: switching the extended patterns on only adds findings: what
    [detect_pii] reports without them is a subsequence, in the same order,
    of what it reports with them. *)
Theorem detect_pii_extended_adds (engine : ReEngine) (text : string) :
  sublist (@detect_pii engine text false) (@detect_pii engine text true).
Proof.
  unfold detect_pii.
  change (active_patterns true) with (active_patterns false ++ EXTENDED_PATTERNS).
  rewrite flat_map_app.
  apply (stable_sort_app_sublist m_start).
Qed.

(* ================================================================== *)
(** * The summaries *)
(* ================================================================== *)

Lemma count_incr_strict_known (key : string) (d : list (string * Z)) :
  In key (List.map fst d) ->
  exists d', count_incr_strict key d = Ok d'
             /\ List.map fst d' = List.map fst d
             /\ counter_sum d' = counter_sum d + 1.
Proof.
  induction d as [|[k n] d IH]; intros Hin; [destruct Hin|].
  simpl. destruct (String.eqb_spec key k) as [->|Hne].
  - eexists. split; [reflexivity|]. split; [reflexivity|]. simpl. lia.
  - destruct Hin as [Hk|Hin]; [simpl in Hk; congruence|].
    destruct (IH Hin) as (d' & -> & Hkeys & Hsum).
    eexists. split; [reflexivity|]. simpl. rewrite Hkeys, Hsum. split; [reflexivity | lia].
Qed.

Lemma count_incr_strict_unknown (key : string) (d : list (string * Z)) :
  ~ In key (List.map fst d) -> count_incr_strict key d = Raise "KeyError".
Proof.
  induction d as [|[k n] d IH]; intros Hnin; [reflexivity|].
  simpl. destruct (String.eqb_spec key k) as [->|Hne].
  - exfalso. apply Hnin. left. reflexivity.
  - rewrite IH; [reflexivity|]. intros Hin. apply Hnin. right. exact Hin.
Qed.

Section StrictCounters.
Context {A : Type} (key : A -> string).

Lemma strict_fold_raised (l : list A) (e : string) :
  fold_left (fun acc a => d ← acc; count_incr_strict (key a) d) l (Raise e) = Raise e.
Proof. induction l as [|a l IH]; [reflexivity | exact IH]. Qed.

Lemma strict_fold_known (l : list A) (d : list (string * Z)) :
  Forall (fun a => In (key a) (List.map fst d)) l ->
  exists d',
    fold_left (fun acc a => d ← acc; count_incr_strict (key a) d) l (Ok d) = Ok d'
    /\ counter_sum d' = counter_sum d + Z.of_nat (length l).
Proof.
  intros Hl. revert d Hl. induction l as [|a l IH]; intros d Hl.
  - exists d. split; [reflexivity | simpl; lia].
  - apply Forall_cons in Hl as [Ha Hl].
    destruct (count_incr_strict_known _ _ Ha) as (d1 & E1 & Hkeys & Hsum).
    destruct (IH d1) as (d' & E' & Hsum').
    { rewrite Hkeys. exact Hl. }
    exists d'. split.
    + cbn [fold_left]. cbn [mbind result_bind bind]. rewrite E1. exact E'.
    + rewrite Hsum', Hsum. cbn [length]. lia.
Qed.

Lemma strict_fold_unknown (l : list A) (d : list (string * Z)) :
  Exists (fun a => ~ In (key a) (List.map fst d)) l ->
  fold_left (fun acc a => d ← acc; count_incr_strict (key a) d) l (Ok d) = Raise "KeyError".
Proof.
  intros Hl. revert d Hl. induction l as [|a l IH]; intros d Hl; [inversion Hl|].
  cbn [fold_left]. cbn [mbind result_bind bind].
  destruct (in_dec string_dec (key a) (List.map fst d)) as [Hin|Hnin].
  - destruct (count_incr_strict_known _ _ Hin) as (d1 & E1 & Hkeys & _). rewrite E1.
    apply IH. rewrite Hkeys. inversion Hl; subst; [contradiction | assumption].
  - rewrite count_incr_strict_unknown by exact Hnin. apply strict_fold_raised.
Qed.

Lemma count_fold_sum (l : list A) (d : list (string * Z)) :
  counter_sum (fold_left (fun d a => count_incr (key a) d) l d)
  = counter_sum d + Z.of_nat (length l).
Proof.
  revert d. induction l as [|a l IH]; intros d; [simpl; lia|].
  cbn [fold_left length]. rewrite IH.
  assert (E : counter_sum (count_incr (key a) d) = counter_sum d + 1).
  { clear. induction d as [|[k n] d IH]; simpl; [reflexivity|].
    destruct (String.eqb (key a) k); simpl; lia. }
  rewrite E. lia.
Qed.

End StrictCounters.

Lemma counters_total_value (d : list (string * Z)) :
  counters_total (counters_value d) = counter_sum d.
Proof.
  unfold counters_total, counters_value.
  induction d as [|[k n] d IH]; simpl; [reflexivity | rewrite IH; reflexivity].
Qed.

Lemma known_severity_in (s : string) :
  known_severity s = true <-> In s (List.map fst severity_counters).
Proof.
  unfold known_severity. rewrite existsb_exists. simpl. split.
  - intros (x & Hx & E). apply String.eqb_eq in E. subst. tauto.
  - intros Hin. exists s. split; [tauto | apply String.eqb_refl].
Qed.

Lemma forallb_known (A : Type) (sev : A -> string) (l : list A) :
  forallb (fun a => known_severity (sev a)) l = true ->
  Forall (fun a => In (sev a) (List.map fst severity_counters)) l.
Proof.
  rewrite forallb_forall, List.Forall_forall. intros H a Ha. apply known_severity_in, H, Ha.
Qed.

Lemma forallb_unknown (A : Type) (sev : A -> string) (l : list A) :
  forallb (fun a => known_severity (sev a)) l = false ->
  Exists (fun a => ~ In (sev a) (List.map fst severity_counters)) l.
Proof.
  intros H. induction l as [|a l IH]; [discriminate|].
  simpl in H. apply andb_false_iff in H as [H|H].
  - left. rewrite <- known_severity_in, H. discriminate.
  - right. apply IH, H.
Qed.

(** X8: [get_pii_summary] returns when every finding has one of the
    severities critical, high, medium and low, and then the total count,
    the counters by type and the counters by severity all add up to the
    number of findings; a finding with any other severity makes it raise
    [KeyError]. *)
Theorem get_pii_summary_counts (matches : list PIIMatch) :
  (forallb (fun m => known_severity (m_severity m)) matches = true ->
   exists summary,
     get_pii_summary matches = Ok summary
     /\ value_get summary "total_count" = VInt (Z.of_nat (length matches))
     /\ counters_total (value_get summary "by_type") = Z.of_nat (length matches)
     /\ counters_total (value_get summary "by_severity") = Z.of_nat (length matches))
  /\ (forallb (fun m => known_severity (m_severity m)) matches = false ->
      get_pii_summary matches = Raise "KeyError").
Proof.
  split; intros Hsev; unfold get_pii_summary.
  - destruct (strict_fold_known m_severity matches severity_counters (forallb_known _ _ _ Hsev))
      as (d' & -> & Hsum).
    cbn [mbind result_bind bind]. eexists. split; [reflexivity|].
    cbn [value_get context_get List.find fst snd String.eqb Ascii.eqb Bool.eqb].
    split; [reflexivity|]. rewrite !counters_total_value. split.
    + rewrite (count_fold_sum m_type). reflexivity.
    + rewrite Hsum. reflexivity.
  - rewrite (strict_fold_unknown m_severity) by (apply forallb_unknown, Hsev). reflexivity.
Qed.

Lemma get_pii_summary_counts_witness :
  forallb (fun m => known_severity (m_severity m)) email_ssn_findings = true
  /\ exists summary,
       get_pii_summary email_ssn_findings = Ok summary
       /\ value_get summary "total_count" = VInt (Z.of_nat (length email_ssn_findings))
       /\ counters_total (value_get summary "by_type") = Z.of_nat (length email_ssn_findings)
       /\ counters_total (value_get summary "by_severity")
          = Z.of_nat (length email_ssn_findings).
Proof.
  split; [reflexivity|].
  exact (proj1 (get_pii_summary_counts email_ssn_findings) eq_refl).
Defined.

Lemma action_value_counted (a : PolicyAction) :
  In (action_value a) (List.map fst [("allow", 0); ("warn", 0); ("block", 0); ("redact", 0)]).
Proof. destruct a; simpl; tauto. Qed.

(** X9: [get_policy_summary] returns when every violation has one of the
    severities critical, high, medium and low, and then the total, the
    counters by category, by severity and by action all add up to the
    number of violations and [should_block] is that of [should_block]; a
    violation with any other severity makes it raise [KeyError]. *)
Theorem get_policy_summary_counts (violations : list PolicyViolation) :
  (forallb (fun v => known_severity (v_severity v)) violations = true ->
   exists summary,
     get_policy_summary violations = Ok summary
     /\ value_get summary "total_violations" = VInt (Z.of_nat (length violations))
     /\ value_get summary "should_block" = VBool (should_block violations)
     /\ counters_total (value_get summary "by_category") = Z.of_nat (length violations)
     /\ counters_total (value_get summary "by_severity") = Z.of_nat (length violations)
     /\ counters_total (value_get summary "by_action") = Z.of_nat (length violations))
  /\ (forallb (fun v => known_severity (v_severity v)) violations = false ->
      get_policy_summary violations = Raise "KeyError").
Proof.
  split; intros Hsev; unfold get_policy_summary.
  - destruct (strict_fold_known v_severity violations severity_counters
                (forallb_known _ _ _ Hsev)) as (d1 & -> & Hsum1).
    destruct (strict_fold_known (fun v => action_value (v_action v)) violations
                [("allow", 0); ("warn", 0); ("block", 0); ("redact", 0)])
      as (d2 & E2 & Hsum2).
    { apply List.Forall_forall. intros v _. apply action_value_counted. }
    cbn [mbind result_bind bind]. cbn [mbind result_bind bind] in E2. rewrite E2.
    eexists. split; [reflexivity|].
    cbn [value_get context_get List.find fst snd String.eqb Ascii.eqb Bool.eqb].
    split; [reflexivity|]. split; [reflexivity|]. rewrite !counters_total_value.
    split; [|split].
    + rewrite (count_fold_sum v_category). reflexivity.
    + rewrite Hsum1. reflexivity.
    + rewrite Hsum2. reflexivity.
  - rewrite (strict_fold_unknown v_severity) by (apply forallb_unknown, Hsev). reflexivity.
Qed.

Lemma active_policies_severities (extended : bool) :
  forallb (fun entry => known_severity (default "medium" (c_severity (snd entry))))
    (active_policies extended) = true.
Proof. destruct extended; vm_compute; reflexivity. Qed.

Lemma pii_summary_returns (matches : list PIIMatch) :
  forallb (fun m => known_severity (m_severity m)) matches = true ->
  exists summary, get_pii_summary matches = Ok summary.
Proof.
  intros Hsev. unfold get_pii_summary.
  destruct (strict_fold_known m_severity matches severity_counters (forallb_known _ _ _ Hsev))
    as (d' & -> & _).
  cbn [mbind result_bind bind]. eauto.
Qed.

Lemma policy_summary_returns (violations : list PolicyViolation) :
  forallb (fun v => known_severity (v_severity v)) violations = true ->
  exists summary, get_policy_summary violations = Ok summary.
Proof.
  intros Hsev. unfold get_policy_summary.
  destruct (strict_fold_known v_severity violations severity_counters
              (forallb_known _ _ _ Hsev)) as (d1 & -> & _).
  destruct (strict_fold_known (fun v => action_value (v_action v)) violations
              [("allow", 0); ("warn", 0); ("block", 0); ("redact", 0)])
    as (d2 & E2 & _).
  { apply List.Forall_forall. intros v _. apply action_value_counted. }
  cbn [mbind result_bind bind]. cbn [mbind result_bind bind] in E2. rewrite E2. eauto.
Qed.

Section Summaries.
Context `{ReEngine}.

Lemma check_policies_active (text : string) (extended : bool) :
  check_policies text extended None
  = flat_map (policy_violation text (lower text)) (active_policies extended).
Proof. unfold check_policies, active_policies. destruct extended; reflexivity. Qed.

Lemma check_policies_severities (text : string) (extended : bool) :
  forallb (fun v => known_severity (v_severity v)) (check_policies text extended None) = true.
Proof.
  rewrite check_policies_active. apply forallb_forall. intros v Hv.
  apply in_flat_map in Hv as ([name config] & Hentry & Hv).
  unfold policy_violation in Hv. cbn [fst snd] in Hv.
  destruct (policy_trigger text (lower text) config); [|destruct Hv].
  destruct Hv as [<-|[]]. cbn [v_severity].
  pose proof (active_policies_severities extended) as Hsev.
  rewrite forallb_forall in Hsev. exact (Hsev _ Hentry).
Qed.

Lemma detect_pii_severities (text : string) (extended : bool) :
  forallb (fun m => known_severity (m_severity m)) (detect_pii text extended) = true.
Proof.
  apply forallb_forall. intros m Hm. unfold detect_pii in Hm.
  apply (Permutation_in _ (stable_sort_perm _ _)) in Hm.
  apply in_flat_map in Hm as ([pii_type config] & Hentry & Hm).
  unfold pattern_matches in Hm. apply in_flat_map in Hm as (rm & _ & Hm).
  cbn [fst snd] in Hm. destruct (_ && _); [destruct Hm|]. destruct Hm as [<-|[]].
  cbn [m_severity].
  pose proof (active_patterns_severities extended) as Hsev.
  rewrite forallb_forall in Hsev. exact (Hsev _ Hentry).
Qed.

(** The part of a scan that builds the response returns whenever the
    redaction style is a string. *)
Lemma scan_response_returns (cfg : gmap string value) (prompt : string) (auto_redact : value) :
  text_or_absent (cfg !! "redaction_style") = true ->
  exists r, scan_response cfg prompt auto_redact = Ok r.
Proof.
  intros Hstyle. unfold scan_response.
  set (pii := if truthy (dict_get cfg "pii_detection_enabled" (VBool true))
              then detect_pii prompt (truthy (dict_get cfg "extended_patterns" (VBool false)))
              else []).
  set (vio := if truthy (dict_get cfg "policy_enforcement_enabled" (VBool true))
              then check_policies prompt
                     (truthy (dict_get cfg "extended_policies" (VBool false))) None
              else []).
  assert (Hpii : forallb (fun m => known_severity (m_severity m)) pii = true).
  { subst pii. destruct (truthy (dict_get cfg "pii_detection_enabled" (VBool true)));
      [apply detect_pii_severities | reflexivity]. }
  assert (Hvio : forallb (fun v => known_severity (v_severity v)) vio = true).
  { subst vio. destruct (truthy (dict_get cfg "policy_enforcement_enabled" (VBool true)));
      [apply check_policies_severities | reflexivity]. }
  assert (Hred : exists rp,
             (if truthy auto_redact && negb (Nat.eqb (length pii) 0)
              then match dict_get cfg "redaction_style" (VStr "[REDACTED]") with
                   | VStr style => Ok (redact_pii prompt pii style)
                   | _ => Raise "TypeError"
                   end
              else Ok prompt) = Ok rp).
  { destruct (_ && _); [|eauto]. unfold dict_get.
    destruct (cfg !! "redaction_style") as [[]|]; try discriminate; simpl; eauto. }
  destruct Hred as (rp & ->). cbn [mbind result_bind bind].
  unfold scan_result.
  destruct (pii_summary_returns pii Hpii) as (s1 & ->).
  destruct (policy_summary_returns vio Hvio) as (s2 & ->).
  cbn [mbind result_bind bind]. eauto.
Qed.

End Summaries.

(** X10: with audit logging switched off, [max_prompt_length] an integer
    and [redaction_style] a string (or either left to its default),
    [_scan_prompt] returns a response for every prompt and every argument,
    never raises, and leaves the server, its database included, as it
    was. *)
Theorem scan_prompt_without_logging (engine : ReEngine) (w : writers)
  (self : AIGovernanceMCP) (clk : clock) (args : scan_args) :
  truthy (dict_get (config self) "audit_logging_enabled" (VBool true)) = false ->
  int_or_absent (config self !! "max_prompt_length") = true ->
  text_or_absent (config self !! "redaction_style") = true ->
  fst (@_scan_prompt engine w self clk args) = self
  /\ exists response, snd (@_scan_prompt engine w self clk args) = Ok response.
Proof.
  intros Hlog Hmax Hstyle. unfold _scan_prompt.
  assert (Hgt : exists b,
             int_gt (len (default EmptyString (arg_prompt args)))
               (dict_get (config self) "max_prompt_length" (VInt 10000)) = Ok b).
  { unfold dict_get. destruct (config self !! "max_prompt_length") as [[]|];
      try discriminate; simpl; eauto. }
  destruct Hgt as (b & ->). destruct b; [split; [reflexivity | eauto]|].
  match goal with
  | |- context [scan_response ?c ?p ?a] =>
    destruct (@scan_response_returns engine c p a Hstyle) as ([[response rp] act] & ->)
  end.
  rewrite Hlog. split; [reflexivity | eauto].
Qed.

Lemma scan_prompt_without_logging_witness :
  truthy (dict_get (config quiet_server) "audit_logging_enabled" (VBool true)) = false
  /\ int_or_absent (config quiet_server !! "max_prompt_length") = true
  /\ text_or_absent (config quiet_server !! "redaction_style") = true
  /\ fst (@_scan_prompt worked_engine sqlite quiet_server worked_clock medication_args)
     = quiet_server
  /\ exists response,
       snd (@_scan_prompt worked_engine sqlite quiet_server worked_clock medication_args)
       = Ok response.
Proof.
  split; [reflexivity|]. split; [reflexivity|]. split; [reflexivity|].
  exact (scan_prompt_without_logging worked_engine sqlite quiet_server worked_clock
           medication_args eq_refl eq_refl eq_refl).
Defined.

(* ================================================================== *)
(** * Policies *)
(* ================================================================== *)

Lemma dict_set_keys {V : Type} (k : string) (v : V) (d : list (string * V)) :
  List.map fst (dict_set k v d)
  = if existsb (String.eqb k) (List.map fst d) then List.map fst d
    else List.map fst d ++ [k].
Proof.
  induction d as [|[k' v'] d IH]; simpl; [reflexivity|].
  destruct (String.eqb_spec k k') as [->|Hne]; simpl; [reflexivity|].
  rewrite IH. destruct (existsb _ _); reflexivity.
Qed.

Lemma dict_set_NoDup {V : Type} (k : string) (v : V) (d : list (string * V)) :
  NoDup (List.map fst d) -> NoDup (List.map fst (dict_set k v d)).
Proof.
  intros Hd. rewrite dict_set_keys. destruct (existsb _ _) eqn:E; [exact Hd|].
  apply NoDup_app. split; [exact Hd|]. split; [|apply NoDup_singleton].
  intros x Hx Hk. apply list_elem_of_singleton in Hk. subst x.
  assert (existsb (String.eqb k) (List.map fst d) = true); [|congruence].
  apply existsb_exists. exists k. split; [apply list_elem_of_In, Hx | apply String.eqb_refl].
Qed.

Lemma dict_update_NoDup {V : Type} (d upd : list (string * V)) :
  NoDup (List.map fst d) -> NoDup (List.map fst (dict_update d upd)).
Proof.
  unfold dict_update. revert d. induction upd as [|[k v] upd IH]; intros d Hd; [exact Hd|].
  simpl. apply IH, dict_set_NoDup, Hd.
Qed.

Lemma policy_rules_keys : NoDup (List.map fst POLICY_RULES).
Proof. apply NoDup_ListNoDup. repeat constructor; simpl; intuition discriminate. Qed.

Section Policies.
Context `{ReEngine}.

Lemma violations_sublist (text text_lower : string) (policies : list (string * policy_config)) :
  sublist (List.map v_policy_name (flat_map (policy_violation text text_lower) policies))
          (List.map fst policies).
Proof.
  induction policies as [|[name config] policies IH]; simpl; [constructor|].
  unfold policy_violation at 1. cbn [fst snd].
  destruct (policy_trigger text text_lower config); simpl.
  - apply sublist_skip, IH.
  - apply sublist_cons, IH.
Qed.

End Policies.

(** X11: [check_policies] reports at most one violation for a policy,
    whatever custom policies are merged in, and, without custom policies,
    reports the violations in the order of the policy table. *)
Theorem check_policies_one_per_policy (engine : ReEngine) (text : string) (extended : bool) :
  sublist (List.map v_policy_name (@check_policies engine text extended None))
          (List.map fst (active_policies extended))
  /\ forall custom_policies,
       NoDup (List.map v_policy_name (@check_policies engine text extended custom_policies)).
Proof.
  split.
  - rewrite check_policies_active. apply violations_sublist.
  - intros custom. unfold check_policies.
    eapply sublist_NoDup; [|apply violations_sublist].
    assert (Hbase : NoDup (List.map fst
                      (if extended then dict_update POLICY_RULES EXTENDED_POLICIES
                       else POLICY_RULES))).
    { destruct extended; [apply dict_update_NoDup|]; apply policy_rules_keys. }
    destruct custom as [[|c cs]|]; try exact Hbase.
    apply dict_update_NoDup, Hbase.
Qed.

Section Keywords.
Context `{ReEngine}.

Lemma first_keyword_found (text_lower keyword : string) (keywords : list string) :
  In keyword keywords ->
  str_contains (lower keyword) text_lower = true ->
  exists k, first_keyword text_lower keywords = Some k /\ In k keywords
            /\ str_contains (lower k) text_lower = true.
Proof.
  intros Hin Hk. unfold first_keyword.
  destruct (List.find _ keywords) as [k|] eqn:E.
  - apply find_some in E. exists k. tauto.
  - exfalso. pose proof (find_none _ _ E _ Hin) as Hno. simpl in Hno. congruence.
Qed.

Lemma keyword_violation (text : string) (extended : bool) (name : string)
  (config : policy_config) (keywords : list string) (keyword : string) :
  In (name, config) (active_policies extended) ->
  c_keywords config = Some keywords ->
  In keyword keywords ->
  str_contains (lower keyword) (lower text) = true ->
  exists k,
    In k keywords /\ str_contains (lower k) (lower text) = true
    /\ In {| v_policy_name := name;
             v_category := default "general" (c_category config);
             v_matched_keyword := k;
             v_action := default WARN (c_action config);
             v_message := default "Policy violation detected" (c_message config);
             v_severity := default "medium" (c_severity config) |}
          (check_policies text extended None).
Proof.
  intros Hentry Hkws Hin Hk.
  destruct (first_keyword_found _ _ _ Hin Hk) as (k & Hfirst & Hkin & Hkc).
  exists k. split; [exact Hkin|]. split; [exact Hkc|].
  rewrite check_policies_active. apply in_flat_map. exists (name, config).
  split; [exact Hentry|].
  unfold policy_violation, policy_trigger. cbn [fst snd]. rewrite Hkws, Hfirst.
  left. reflexivity.
Qed.

End Keywords.

(** X12: a keyword is looked for as a substring of the lower-cased text,
    not as a word: when a keyword of a policy whose action is block occurs
    anywhere in the text, in any letter case and inside a longer word as
    well, the violation is reported with a keyword of the policy as its
    trigger and the scan is blocked, whatever the regex engine finds. *)
Theorem keyword_substring_blocks (engine : ReEngine) (text : string) (extended : bool)
  (name : string) (config : policy_config) (keywords : list string) (keyword : string) :
  In (name, config) (active_policies extended) ->
  c_keywords config = Some keywords ->
  c_action config = Some BLOCK ->
  In keyword keywords ->
  str_contains (lower keyword) (lower text) = true ->
  (exists v, In v (@check_policies engine text extended None)
             /\ v_policy_name v = name /\ v_action v = BLOCK
             /\ In (v_matched_keyword v) keywords)
  /\ should_block (@check_policies engine text extended None) = true
  /\ scan_action (@check_policies engine text extended None) = "blocked".
Proof.
  intros Hentry Hkws Hact Hin Hk.
  destruct (@keyword_violation engine _ _ _ _ _ _ Hentry Hkws Hin Hk) as (k & Hkin & _ & Hv).
  rewrite Hact in Hv. cbn [default] in Hv.
  assert (Hb : should_block (@check_policies engine text extended None) = true).
  { apply should_block_spec. eexists. split; [exact Hv | reflexivity]. }
  split; [|split; [exact Hb|]].
  - eexists. split; [exact Hv|]. cbn. auto.
  - unfold scan_action. rewrite Hb. reflexivity.
Qed.

Lemma keyword_substring_blocks_witness :
  (exists v, In v (@check_policies worked_engine issue_text false None)
             /\ v_policy_name v = "legal_advice" /\ v_action v = BLOCK
             /\ In (v_matched_keyword v)
                  [ "legal advice"; "legal counsel"; "lawsuit"; "sue"; "legal action";
                    "legal rights"; "attorney"; "lawyer"; "legal opinion"; "contract review" ])
  /\ should_block (@check_policies worked_engine issue_text false None) = true
  /\ scan_action (@check_policies worked_engine issue_text false None) = "blocked".
Proof.
  eapply (keyword_substring_blocks worked_engine issue_text false "legal_advice" _ _ "sue").
  - right. left. reflexivity.
  - reflexivity.
  - reflexivity.
  - simpl. tauto.
  - reflexivity.
Defined.

(* ================================================================== *)
(** * [apply_policy_actions] *)
(* ================================================================== *)

Section PolicyActions.
Context `{ReSubEngine}.

Lemma apply_fold_raised (violations : list PolicyViolation) (e : string) :
  fold_left (fun acc violation => r ← acc; apply_policy_action r violation) violations
    (Raise e) = Raise e.
Proof. induction violations as [|v l IH]; [reflexivity | exact IH]. Qed.

Lemma apply_policy_actions_snoc (text : string) (violations : list PolicyViolation)
  (v : PolicyViolation) :
  apply_policy_actions text (violations ++ [v])
  = (r ← apply_policy_actions text violations; apply_policy_action r v).
Proof. unfold apply_policy_actions. rewrite fold_left_app. reflexivity. Qed.

Lemma should_block_snoc (violations : list PolicyViolation) (v : PolicyViolation) :
  should_block (violations ++ [v])
  = should_block violations || action_eqb (v_action v) BLOCK.
Proof. unfold should_block. rewrite existsb_app. simpl. rewrite orb_false_r. reflexivity. Qed.

Lemma warning_messages_snoc (violations : list PolicyViolation) (v : PolicyViolation) :
  warning_messages (violations ++ [v])
  = warning_messages violations
    ++ (if action_eqb (v_action v) WARN then [v_message v] else []).
Proof.
  unfold warning_messages. rewrite List.filter_app, List.map_app. simpl.
  destruct (action_eqb _ _); reflexivity.
Qed.

Lemma apply_without_redact (text : string) (violations : list PolicyViolation) :
  Forall (fun v => v_action v <> REDACT) violations ->
  exists r,
    apply_policy_actions text violations = Ok r
    /\ pa_original_text r = text
    /\ pa_blocked r = should_block violations
    /\ pa_processed_text r = (if should_block violations then None else Some text)
    /\ pa_warnings r = warning_messages violations.
Proof.
  induction violations as [|v l IH] using rev_ind; intros Hl.
  - eexists. split; [reflexivity|]. repeat split.
  - apply Forall_app in Hl as [Hl Hv]. apply Forall_cons in Hv as [Hv _].
    destruct (IH Hl) as (r & Er & H1 & H2 & H3 & H4).
    rewrite apply_policy_actions_snoc, Er. cbn [mbind result_bind bind].
    rewrite should_block_snoc, warning_messages_snoc.
    unfold apply_policy_action.
    destruct (v_action v) eqn:Ev; try congruence; cbn [action_eqb];
      eexists; (split; [reflexivity|]); cbn [pa_original_text pa_blocked pa_processed_text pa_warnings];
      rewrite ?orb_false_r, ?orb_true_r, ?app_nil_r; repeat split; congruence.
Qed.

(** Once a violation has blocked, the processed text stays [None] for as
    long as the loop goes on. *)
Lemma apply_after_block (violations : list PolicyViolation) (st : policy_actions) :
  pa_processed_text st = None ->
  match fold_left (fun acc violation => r ← acc; apply_policy_action r violation)
          violations (Ok st) with
  | Ok r => pa_processed_text r = None /\ Forall (fun v => v_action v <> REDACT) violations
  | Raise e => e = "TypeError" \/ e = "AttributeError" \/ e = "re.error"
  end.
Proof.
  revert st. induction violations as [|v l IH]; intros st Hst; [simpl; auto|].
  cbn [fold_left]. cbn [mbind result_bind bind]. unfold apply_policy_action at 2.
  destruct (v_action v) eqn:Ev.
  - specialize (IH st Hst). destruct (fold_left _ l (Ok st)); [|exact IH].
    destruct IH as [IH1 IH2]. split; [exact IH1|]. constructor; [congruence | exact IH2].
  - match goal with |- context [fold_left _ l (Ok ?s)] => specialize (IH s Hst) end.
    destruct (fold_left _ l _); [|exact IH].
    destruct IH as [IH1 IH2]. split; [exact IH1|]. constructor; [congruence | exact IH2].
  - match goal with |- context [fold_left _ l (Ok ?s)] => specialize (IH s eq_refl) end.
    destruct (fold_left _ l _); [|exact IH].
    destruct IH as [IH1 IH2]. split; [exact IH1|]. constructor; [congruence | exact IH2].
  - rewrite Hst. unfold sub_processed, replace_processed.
    destruct (_ && _); [destruct (re_error _)|]; cbn [mbind result_bind bind];
      rewrite apply_fold_raised; auto.
Qed.

(** The loop raises only where a redaction fails. *)
Lemma apply_raises_only (violations : list PolicyViolation) (st : policy_actions) :
  match fold_left (fun acc violation => r ← acc; apply_policy_action r violation)
          violations (Ok st) with
  | Ok _ => True
  | Raise e => e = "TypeError" \/ e = "AttributeError" \/ e = "re.error"
  end.
Proof.
  revert st. induction violations as [|v l IH]; intros st; [exact I|].
  cbn [fold_left]. cbn [mbind result_bind bind]. unfold apply_policy_action at 2.
  destruct (v_action v); try apply IH.
  unfold sub_processed, replace_processed.
  destruct (_ && _); [destruct (re_error _)|]; destruct (pa_processed_text st);
    cbn [mbind result_bind bind]; rewrite ?apply_fold_raised; auto; apply IH.
Qed.

End PolicyActions.

(** X13: on violations none of which redacts, as the built-in policies
    produce them, [apply_policy_actions] returns: it is blocked exactly
    when [should_block] holds, the processed text is [None] when blocked
    and the text unchanged otherwise, and the warnings are the messages of
    the warning violations in their order. *)
Theorem apply_policy_actions_without_redact (engine : ReSubEngine) (text : string)
  (violations : list PolicyViolation) :
  Forall (fun v => v_action v <> REDACT) violations ->
  exists r,
    @apply_policy_actions engine text violations = Ok r
    /\ pa_original_text r = text
    /\ pa_blocked r = should_block violations
    /\ pa_processed_text r = (if should_block violations then None else Some text)
    /\ pa_warnings r = warning_messages violations.
Proof. apply apply_without_redact. Qed.

Lemma apply_policy_actions_without_redact_witness :
  Forall (fun v => v_action v <> REDACT)
    (@check_policies worked_engine medication_text false None)
  /\ exists r,
       @apply_policy_actions quiet_sub medication_text
         (@check_policies worked_engine medication_text false None) = Ok r
       /\ pa_original_text r = medication_text
       /\ pa_blocked r = should_block (@check_policies worked_engine medication_text false None)
       /\ pa_processed_text r
          = (if should_block (@check_policies worked_engine medication_text false None)
             then None else Some medication_text)
       /\ pa_warnings r
          = warning_messages (@check_policies worked_engine medication_text false None).
Proof.
  assert (Hno : Forall (fun v => v_action v <> REDACT)
                  (@check_policies worked_engine medication_text false None))
    by (vm_compute; repeat constructor; discriminate).
  split; [exact Hno|].
  exact (apply_policy_actions_without_redact quiet_sub medication_text _ Hno).
Defined.

(** X14: when a violation that blocks stands anywhere before a violation
    that redacts, [apply_policy_actions] raises: the block has set the
    processed text to [None], and the redaction takes it for a string. *)
Theorem apply_policy_actions_block_then_redact (engine : ReSubEngine) (text : string)
  (before between after : list PolicyViolation) (blocking redacting : PolicyViolation) :
  v_action blocking = BLOCK ->
  v_action redacting = REDACT ->
  exists e,
    @apply_policy_actions engine text
      (before ++ blocking :: between ++ redacting :: after) = Raise e
    /\ (e = "TypeError" \/ e = "AttributeError" \/ e = "re.error").
Proof.
  intros Hb Hr. unfold apply_policy_actions. rewrite fold_left_app.
  match goal with
  | |- context [fold_left ?f before ?i] => destruct (fold_left f before i) as [st|e] eqn:E0
  end.
  - cbn [fold_left]. cbn [mbind result_bind bind].
    unfold apply_policy_action at 2. rewrite Hb.
    match goal with
    | |- context [fold_left _ _ (Ok ?s)] =>
      pose proof (apply_after_block (between ++ redacting :: after) s eq_refl) as Hafter
    end.
    destruct (fold_left _ (between ++ redacting :: after) _) as [r|e].
    + exfalso. destruct Hafter as [_ Hall]. apply Forall_app in Hall as [_ Hall].
      apply Forall_cons in Hall as [Hred _]. congruence.
    + eauto.
  - rewrite apply_fold_raised. exists e. split; [reflexivity|].
    pose proof (apply_raises_only before
                  {| pa_original_text := text; pa_processed_text := Some text;
                     pa_blocked := false; pa_warnings := []; pa_applied_actions := [] |})
      as Hraise.
    rewrite E0 in Hraise. exact Hraise.
Qed.

Lemma apply_policy_actions_block_then_redact_witness :
  exists e,
    @apply_policy_actions quiet_sub medication_text block_then_redact = Raise e
    /\ (e = "TypeError" \/ e = "AttributeError" \/ e = "re.error").
Proof.
  exact (apply_policy_actions_block_then_redact quiet_sub medication_text [] [] []
           blocking_violation redacting_violation eq_refl eq_refl).
Defined.

(* ================================================================== *)
(** * Clean-up of old records *)
(* ================================================================== *)

Lemma filter_length_split {A : Type} (p : A -> bool) (l : list A) :
  length l = (length (List.filter p l) + length (List.filter (fun x => negb (p x)) l))%nat.
Proof.
  induction l as [|x l IH]; [reflexivity|]. simpl. destruct (p x); simpl; lia.
Qed.

Lemma filter_all {A : Type} (p : A -> bool) (l : list A) :
  Forall (fun x => p x = true) l -> List.filter p l = l.
Proof. induction 1 as [|x l Hx _ IH]; simpl; [reflexivity | rewrite Hx, IH; reflexivity]. Qed.

Lemma filter_none {A : Type} (p : A -> bool) (l : list A) :
  Forall (fun x => p x = false) l -> List.filter p l = [].
Proof. induction 1 as [|x l Hx _ IH]; simpl; [reflexivity | rewrite Hx; exact IH]. Qed.

(** X15: [cleanup_old_logs] keeps, in their order, exactly the records
    whose timestamp is not below the cut-off as text, returns the number of
    records it removed, leaves the statistics alone, and does not free an
    id: the next record gets the id it would have got without the
    clean-up. *)
Theorem cleanup_old_logs_keeps_recent (cal : calendar) (days_to_keep : Z) (d : database)
  (cutoff_date : string) :
  cal_days_before_now cal days_to_keep = Ok cutoff_date ->
  Forall (fun row => row_id row <= audit_seq d) (audit_log d) ->
  let d' := fst (cleanup_old_logs cal days_to_keep d) in
  audit_log d'
  = List.filter (fun row => negb (String.ltb (row_timestamp row) cutoff_date)) (audit_log d)
  /\ snd (cleanup_old_logs cal days_to_keep d)
     = Ok (Z.of_nat (length (audit_log d)) - Z.of_nat (length (audit_log d')))
  /\ statistics d' = statistics d
  /\ next_id d' = next_id d.
Proof.
  intros Hcut Hseq. unfold cleanup_old_logs. rewrite Hcut. cbn [fst snd audit_log statistics].
  split; [reflexivity|]. split; [|split; [reflexivity|]].
  - f_equal.
    rewrite (filter_length_split (fun row => String.ltb (row_timestamp row) cutoff_date)
               (audit_log d)).
    lia.
  - assert (Hmax : forall l : list audit_row,
               Forall (fun row => row_id row <= audit_seq d) l ->
               fold_left Z.max (List.map row_id l) (audit_seq d) = audit_seq d).
    { induction l as [|x l IH]; intros Hl; [reflexivity|].
      apply Forall_cons in Hl as [Hx Hl]. simpl. rewrite Z.max_l by lia. apply IH, Hl. }
    unfold next_id. cbn [audit_log audit_seq]. rewrite !Hmax; [reflexivity | exact Hseq |].
    rewrite List.Forall_forall in Hseq |- *. intros x Hx. apply filter_In in Hx as [Hx _].
    apply Hseq, Hx.
Qed.

Lemma aged_ledger_appended :
  appended many_writers empty_database
    [(worked_clock, march_entry); (worked_clock, december_entry)] = Some aged_ledger.
Proof. vm_compute. reflexivity. Qed.

Lemma aged_ledger_ok : ledger_ok aged_ledger.
Proof.
  eapply (appended_ok many_writers _ empty_database);
    [apply empty_database_ok | | apply aged_ledger_appended].
  repeat constructor.
Qed.

Lemma cleanup_old_logs_keeps_recent_witness :
  let d' := fst (cleanup_old_logs worked_calendar 90 aged_ledger) in
  audit_log d'
  = List.filter
      (fun row => negb (String.ltb (row_timestamp row) "2024-10-04T10:00:00.000001"))
      (audit_log aged_ledger)
  /\ snd (cleanup_old_logs worked_calendar 90 aged_ledger)
     = Ok (Z.of_nat (length (audit_log aged_ledger)) - Z.of_nat (length (audit_log d')))
  /\ statistics d' = statistics aged_ledger
  /\ next_id d' = next_id aged_ledger.
Proof.
  apply (cleanup_old_logs_keeps_recent worked_calendar 90 aged_ledger
           "2024-10-04T10:00:00.000001" eq_refl).
  vm_compute. repeat constructor; discriminate.
Defined.

(** X16: a clean-up that removes the oldest records of a ledger in order
    and keeps a later one breaks the chain: the verifier reads the first
    record that is left right after the genesis sentinel, and reports it
    unless its stored hash is the hash of its fields and of that sentinel;
    no record after it is reported. *)
Theorem cleanup_old_logs_breaks_chain (cal : calendar) (days_to_keep : Z) (d : database)
  (cutoff_date : string) (removed kept : list audit_row) (first_kept : audit_row) :
  ledger_ok d ->
  cal_days_before_now cal days_to_keep = Ok cutoff_date ->
  audit_log d = removed ++ first_kept :: kept ->
  Forall (fun row => String.ltb (row_timestamp row) cutoff_date = true) removed ->
  Forall (fun row => String.ltb (row_timestamp row) cutoff_date = false) (first_kept :: kept) ->
  let v := verify_hash_chain None (fst (cleanup_old_logs cal days_to_keep d)) in
  entries_checked v = Z.of_nat (length (first_kept :: kept))
  /\ invalid_entries v = genesis_mismatch first_kept
  /\ valid v = String.eqb (calculate_hash (entry_data first_kept) "genesis")
                 (row_hash first_kept).
Proof.
  intros (Hsort & Hchain & _) Hcut Hlog Hold Hnew.
  assert (Hkept : audit_log (fst (cleanup_old_logs cal days_to_keep d)) = first_kept :: kept).
  { unfold cleanup_old_logs. rewrite Hcut. cbn [fst audit_log]. rewrite Hlog, List.filter_app.
    rewrite filter_none, filter_all; [reflexivity | |].
    - eapply List.Forall_impl; [|exact Hnew]. simpl. intros row ->. reflexivity.
    - eapply List.Forall_impl; [|exact Hold]. simpl. intros row ->. reflexivity. }
  rewrite Hlog in Hsort, Hchain.
  assert (Hsort' : StronglySorted (fun a b => row_id a < row_id b) (first_kept :: kept)).
  { clear -Hsort. induction removed as [|x l IH]; [exact Hsort|].
    apply IH. simpl in Hsort. apply StronglySorted_inv in Hsort. tauto. }
  apply chain_from_app in Hchain as [_ Hchain]. destruct Hchain as [_ Hchain].
  intros v. subst v. unfold verify_hash_chain, select_ordered. rewrite Hkept.
  rewrite order_by_id_sorted by exact Hsort'.
  cbn [fold_left]. unfold genesis_mismatch.
  assert (Hstep : verify_step (true, [], "genesis") first_kept
                  = if String.eqb (calculate_hash (entry_data first_kept) "genesis")
                         (row_hash first_kept)
                    then (true, [], row_hash first_kept)
                    else (false,
                          [ {| inv_id := row_id first_kept;
                               inv_expected_hash :=
                                 calculate_hash (entry_data first_kept) "genesis";
                               inv_actual_hash := row_hash first_kept |} ],
                          row_hash first_kept)).
  { unfold verify_step. destruct (String.eqb _ _); reflexivity. }
  rewrite Hstep.
  destruct (String.eqb (calculate_hash (entry_data first_kept) "genesis") (row_hash first_kept));
    rewrite verify_fold_chain by exact Hchain; repeat split.
Qed.

Lemma cleanup_old_logs_breaks_chain_witness :
  let v := verify_hash_chain None (fst (cleanup_old_logs worked_calendar 90 aged_ledger)) in
  entries_checked v = 1
  /\ valid v = false
  /\ List.map inv_id (invalid_entries v) = [2].
Proof.
  destruct (cleanup_old_logs_breaks_chain worked_calendar 90 aged_ledger
              "2024-10-04T10:00:00.000001"
              (firstn 1 (audit_log aged_ledger)) []
              (nth 1 (audit_log aged_ledger) worked_row)
              aged_ledger_ok eq_refl eq_refl)
    as (H1 & H2 & H3).
  - vm_compute. repeat constructor.
  - vm_compute. repeat constructor.
  - cbv zeta. rewrite H1, H2, H3. vm_compute. repeat split.
Defined.

(* ================================================================== *)
(** * Sorting by a total order given as a test *)
(* ================================================================== *)

Section StableSortBy.
Context {A : Type} (before : A -> A -> bool).
Hypothesis before_total : forall a b, before a b = true \/ before b a = true.
Hypothesis before_trans : forall a b c, before a b = true -> before b c = true -> before a c = true.

Lemma sort_insert_by_sorted (x : A) (l : list A) :
  StronglySorted (fun a b => before a b = true) l ->
  StronglySorted (fun a b => before a b = true) (sort_insert before x l).
Proof.
  induction 1 as [|y l Hl IH Hy]; simpl.
  - constructor; constructor.
  - destruct (before x y) eqn:Hxy.
    + constructor; [constructor; assumption|].
      constructor; [assumption|].
      eapply List.Forall_impl; [|exact Hy]. intros z Hz. simpl in Hz. eauto.
    + constructor; [exact IH|].
      eapply Permutation_Forall; [symmetry; apply sort_insert_perm|].
      constructor; [|exact Hy].
      destruct (before_total x y) as [H|H]; [congruence | exact H].
Qed.

Lemma stable_sort_by_sorted (l : list A) :
  StronglySorted (fun a b => before a b = true) (stable_sort before l).
Proof.
  induction l as [|x l IH]; simpl; [constructor|].
  apply sort_insert_by_sorted, IH.
Qed.

End StableSortBy.

(** ** The order of text *)







(* ================================================================== *)
(** * Statistics *)
(* ================================================================== *)






Example get_statistics_worked :
  get_statistics worked_calendar 30 worked_statistics
  = Ok (VDict
          [ ("summary",
             VDict [ ("total_scans", VInt 4); ("total_pii_detections", VInt 3);
                     ("total_policy_violations", VInt 2); ("total_blocked", VInt 1);
                     ("days_active", VInt 1) ]);
            ("daily_breakdown",
             VList [ VDict [ ("date", VStr "2025-01-01"); ("scans", VInt 4); ("pii", VInt 3);
                             ("violations", VInt 2); ("blocked", VInt 1) ] ]);
            ("period", VStr "Last 30 days") ]).
Proof. vm_compute. reflexivity. Qed.

(* ================================================================== *)
(** * Reading the audit log *)
(* ================================================================== *)

Lemma order_by_id_desc_sorted (rows : list audit_row) :
  StronglySorted (fun a b => row_id b <= row_id a) (order_by_id_desc rows).
Proof.
  eapply StronglySorted_impl;
    [|apply (stable_sort_by_sorted (fun a b : audit_row => row_id b <=? row_id a))].
  - intros a b Hab. simpl in Hab. lia.
  - intros a b. simpl. lia.
  - intros a b c. simpl. lia.
Qed.

Lemma StronglySorted_sublist {A : Type} (R : A -> A -> Prop) (l l' : list A) :
  sublist l l' -> StronglySorted R l' -> StronglySorted R l.
Proof.
  induction 1 as [|x l1 l2 Hsub IH|x l1 l2 Hsub IH]; intros Hs.
  - constructor.
  - apply StronglySorted_inv in Hs as [Hs Hx]. constructor; [apply IH, Hs|].
    rewrite List.Forall_forall in Hx |- *. intros y Hy. apply Hx.
    apply list_elem_of_In. eapply elem_of_sublist; [|exact Hsub]. apply list_elem_of_In, Hy.
  - apply StronglySorted_inv in Hs as [Hs _]. apply IH, Hs.
Qed.

Lemma limit_offset_sublist {A : Type} (limit offset : Z) (l : list A) :
  sublist (limit_offset limit offset l) l.
Proof.
  unfold limit_offset. destruct (limit <? 0).
  - apply sublist_drop.
  - etransitivity; [apply sublist_take | apply sublist_drop].
Qed.

Lemma limit_offset_in {A : Type} (limit offset : Z) (l : list A) (x : A) :
  In x (limit_offset limit offset l) -> In x l.
Proof.
  intros Hx. apply list_elem_of_In. eapply elem_of_sublist; [|apply limit_offset_sublist].
  apply list_elem_of_In, Hx.
Qed.

Lemma limit_offset_length {A : Type} (limit offset : Z) (l : list A) :
  0 <= limit -> Z.of_nat (length (limit_offset limit offset l)) <= limit.
Proof.
  intros Hl. unfold limit_offset. destruct (Z.ltb_spec limit 0); [lia|].
  rewrite length_firstn. lia.
Qed.

Section Logs.
Context `{JsonDecoder}.

Lemma parse_logs_rows (rows : list audit_row) (logs : list audit_log_entry) :
  parse_logs rows = Ok logs -> List.map log_row logs = rows.
Proof.
  revert logs. induction rows as [|row rows IH]; intros logs Hp; simpl in Hp.
  - injection Hp as <-. reflexivity.
  - unfold parse_log in Hp.
    destruct (loads_column (row_pii_detected row)); cbn [mbind result_bind bind] in Hp;
      [|discriminate].
    destruct (loads_column (row_policy_violations row)); cbn [mbind result_bind bind] in Hp;
      [|discriminate].
    destruct (loads_column (row_metadata row)); cbn [mbind result_bind bind] in Hp;
      [|discriminate].
    destruct (parse_logs rows) as [logs'|]; cbn [mbind result_bind bind] in Hp; [|discriminate].
    injection Hp as <-. simpl. f_equal. apply IH. reflexivity.
Qed.

Lemma parse_logs_app (rows1 rows2 : list audit_row) (logs1 logs2 : list audit_log_entry) :
  parse_logs rows1 = Ok logs1 -> parse_logs rows2 = Ok logs2 ->
  parse_logs (rows1 ++ rows2) = Ok (logs1 ++ logs2).
Proof.
  revert logs1. induction rows1 as [|row rows1 IH]; intros logs1 H1 H2; simpl in *.
  - injection H1 as <-. exact H2.
  - destruct (parse_log row) as [log|]; cbn [mbind result_bind bind] in *; [|discriminate].
    destruct (parse_logs rows1) as [logs'|]; cbn [mbind result_bind bind] in *; [|discriminate].
    injection H1 as <-. rewrite (IH logs' eq_refl H2). reflexivity.
Qed.

End Logs.

Lemma filter_param_text (filters : gmap string value) (key s : string)
  (param : option (option string)) :
  filter_param filters key = Ok param ->
  filters !! key = Some (VStr s) -> param = Some (Some s).
Proof. unfold filter_param. intros Hp Hk. rewrite Hk in Hp. injection Hp as <-. reflexivity. Qed.

(** What the SELECT of [get_audit_logs] yields, once its parameters are
    bound. *)
Lemma select_logs_rows (limit offset : Z) (filters : gmap string value) (d : database)
  (rows : list audit_row) :
  select_logs limit offset filters d = Ok rows ->
  exists selected,
    rows = limit_offset limit offset (order_by_id_desc selected)
    /\ Forall (fun row => In row (audit_log d) /\ filter_holds filters row) selected.
Proof.
  unfold select_logs. intros Hs.
  destruct (filter_param filters "start_date") as [p1|] eqn:E1;
    cbn [mbind result_bind bind] in Hs; [|discriminate].
  destruct (filter_param filters "end_date") as [p2|] eqn:E2;
    cbn [mbind result_bind bind] in Hs; [|discriminate].
  destruct (filter_param filters "event_type") as [p3|] eqn:E3;
    cbn [mbind result_bind bind] in Hs; [|discriminate].
  destruct (filter_param filters "action_taken") as [p4|] eqn:E4;
    cbn [mbind result_bind bind] in Hs; [|discriminate].
  unfold sql_int in Hs.
  destruct ((- 2 ^ 63 <=? limit) && (limit <? 2 ^ 63)); cbn [mbind result_bind bind] in Hs;
    [|discriminate].
  destruct ((- 2 ^ 63 <=? offset) && (offset <? 2 ^ 63)); cbn [mbind result_bind bind] in Hs;
    [|discriminate].
  injection Hs as <-. eexists. split; [reflexivity|].
  apply List.Forall_forall. intros row Hrow. apply filter_In in Hrow as [Hin Hc].
  split; [exact Hin|].
  apply andb_prop in Hc as [Hc H4]. apply andb_prop in Hc as [Hc H3].
  apply andb_prop in Hc as [H1 H2].
  unfold filter_holds. repeat split; intros s Hk.
  - rewrite (filter_param_text _ _ _ _ E1 Hk) in H1. exact H1.
  - rewrite (filter_param_text _ _ _ _ E2 Hk) in H2. exact H2.
  - rewrite (filter_param_text _ _ _ _ E3 Hk) in H3. simpl in H3.
    apply String.eqb_eq in H3. exact H3.
  - rewrite (filter_param_text _ _ _ _ E4 Hk) in H4. simpl in H4.
    destruct (row_action_taken row); [|discriminate].
    apply String.eqb_eq in H4. subst. reflexivity.
Qed.

(** X18: what [get_audit_logs] returns are records of the log, the latest
    id first, no more of them than a limit that is not negative, and each
    of them meets every condition that the filter gives as text: a
    timestamp not before [start_date] and not after [end_date] as text, the
    event type and the action taken of the filter. *)
Theorem get_audit_logs_newest_first (decoder : JsonDecoder) (limit offset : Z)
  (filters : gmap string value) (d : database) (logs : list audit_log_entry) :
  @get_audit_logs decoder limit offset filters d = Ok logs ->
  StronglySorted (fun a b => row_id (log_row b) <= row_id (log_row a)) logs
  /\ (0 <= limit -> Z.of_nat (length logs) <= limit)
  /\ Forall (fun log => In (log_row log) (audit_log d) /\ filter_holds filters (log_row log))
       logs.
Proof.
  unfold get_audit_logs. intros Hg.
  destruct (select_logs limit offset filters d) as [rows|] eqn:Hsel;
    cbn [mbind result_bind bind] in Hg; [|discriminate].
  apply parse_logs_rows in Hg.
  destruct (select_logs_rows _ _ _ _ _ Hsel) as (selected & Hrows & Hall).
  assert (Hperm : forall row, In row rows -> In row selected).
  { intros row Hrow. rewrite Hrows in Hrow. apply limit_offset_in in Hrow.
    exact (Permutation_in _ (stable_sort_perm _ _) Hrow). }
  split; [|split].
  - assert (Hs : StronglySorted (fun a b => row_id b <= row_id a) (List.map log_row logs)).
    { rewrite Hg, Hrows.
      eapply StronglySorted_sublist; [apply limit_offset_sublist|].
      apply order_by_id_desc_sorted. }
    clear -Hs. induction logs as [|log logs IH]; [constructor|].
    simpl in Hs. apply StronglySorted_inv in Hs as [Hs Hx].
    constructor; [apply IH, Hs|]. rewrite List.Forall_map in Hx. exact Hx.
  - intros Hl. rewrite <- (length_map log_row), Hg, Hrows. apply limit_offset_length, Hl.
  - apply List.Forall_forall. intros log Hlog.
    rewrite List.Forall_forall in Hall. apply Hall, Hperm. rewrite <- Hg.
    apply in_map, Hlog.
Qed.

Lemma get_audit_logs_worked :
  @get_audit_logs worked_decoder 1 0 test_filter worked_ledger = Ok worked_logs
  /\ List.map (fun log => row_id (log_row log)) worked_logs = [2].
Proof. split; vm_compute; reflexivity. Qed.

Lemma get_audit_logs_newest_first_witness :
  @get_audit_logs worked_decoder 1 0 test_filter worked_ledger = Ok worked_logs
  /\ StronglySorted (fun a b => row_id (log_row b) <= row_id (log_row a)) worked_logs
  /\ (0 <= 1 -> Z.of_nat (length worked_logs) <= 1)
  /\ Forall (fun log => In (log_row log) (audit_log worked_ledger)
                        /\ filter_holds test_filter (log_row log))
       worked_logs.
Proof.
  split; [exact (proj1 get_audit_logs_worked)|].
  exact (get_audit_logs_newest_first worked_decoder 1 0 test_filter worked_ledger worked_logs
           (proj1 get_audit_logs_worked)).
Defined.

Lemma select_logs_page (limit offset : Z) (filters : gmap string value) (d : database)
  (rows : list audit_row) :
  select_logs limit offset filters d = Ok rows ->
  - 2 ^ 63 <= offset < 2 ^ 63
  /\ exists ordered,
       rows = limit_offset limit offset ordered
       /\ forall limit' offset',
            - 2 ^ 63 <= limit' < 2 ^ 63 -> - 2 ^ 63 <= offset' < 2 ^ 63 ->
            select_logs limit' offset' filters d = Ok (limit_offset limit' offset' ordered).
Proof.
  unfold select_logs. intros Hs.
  destruct (filter_param filters "start_date") as [p1|];
    cbn [mbind result_bind bind] in *; [|discriminate].
  destruct (filter_param filters "end_date") as [p2|];
    cbn [mbind result_bind bind] in *; [|discriminate].
  destruct (filter_param filters "event_type") as [p3|];
    cbn [mbind result_bind bind] in *; [|discriminate].
  destruct (filter_param filters "action_taken") as [p4|];
    cbn [mbind result_bind bind] in *; [|discriminate].
  unfold sql_int in *.
  destruct ((- 2 ^ 63 <=? limit) && (limit <? 2 ^ 63)); cbn [mbind result_bind bind] in Hs;
    [|discriminate].
  destruct ((- 2 ^ 63 <=? offset) && (offset <? 2 ^ 63)) eqn:Hoff;
    cbn [mbind result_bind bind] in Hs; [|discriminate].
  injection Hs as <-. split.
  { apply andb_prop in Hoff as [Ha Hb]. apply Z.leb_le in Ha. apply Z.ltb_lt in Hb. lia. }
  eexists. split; [reflexivity|]. intros limit' offset' Hl Ho.
  assert (Hin : forall z, - 2 ^ 63 <= z < 2 ^ 63 -> (- 2 ^ 63 <=? z) && (z <? 2 ^ 63) = true).
  { intros z Hz. apply andb_true_intro. split; [apply Z.leb_le | apply Z.ltb_lt]; lia. }
  rewrite (Hin limit' Hl), (Hin offset' Ho). reflexivity.
Qed.

(** X19: two consecutive pages of [get_audit_logs], read from the same
    database with the same filter, make up the page of both: no record
    between them is skipped and none is repeated. *)
Theorem get_audit_logs_pages (decoder : JsonDecoder) (first second offset : Z)
  (filters : gmap string value) (d : database) (logs1 logs2 : list audit_log_entry) :
  0 <= first -> 0 <= second -> 0 <= offset -> first + second < 2 ^ 63 ->
  @get_audit_logs decoder first offset filters d = Ok logs1 ->
  @get_audit_logs decoder second (offset + first) filters d = Ok logs2 ->
  @get_audit_logs decoder (first + second) offset filters d = Ok (logs1 ++ logs2).
Proof.
  intros Hf Hs Ho Hsum H1 H2. unfold get_audit_logs in *.
  destruct (select_logs first offset filters d) as [rows1|] eqn:E1;
    cbn [mbind result_bind bind] in H1; [|discriminate].
  destruct (select_logs second (offset + first) filters d) as [rows2|] eqn:E2;
    cbn [mbind result_bind bind] in H2; [|discriminate].
  destruct (select_logs_page _ _ _ _ _ E1) as (Hoff & ordered & Hrows1 & Hany).
  destruct (select_logs_page _ _ _ _ _ E2) as (Hoff2 & _).
  rewrite Hany in E2 by lia. injection E2 as <-.
  rewrite Hany by lia. cbn [mbind result_bind bind].
  replace (limit_offset (first + second) offset ordered)
    with (rows1 ++ limit_offset second (offset + first) ordered).
  - apply parse_logs_app; assumption.
  - rewrite Hrows1. unfold limit_offset.
    destruct (Z.ltb_spec first 0); [lia|]. destruct (Z.ltb_spec second 0); [lia|].
    destruct (Z.ltb_spec (first + second) 0); [lia|].
    rewrite (Z2Nat.inj_add first second), (Z2Nat.inj_add offset first) by lia.
    rewrite <- take_take_drop. f_equal. rewrite drop_drop. reflexivity.
Qed.

Lemma get_audit_logs_pages_witness :
  exists logs1 logs2,
    @get_audit_logs worked_decoder 1 0 ∅ worked_ledger = Ok logs1
    /\ @get_audit_logs worked_decoder 1 (0 + 1) ∅ worked_ledger = Ok logs2
    /\ @get_audit_logs worked_decoder (1 + 1) 0 ∅ worked_ledger = Ok (logs1 ++ logs2).
Proof.
  eexists. eexists. split; [vm_compute; reflexivity|]. split; [vm_compute; reflexivity|].
  apply (get_audit_logs_pages worked_decoder 1 1 0 ∅ worked_ledger); try lia.
  - vm_compute. reflexivity.
  - vm_compute. reflexivity.
Defined.





(* ================================================================== *)
(** * Export *)
(* ================================================================== *)

(** X21: [export_logs] reads the logs before it looks at the format: a
    format that is neither json nor csv raises [ValueError] when the read
    has succeeded, and the error of the read otherwise; with no log to
    export the CSV export is the empty string, without the header line,
    and the JSON export is the empty list. *)
Theorem export_logs_formats (decoder : JsonDecoder) (format : string)
  (filters : gmap string value) (d : database) :
  (format <> "json" -> format <> "csv" ->
   @export_logs decoder format filters d
   = match @get_audit_logs decoder 10000 0 filters d with
     | Ok _ => Raise "ValueError"
     | Raise e => Raise e
     end)
  /\ (@get_audit_logs decoder 10000 0 filters d = Ok [] ->
      @export_logs decoder "csv" filters d = Ok EmptyString
      /\ @export_logs decoder "json" filters d = Ok "[]").
Proof.
  unfold export_logs. split.
  - intros Hj Hc. destruct (get_audit_logs 10000 0 filters d); [|reflexivity].
    cbn [mbind result_bind bind].
    destruct (String.eqb_spec format "json"); [contradiction|].
    destruct (String.eqb_spec format "csv"); [contradiction|]. reflexivity.
  - intros ->. split; reflexivity.
Qed.

Lemma export_logs_formats_witness :
  @export_logs worked_decoder "xml" ∅ worked_ledger = Raise "ValueError"
  /\ @export_logs worked_decoder "csv" ∅ empty_database = Ok EmptyString
  /\ @export_logs worked_decoder "json" ∅ empty_database = Ok "[]".
Proof.
  split.
  - rewrite (proj1 (export_logs_formats worked_decoder "xml" ∅ worked_ledger))
      by discriminate.
    vm_compute. reflexivity.
  - exact (proj2 (export_logs_formats worked_decoder "csv" ∅ empty_database) eq_refl).
Defined.

(** The CSV export of the worked ledger: the header and a line for each of
    its two records, the later one first. *)
Example export_logs_csv_worked :
  @export_logs worked_decoder "csv" ∅ worked_ledger
  = Ok ("id,timestamp,event_type,action_taken,pii_count,violation_count,hash"
        +:+ String "013" newline
        +:+ "2,2024-01-01T12:00:00,test,allowed,0,0,"
        +:+ "8b0ed8e9d008fcb9696bdbe02fa9aeebde5c241d01400823852543c3ef62213a"
        +:+ String "013" newline
        +:+ "1,2024-01-01T12:00:00,test,allowed,0,0,"
        +:+ "2deeb99f0deb14950e56ff05fc815ec9633977df0b2a73e266744caf92c2fd0e"
        +:+ String "013" newline).
Proof. vm_compute. reflexivity. Qed.

(* ================================================================== *)
(** * The tool dispatcher *)
(* ================================================================== *)

Lemma server_eta (self : AIGovernanceMCP) :
  {| db := db self; config := config self; session_id := session_id self |} = self.
Proof. destruct self. reflexivity. Qed.

Lemma append_entry_locked (clk : clock) (entry : gmap string value) (d : database) :
  exists e, append_entry sqlite clk entry d = (d, Raise e).
Proof.
  unfold append_entry. destruct (add_audit_entry_locked clk entry d) as [e ->].
  exists e. reflexivity.
Qed.

(** X22: on SQLite, with audit logging on, a call of the [scan_prompt]
    tool whose prompt is not over the limit never answers with the result
    of the scan: the write of the statistics fails, the dispatcher catches
    the exception and answers with the error document, and the server and
    its database are as before the call. *)
Theorem scan_prompt_tool_fails_on_sqlite (engine : ReEngine) (decoder : JsonDecoder)
  (self : AIGovernanceMCP) (clk : clock) (cal : calendar) (args : scan_args) :
  truthy (dict_get (config self) "audit_logging_enabled" (VBool true)) = true ->
  int_gt (len (default EmptyString (arg_prompt args)))
    (dict_get (config self) "max_prompt_length" (VInt 10000)) = Ok false ->
  exists exc,
    @handle_call_tool engine decoder sqlite self clk cal (call_scan_prompt args)
    = (self, error_content exc "scan_prompt" (now_isoformat clk)).
Proof.
  intros Hlog Hlen. unfold handle_call_tool, call_tool, _scan_prompt.
  rewrite Hlen.
  match goal with
  | |- context [scan_response ?c ?p ?a] => destruct (scan_response c p a) as [[[r rp] act]|e]
  end.
  - rewrite Hlog.
    match goal with
    | |- context [append_entry sqlite clk ?entry (db self)] =>
      destruct (append_entry_locked clk entry (db self)) as [e ->]
    end.
    rewrite server_eta. exists e. reflexivity.
  - exists e. reflexivity.
Qed.

Lemma scan_prompt_tool_fails_on_sqlite_witness :
  exists exc,
    @handle_call_tool worked_engine worked_decoder sqlite fresh_server worked_clock
      worked_calendar (call_scan_prompt medication_args)
    = (fresh_server, error_content exc "scan_prompt" (now_isoformat worked_clock)).
Proof.
  exact (scan_prompt_tool_fails_on_sqlite worked_engine worked_decoder fresh_server
           worked_clock worked_calendar medication_args eq_refl eq_refl).
Defined.

Example scan_prompt_tool_worked :
  @handle_call_tool worked_engine worked_decoder sqlite fresh_server worked_clock
    worked_calendar (call_scan_prompt medication_args)
  = (fresh_server,
     error_content "sqlite3.OperationalError" "scan_prompt" "2024-01-02T10:00:00.000001").
Proof. vm_compute. reflexivity. Qed.

(* ================================================================== *)
(** * Compliance check and scan *)
(* ================================================================== *)

Lemma length_zero_nil {A : Type} (l : list A) : Nat.eqb (length l) 0 = true -> l = [].
Proof. destruct l; [reflexivity | discriminate]. Qed.

(** X23: a text that [_check_compliance] finds compliant is allowed by
    [_scan_prompt] under the same configuration: whenever the scan returns
    its response, the action is allowed, the prompt comes back unchanged
    as the redacted prompt, it is safe to send, and no finding and no
    violation is listed. *)
Theorem compliant_text_is_allowed (engine : ReEngine) (w : writers) (self : AIGovernanceMCP)
  (clk : clock) (args : scan_args) (doc r : value) :
  @_check_compliance engine self (arg_prompt args) = Ok doc ->
  value_get doc "compliant" = VBool true ->
  int_gt (len (default EmptyString (arg_prompt args)))
    (dict_get (config self) "max_prompt_length" (VInt 10000)) = Ok false ->
  snd (@_scan_prompt engine w self clk args) = Ok r ->
  value_get r "action" = VStr "allowed"
  /\ value_get r "redacted_prompt" = VStr (default EmptyString (arg_prompt args))
  /\ value_get r "safe_to_send" = VBool true
  /\ value_get r "pii_detected" = VList []
  /\ value_get r "policy_violations" = VList [].
Proof.
  intros Hc Hcompliant Hlen Hr.
  set (prompt := default EmptyString (arg_prompt args)) in *.
  assert (Hnone : detect_pii prompt
                    (truthy (dict_get (config self) "extended_patterns" (VBool false))) = []
                  /\ check_policies prompt
                       (truthy (dict_get (config self) "extended_policies" (VBool false))) None
                     = []).
  { unfold _check_compliance in Hc. fold prompt in Hc.
    destruct (get_pii_summary _); cbn [mbind result_bind bind] in Hc; [|discriminate].
    destruct (get_policy_summary _); cbn [mbind result_bind bind] in Hc; [|discriminate].
    injection Hc as <-. cbn in Hcompliant. injection Hcompliant as Hb.
    apply andb_prop in Hb as [H1 H2]. split; apply length_zero_nil; assumption. }
  destruct Hnone as [Hpii Hvio].
  unfold _scan_prompt in Hr. fold prompt in Hr. rewrite Hlen in Hr.
  assert (Hs : forall auto_redact,
             exists response,
               scan_response (config self) prompt auto_redact = Ok (response, prompt, "allowed")
               /\ value_get response "action" = VStr "allowed"
               /\ value_get response "redacted_prompt" = VStr prompt
               /\ value_get response "safe_to_send" = VBool true
               /\ value_get response "pii_detected" = VList []
               /\ value_get response "policy_violations" = VList []).
  { intros auto_redact. unfold scan_response. rewrite Hpii, Hvio.
    destruct (truthy (dict_get (config self) "pii_detection_enabled" (VBool true)));
      destruct (truthy (dict_get (config self) "policy_enforcement_enabled" (VBool true)));
      cbn [length Nat.eqb negb andb]; rewrite andb_false_r;
      cbn [mbind result_bind bind]; eexists; (split; [reflexivity|]); repeat split. }
  match type of Hr with
  | context [scan_response _ _ ?a] =>
    destruct (Hs a) as (response & Hresp & H1 & H2 & H3 & H4 & H5)
  end.
  rewrite Hresp in Hr.
  destruct (truthy (dict_get (config self) "audit_logging_enabled" (VBool true))).
  - destruct (append_entry _ _ _ _) as [d' [h|e]]; cbn [snd] in Hr; [|discriminate].
    injection Hr as <-. rewrite !value_get_value_set by discriminate. auto.
  - cbn [snd] in Hr. injection Hr as <-. auto.
Qed.

Lemma compliant_text_is_allowed_witness :
  @_check_compliance worked_engine quiet_server (arg_prompt hello_args) = Ok hello_compliance
  /\ value_get hello_compliance "compliant" = VBool true
  /\ snd (@_scan_prompt worked_engine sqlite quiet_server worked_clock hello_args)
     = Ok hello_response
  /\ value_get hello_response "action" = VStr "allowed"
  /\ value_get hello_response "redacted_prompt"
     = VStr (default EmptyString (arg_prompt hello_args))
  /\ value_get hello_response "safe_to_send" = VBool true
  /\ value_get hello_response "pii_detected" = VList []
  /\ value_get hello_response "policy_violations" = VList [].
Proof.
  assert (H1 : @_check_compliance worked_engine quiet_server (arg_prompt hello_args)
               = Ok hello_compliance) by (vm_compute; reflexivity).
  assert (H2 : value_get hello_compliance "compliant" = VBool true) by (vm_compute; reflexivity).
  assert (H3 : snd (@_scan_prompt worked_engine sqlite quiet_server worked_clock hello_args)
               = Ok hello_response) by (vm_compute; reflexivity).
  split; [exact H1|]. split; [exact H2|]. split; [exact H3|].
  exact (compliant_text_is_allowed worked_engine sqlite quiet_server worked_clock hello_args
           hello_compliance hello_response H1 H2 eq_refl H3).
Defined.

(* ================================================================== *)
(** * The integrity tool *)
(* ================================================================== *)

Lemma chain_from_take (prev : string) (rows : list audit_row) (n : nat) :
  chain_from prev rows -> chain_from prev (take n rows).
Proof.
  intros Hc. rewrite <- (take_drop n rows) in Hc. apply chain_from_app in Hc. tauto.
Qed.

(** X24: [_verify_integrity] verifies the first [limit] records only, one
    hundred when the tool is called without a limit: on a ledger in order,
    whatever is written over a record that stands after them, its id
    kept, the answer is that the chain is intact, with [limit] entries
    checked. *)
Theorem verify_integrity_checks_prefix (self : AIGovernanceMCP) (arg_limit : option Z)
  (k : nat) (r r' : audit_row) :
  ledger_ok (db self) ->
  audit_log (db self) !! k = Some r ->
  row_id r' = row_id r ->
  0 < default 100 arg_limit <= Z.of_nat k ->
  _verify_integrity (with_db (store_row k r' (db self)) self) arg_limit
  = {| valid := true;
       entries_checked := default 100 arg_limit;
       invalid_entries := [];
       message := "Hash chain is intact" |}.
Proof.
  intros (Hsort & Hchain & _) Hk Hid Hlimit.
  unfold _verify_integrity, with_db, verify_hash_chain, select_ordered, store_row.
  cbn [db audit_log].
  destruct (Z.eqb_spec (default 100 arg_limit) 0); [lia|].
  destruct (Z.ltb_spec (default 100 arg_limit) 0); [lia|].
  rewrite order_by_id_sorted by (eapply insert_same_key_sorted; eassumption).
  assert (Hlen : (k < length (audit_log (db self)))%nat) by (eapply lookup_lt_Some; exact Hk).
  rewrite take_insert_ge by lia.
  rewrite verify_fold_chain by (apply chain_from_take, Hchain).
  rewrite length_take. f_equal. lia.
Qed.

Lemma verify_integrity_checks_prefix_witness :
  _verify_integrity
    (with_db (store_row 1 (with_original_text (Some "forged")
                             (nth 1 (audit_log worked_ledger) worked_row))
                (db (with_db worked_ledger fresh_server)))
       (with_db worked_ledger fresh_server))
    (Some 1)
  = {| valid := true;
       entries_checked := default 100 (Some 1);
       invalid_entries := [];
       message := "Hash chain is intact" |}.
Proof.
  apply (verify_integrity_checks_prefix (with_db worked_ledger fresh_server) (Some 1) 1%nat
           (nth 1 (audit_log worked_ledger) worked_row)).
  - exact worked_ledger_ok.
  - vm_compute. reflexivity.
  - vm_compute. reflexivity.
  - vm_compute. split; [reflexivity | discriminate].
Defined.

(* ================================================================== *)
(** * Resources *)
(* ================================================================== *)

(** X25: reading the resource [governance://policies] raises [TypeError]
    whatever the configuration, the database and the clock: every rule
    of the policy tables carries its action as a [PolicyAction], which
    [json.dumps] cannot serialise.  The resource [governance://patterns]
    is always delivered. *)
Theorem read_policies_resource_raises (decoder : JsonDecoder) (self : AIGovernanceMCP)
  (clk : clock) (cal : calendar) :
  @handle_read_resource decoder self clk cal "governance://policies" = Raise "TypeError"
  /\ exists text,
       @handle_read_resource decoder self clk cal "governance://patterns" = Ok (json_text text).
Proof.
  unfold handle_read_resource. split.
  - cbn [String.eqb Ascii.eqb Bool.eqb].
    destruct (truthy (dict_get (config self) "extended_policies" VNone)); reflexivity.
  - cbn [String.eqb Ascii.eqb Bool.eqb]. eauto.
Qed.

(* ================================================================== *)
(** * utils.py *)
(* ================================================================== *)

Lemma len_slice_to (s : string) (i : Z) :
  len (slice_to s i) = if i <? 0 then Z.max 0 (len s + i) else Z.min i (len s).
Proof.
  unfold slice_to, slice_index, len.
  rewrite <- los_length, los_substring, length_take, length_drop, los_length.
  destruct (Z.ltb_spec i 0); lia.
Qed.

Lemma len_nonneg (s : string) : 0 <= len s.
Proof. unfold len. lia. Qed.

(** X26: [truncate_text] returns a text that fits as it is; a longer text
    is cut to exactly [max_length] characters, the last three of them the
    ellipsis, when [max_length] is three or more; when [max_length] is
    below three the result is longer than [max_length]. *)
Theorem truncate_text_length (text : string) (max_length : Z) :
  (len text <= max_length -> truncate_text text max_length = text)
  /\ (3 <= max_length < len text ->
      truncate_text text max_length = slice_to text (max_length - 3) +:+ "..."
      /\ len (truncate_text text max_length) = max_length)
  /\ (max_length < 3 -> max_length < len text ->
      max_length < len (truncate_text text max_length)).
Proof.
  unfold truncate_text. pose proof (len_nonneg text) as Hn. split; [|split].
  - intros H. destruct (Z.leb_spec (len text) max_length); [reflexivity | lia].
  - intros H. destruct (Z.leb_spec (len text) max_length); [lia|].
    split; [reflexivity|]. rewrite len_app, len_slice_to.
    destruct (Z.ltb_spec (max_length - 3) 0); [lia|].
    change (len "...") with 3. lia.
  - intros H1 H2. destruct (Z.leb_spec (len text) max_length); [lia|].
    rewrite len_app, len_slice_to. change (len "...") with 3.
    destruct (Z.ltb_spec (max_length - 3) 0); lia.
Qed.

Lemma truncate_text_length_witness :
  2 < 3 /\ 2 < len "abcdefghij" /\ 2 < len (truncate_text "abcdefghij" 2).
Proof.
  split; [lia|]. split; [reflexivity|].
  apply (proj2 (proj2 (truncate_text_length "abcdefghij" 2))); [lia | reflexivity].
Defined.







(** ** The risk score *)

Section Scores.
Context (scores : list (string * Z)) (key dflt_key : string) (dflt : Z).
Hypothesis scores_bounded : Forall (fun kn => 0 <= snd kn <= 10) scores.
Hypothesis dflt_bounded : 0 <= dflt <= 10.

Lemma item_score_bounds (item : value) :
  match item_score scores key dflt_key dflt item with
  | Ok n => 0 <= n <= 10
  | Raise e => (e = "AttributeError" \/ e = "TypeError") /\ scorable key item = false
  end.
Proof.
  unfold item_score, scorable.
  destruct item as [| | | | |d]; cbn [item_get mbind result_bind bind]; auto.
  assert (Hfound : forall s,
             0 <= match List.find (fun kn => String.eqb (fst kn) s) scores with
                  | Some kn => snd kn
                  | None => dflt
                  end <= 10).
  { intros s. destruct (List.find _ scores) as [kn|] eqn:E; [|exact dflt_bounded].
    apply find_some in E as [Hin _]. rewrite List.Forall_forall in scores_bounded.
    exact (scores_bounded _ Hin). }
  destruct (List.find (fun kv => String.eqb (fst kv) key) d) as [[k v]|]; cbn [snd].
  - destruct v; cbn [score_get]; auto.
  - cbn [score_get]. apply Hfound.
Qed.

Lemma score_fold_raised (items : list value) (e : string) :
  fold_left
    (fun acc item =>
       score ← acc; n ← item_score scores key dflt_key dflt item; Ok (score + n))
    items (Raise e) = Raise e.
Proof. induction items as [|x l IH]; [reflexivity | exact IH]. Qed.

Lemma score_fold_from (items : list value) (start : Z) :
  match fold_left
          (fun acc item =>
             score ← acc; n ← item_score scores key dflt_key dflt item; Ok (score + n))
          items (Ok start) with
  | Ok total => start <= total <= start + 10 * Z.of_nat (length items)
  | Raise e =>
    (e = "AttributeError" \/ e = "TypeError")
    /\ Exists (fun item => scorable key item = false) items
  end.
Proof.
  revert start. induction items as [|item items IH]; intros start; [simpl; lia|].
  cbn [fold_left]. cbn [mbind result_bind bind].
  pose proof (item_score_bounds item) as Hitem.
  destruct (item_score scores key dflt_key dflt item) as [n|e]; cbn [mbind result_bind bind].
  - specialize (IH (start + n)).
    destruct (fold_left _ items (Ok (start + n))) as [total|e].
    + cbn [length]. lia.
    + destruct IH as [IH1 IH2]. split; [exact IH1 | right; exact IH2].
  - rewrite score_fold_raised. destruct Hitem as [He Hs]. split; [exact He | left; exact Hs].
Qed.

End Scores.

Lemma severity_scores_bounded : Forall (fun kn => 0 <= snd kn <= 10) severity_scores.
Proof. repeat constructor; simpl; lia. Qed.

Lemma action_scores_bounded : Forall (fun kn => 0 <= snd kn <= 10) action_scores.
Proof. repeat constructor; simpl; lia. Qed.

(** X28: when [calculate_risk_score] returns, the two partial scores are
    not negative and at most ten for each element, the score is their sum
    cut at 100, and the level and the recommendation are those of the
    score: critical from 70, high from 40, medium from 20, low below; it
    raises only [AttributeError] or [TypeError], and returns whenever every
    element is a dictionary whose severity or action is a string or is
    missing. *)
Theorem calculate_risk_score_bounds (pii_matches policy_violations : list value) :
  match calculate_risk_score pii_matches policy_violations with
  | Ok r =>
    0 <= pii_score r <= 10 * Z.of_nat (length pii_matches)
    /\ 0 <= policy_score r <= 10 * Z.of_nat (length policy_violations)
    /\ score r = Z.min (pii_score r + policy_score r) 100
    /\ ((70 <= score r /\ level r = "critical"
         /\ recommendation r = "Do not send. Multiple critical issues detected.")
        \/ (40 <= score r < 70 /\ level r = "high"
            /\ recommendation r = "Review and remediate before sending.")
        \/ (20 <= score r < 40 /\ level r = "medium"
            /\ recommendation r = "Consider reviewing sensitive information.")
        \/ (score r < 20 /\ level r = "low"
            /\ recommendation r = "Generally safe to send."))
  | Raise e =>
    (e = "AttributeError" \/ e = "TypeError")
    /\ (forallb (scorable "severity") pii_matches
        && forallb (scorable "action") policy_violations = false)
  end.
Proof.
  unfold calculate_risk_score, score_items.
  pose proof (score_fold_from severity_scores "severity" "medium" 4 severity_scores_bounded
                ltac:(lia) pii_matches 0) as Hp.
  destruct (fold_left _ pii_matches (Ok 0)) as [p|e]; cbn [mbind result_bind bind].
  - pose proof (score_fold_from action_scores "action" "warn" 5 action_scores_bounded
                  ltac:(lia) policy_violations 0) as Hv.
    destruct (fold_left _ policy_violations (Ok 0)) as [v|e]; cbn [mbind result_bind bind].
    + cbn [score level pii_score policy_score recommendation].
      split; [lia|]. split; [lia|]. split; [reflexivity|].
      unfold risk_level_of.
      destruct (Z.geb_spec (Z.min (p + v) 100) 70); [left; repeat split; lia|].
      destruct (Z.geb_spec (Z.min (p + v) 100) 40); [right; left; repeat split; lia|].
      destruct (Z.geb_spec (Z.min (p + v) 100) 20); [right; right; left; repeat split; lia|].
      right; right; right. repeat split. lia.
    + destruct Hv as [He Hex]. split; [exact He|].
      apply andb_false_iff. right. apply not_true_is_false. intros Hall.
      rewrite forallb_forall in Hall. apply List.Exists_exists in Hex as (x & Hx & Hf).
      rewrite (Hall x Hx) in Hf. discriminate.
  - destruct Hp as [He Hex]. split; [exact He|].
    apply andb_false_iff. left. apply not_true_is_false. intros Hall.
    rewrite forallb_forall in Hall. apply List.Exists_exists in Hex as (x & Hx & Hf).
    rewrite (Hall x Hx) in Hf. discriminate.
Qed.

Lemma calculate_risk_score_worked :
  calculate_risk_score
    [VDict [("type", VStr "ssn"); ("name", VStr "Social Security Number");
            ("severity", VStr "high")]]
    [VDict [("policy", VStr "medical_advice"); ("category", VStr "medical");
            ("action", VStr "block"); ("message", VStr "Medical advice detected.")]]
  = Ok {| score := 17; level := "low"; pii_score := 7; policy_score := 10;
          recommendation := "Generally safe to send." |}.
Proof. reflexivity. Qed.

(** ** Merging configurations *)

Lemma merge_dict_cons (key : string) (val : value) (rest merged : list (string * value)) :
  merge_dict (VDict ((key, val) :: rest)) merged
  = merge_dict (VDict rest) (merge_item key val merged).
Proof. reflexivity. Qed.

Lemma dict_lookup_set (key k : string) (v : value) (d : list (string * value)) :
  dict_lookup key (dict_set k v d)
  = if String.eqb k key then Some v else dict_lookup key d.
Proof.
  unfold dict_lookup. induction d as [|[k' v'] d IH]; simpl.
  - destruct (String.eqb k key); reflexivity.
  - destruct (String.eqb_spec k k') as [->|Hne]; simpl.
    + destruct (String.eqb k' key); reflexivity.
    + destruct (String.eqb_spec k' key) as [->|Hk']; simpl.
      * destruct (String.eqb_spec k key); [congruence | reflexivity].
      * exact IH.
Qed.

Lemma merge_item_lookup (key k : string) (val : value) (merged : list (string * value)) :
  dict_lookup key (merge_item k val merged)
  = if String.eqb k key
    then Some match val, dict_lookup k merged with
              | VDict _, Some (VDict sub) => VDict (merge_dict val sub)
              | _, _ => val
              end
    else dict_lookup key merged.
Proof.
  unfold merge_item.
  destruct val; try (rewrite dict_lookup_set; reflexivity).
  destruct (dict_lookup k merged) as [[]|]; rewrite dict_lookup_set; reflexivity.
Qed.

Lemma dict_lookup_none (key : string) (d : list (string * value)) :
  ~ In key (List.map fst d) -> dict_lookup key d = None.
Proof.
  unfold dict_lookup. induction d as [|[k v] d IH]; intros Hnin; [reflexivity|].
  simpl. destruct (String.eqb_spec k key) as [->|Hne].
  - exfalso. apply Hnin. left. reflexivity.
  - apply IH. intros Hin. apply Hnin. right. exact Hin.
Qed.

Lemma dict_lookup_cons (key k : string) (v : value) (d : list (string * value)) :
  dict_lookup key ((k, v) :: d) = if String.eqb k key then Some v else dict_lookup key d.
Proof. unfold dict_lookup. simpl. destruct (String.eqb k key); reflexivity. Qed.

Lemma merge_dict_lookup (key : string) (items merged : list (string * value)) :
  NoDup (List.map fst items) ->
  dict_lookup key (merge_dict (VDict items) merged)
  = match dict_lookup key items with
    | Some val => dict_lookup key (merge_item key val merged)
    | None => dict_lookup key merged
    end.
Proof.
  revert merged. induction items as [|[k v] items IH]; intros merged Hnd; [reflexivity|].
  simpl in Hnd. apply NoDup_cons in Hnd as [Hk Hnd].
  rewrite merge_dict_cons, (IH _ Hnd), dict_lookup_cons.
  destruct (String.eqb_spec k key) as [->|Hne].
  - rewrite dict_lookup_none; [reflexivity|].
    intros Hin. apply Hk, list_elem_of_In, Hin.
  - destruct (dict_lookup key items) as [val|].
    + rewrite !merge_item_lookup, String.eqb_refl.
      destruct (String.eqb_spec k key); [contradiction|]. reflexivity.
    + rewrite merge_item_lookup. destruct (String.eqb_spec k key); [contradiction|].
      reflexivity.
Qed.

(** X29: in the dictionary that [merge_configs] returns, a key that the
    updates do not hold keeps its value of the base; a key that they hold
    takes their value, except that a dictionary over a dictionary of the
    base is merged into it in the same way, so that the settings of the
    inner dictionary that the update does not name are kept. *)
Theorem merge_configs_lookup (base_config updates : list (string * value)) (key : string) :
  NoDup (List.map fst updates) ->
  dict_lookup key (merge_configs base_config updates)
  = match dict_lookup key updates with
    | None => dict_lookup key base_config
    | Some (VDict sub) =>
      match dict_lookup key base_config with
      | Some (VDict old) => Some (VDict (merge_configs old sub))
      | _ => Some (VDict sub)
      end
    | Some val => Some val
    end.
Proof.
  intros Hnd. unfold merge_configs. rewrite merge_dict_lookup by exact Hnd.
  destruct (dict_lookup key updates) as [val|]; [|reflexivity].
  rewrite merge_item_lookup, String.eqb_refl.
  destruct val; try reflexivity.
  destruct (dict_lookup key base_config) as [[]|]; reflexivity.
Qed.

Lemma merge_configs_lookup_witness :
  NoDup (List.map fst settings_update)
  /\ dict_lookup "rate_limit" (merge_configs default_settings settings_update)
     = Some (VDict [("enabled", VBool true); ("max_per_minute", VInt 60)]).
Proof.
  assert (Hnd : NoDup (List.map fst settings_update)).
  { apply NoDup_ListNoDup. repeat constructor; simpl; intuition discriminate. }
  split; [exact Hnd|].
  rewrite (merge_configs_lookup default_settings settings_update "rate_limit" Hnd).
  reflexivity.
Defined.

(* ================================================================== *)
(** * The redaction tool and the scan *)
(* ================================================================== *)

(** X30: the redaction tool and the scan redact alike: with detection
    enabled and automatic redaction asked for, the redacted prompt of a
    scan that is safe to send is the redacted text that [_redact_pii]
    returns for the same text under the configured style. *)
Theorem redact_tool_agrees_with_scan (engine : ReEngine) (w : writers)
  (self : AIGovernanceMCP) (clk : clock) (args : scan_args) (doc r : value) :
  truthy (dict_get (config self) "pii_detection_enabled" (VBool true)) = true ->
  arg_auto_redact args = Some true ->
  @_redact_pii engine self {| arg_text := arg_prompt args; arg_style := None |} = Ok doc ->
  snd (@_scan_prompt engine w self clk args) = Ok r ->
  value_get r "safe_to_send" = VBool true ->
  value_get r "redacted_prompt" = value_get doc "redacted".
Proof.
  intros Hpii Hauto Hdoc Hr Hsafe.
  unfold _redact_pii in Hdoc. cbn [arg_text arg_style] in Hdoc.
  set (prompt := default EmptyString (arg_prompt args)) in *.
  set (matches := detect_pii prompt
                    (truthy (dict_get (config self) "extended_patterns" (VBool false)))) in *.
  destruct (redact_with prompt matches
              (dict_get (config self) "redaction_style" (VStr "[REDACTED]")))
    as [redacted|] eqn:Hred; cbn [mbind result_bind bind] in Hdoc; [|discriminate].
  injection Hdoc as <-.
  cbn [value_get context_get List.find fst snd String.eqb Ascii.eqb Bool.eqb].
  unfold _scan_prompt in Hr. fold prompt in Hr. rewrite Hauto in Hr.
  destruct (int_gt _ _) as [[|]|]; cbn [snd] in Hr; [| |discriminate].
  { injection Hr as <-. discriminate Hsafe. }
  destruct (scan_response (config self) prompt (VBool true)) as [[[response rp] act]|] eqn:Hs;
    cbn [snd] in Hr; [|discriminate].
  assert (Hrp : rp = redacted).
  { unfold scan_response in Hs. rewrite Hpii in Hs. fold matches in Hs.
    unfold redact_with in Hred. cbn [truthy andb] in Hs.
    destruct matches as [|m ms]; cbn [length Nat.eqb negb] in Hs.
    - injection Hred as <-. cbn [mbind result_bind bind] in Hs.
      destruct (scan_result _ _ _ _ _); cbn [mbind result_bind bind] in Hs; [|discriminate].
      injection Hs as _ <- _. reflexivity.
    - destruct (dict_get (config self) "redaction_style" (VStr "[REDACTED]"));
        try discriminate.
      injection Hred as <-. cbn [mbind result_bind bind] in Hs.
      destruct (scan_result _ _ _ _ _); cbn [mbind result_bind bind] in Hs; [|discriminate].
      injection Hs as _ <- _. reflexivity. }
  subst rp. apply scan_response_fields in Hs as (_ & H2 & _ & H4).
  assert (Hsame : value_get r "redacted_prompt" = value_get response "redacted_prompt"
                  /\ value_get r "safe_to_send" = value_get response "safe_to_send").
  { destruct (truthy (dict_get (config self) "audit_logging_enabled" (VBool true))).
    - destruct (append_entry _ _ _ _) as [d' [h|e]]; cbn [snd] in Hr; [|discriminate].
      injection Hr as <-. rewrite !value_get_value_set by discriminate. auto.
    - cbn [snd] in Hr. injection Hr as <-. auto. }
  destruct Hsame as [G2 G4]. rewrite G2, H2. rewrite G4, H4 in Hsafe.
  injection Hsafe as ->. reflexivity.
Qed.

Lemma redact_tool_agrees_with_scan_witness :
  truthy (dict_get (config quiet_server) "pii_detection_enabled" (VBool true)) = true
  /\ @_redact_pii worked_engine quiet_server
       {| arg_text := arg_prompt email_ssn_args; arg_style := None |} = Ok email_ssn_redaction
  /\ snd (@_scan_prompt worked_engine sqlite quiet_server worked_clock email_ssn_args)
     = Ok email_ssn_response
  /\ value_get email_ssn_response "safe_to_send" = VBool true
  /\ value_get email_ssn_response "redacted_prompt" = value_get email_ssn_redaction "redacted"
  /\ value_get email_ssn_redaction "redacted"
     = VStr "My email is [REDACTED] and SSN is [REDACTED]".
Proof.
  assert (H1 : @_redact_pii worked_engine quiet_server
                 {| arg_text := arg_prompt email_ssn_args; arg_style := None |}
               = Ok email_ssn_redaction) by (vm_compute; reflexivity).
  assert (H2 : snd (@_scan_prompt worked_engine sqlite quiet_server worked_clock email_ssn_args)
               = Ok email_ssn_response) by (vm_compute; reflexivity).
  assert (H3 : value_get email_ssn_response "safe_to_send" = VBool true)
    by (vm_compute; reflexivity).
  split; [reflexivity|]. split; [exact H1|]. split; [exact H2|]. split; [exact H3|].
  split; [|vm_compute; reflexivity].
  exact (redact_tool_agrees_with_scan worked_engine sqlite quiet_server worked_clock
           email_ssn_args email_ssn_redaction email_ssn_response eq_refl eq_refl H1 H2 H3).
Defined.
